(** * Planner: the block document model and editing engine

    A shallow embedding of the block layer of the planner
    ([js/core.js]: [DataManager]; the block system: [BlockManager] and
    [BlockMenu]; the rich text editor: [Editor]) and the properties of it
    that the specification states.

    Conventions of the embedding.
    - A JavaScript string is a [string]; its characters are code units below
      256, of which [Js.isWhiteSpace] lists the ones [String.prototype.trim]
      strips.
    - The IndexedDB object store [blocks] (key path [id]) is the list of its
      records in key order; every request that writes to it is appended to a
      journal, so that the order of writes can be stated.
    - An [async] method is a function of the state that either settles
      (normally or by throwing) or does not settle within the given fuel.
    - [new Date()], [Utils.generateId()] and [new URL()] are supplied by the
      host: they are the fields of a [Host] record. *)

From Stdlib Require Import ZArith Ascii String.
From stdpp Require Import base option list gmap strings relations sorting.

(** ** JavaScript strings and values *)

Module Js.

(** The code units below 256 that [trim] removes: TAB, LF, VT, FF, CR,
    SPACE and NBSP. *)
Definition isWhiteSpace (c : ascii) : bool :=
  let n := nat_of_ascii c in
  (Nat.leb 9 n && Nat.leb n 13) || Nat.eqb n 32 || Nat.eqb n 160.

Fixpoint trimStart (s : string) : string :=
  match s with
  | EmptyString => EmptyString
  | String c s' => if isWhiteSpace c then trimStart s' else s
  end.

Fixpoint trimEnd (s : string) : string :=
  match s with
  | EmptyString => EmptyString
  | String c s' =>
      match trimEnd s' with
      | EmptyString => if isWhiteSpace c then EmptyString else String c EmptyString
      | t => String c t
      end
  end.

Definition trim (s : string) : string := trimEnd (trimStart s).

Fixpoint startsWith (s p : string) {struct p} : bool :=
  match p, s with
  | EmptyString, _ => true
  | String a p', String b s' => Ascii.eqb a b && startsWith s' p'
  | String _ _, EmptyString => false
  end.

(** The values a caller can pass where a string is expected. *)
Inductive value :=
| Undefined
| Null
| Boolean (b : bool)
| Number (z : Z)
| Str (s : string)
| Object.

(** [!v] *)
Definition falsy (v : value) : bool :=
  match v with
  | Undefined | Null => true
  | Boolean b => negb b
  | Number z => Z.eqb z 0
  | Str s => String.eqb s ""
  | Object => false
  end.

(** [s || d] on a string that may be absent. *)
Definition strOr (o : option string) (d : string) : string :=
  match o with
  | Some s => if String.eqb s "" then d else s
  | None => d
  end.

(** [n || 0] on a number that may be absent. *)
Definition numOr0 (o : option Z) : Z :=
  match o with
  | Some z => z
  | None => 0%Z
  end.

End Js.

(** What the browser supplies.  The [n]-th reading of the clock and the
    [n]-th identifier drawn are functions of [n]; [URL_protocol s] is the
    [protocol] of [new URL(s)], and [None] when the constructor throws. *)
Record Host := mkHost {
  toISOString : nat → string;
  generateId : nat → string;
  URL_protocol : string → option string
}.

(** ** Block records *)

Inductive PropVal :=
| PBool (b : bool)
| PStr (s : string).

Record Block := mkBlock {
  id : string;
  pageId : string;
  parentId : option string;
  type : string;
  content : string;
  properties : gmap string PropVal;
  order : Z;
  createdAt : string;
  updatedAt : string
}.

(** An object literal that names some of the fields of a block, as passed to
    [updateBlock]. *)
Record Patch := mkPatch {
  p_id : option string;
  p_pageId : option string;
  p_parentId : option (option string);
  p_type : option string;
  p_content : option string;
  p_properties : option (gmap string PropVal);
  p_order : option Z;
  p_createdAt : option string;
  p_updatedAt : option string
}.

Definition emptyPatch : Patch :=
  mkPatch None None None None None None None None None.

(** [{ type: t }], [{ content: c }], [{ order: i }], [{ properties: ps }] *)
Definition typePatch (t : string) : Patch :=
  mkPatch None None None (Some t) None None None None None.
Definition contentPatch (c : string) : Patch :=
  mkPatch None None None None (Some c) None None None None.
Definition orderPatch (i : Z) : Patch :=
  mkPatch None None None None None None (Some i) None None.
Definition propertiesPatch (ps : gmap string PropVal) : Patch :=
  mkPatch None None None None None (Some ps) None None None.

(** [{ ...b, ...p }] *)
Definition spread (b : Block) (p : Patch) : Block :=
  {| id := default (id b) (p_id p);
     pageId := default (pageId b) (p_pageId p);
     parentId := default (parentId b) (p_parentId p);
     type := default (type b) (p_type p);
     content := default (content b) (p_content p);
     properties := default (properties b) (p_properties p);
     order := default (order b) (p_order p);
     createdAt := default (createdAt b) (p_createdAt p);
     updatedAt := default (updatedAt b) (p_updatedAt p) |}.

Definition withUpdatedAt (b : Block) (t : string) : Block :=
  {| id := id b; pageId := pageId b; parentId := parentId b; type := type b;
     content := content b; properties := properties b; order := order b;
     createdAt := createdAt b; updatedAt := t |}.

Definition withType (b : Block) (t : string) : Block :=
  {| id := id b; pageId := pageId b; parentId := parentId b; type := t;
     content := content b; properties := properties b; order := order b;
     createdAt := createdAt b; updatedAt := updatedAt b |}.

(** ** Settling of asynchronous calls *)

Inductive Completion (A : Type) :=
| Normal (a : A)
| Throw (e : string).
Arguments Normal {A} a.
Arguments Throw {A} e.

(** A computation over a state [S]: [None] when it has not settled within
    its fuel.  A throw keeps the state reached so far. *)
Definition Task (St A : Type) : Type := St → option (Completion A * St).

Definition ret {St A} (a : A) : Task St A := λ s, Some (Normal a, s).
Definition throw {St A} (e : string) : Task St A := λ s, Some (Throw e, s).
Definition pending {St A} : Task St A := λ _, None.

Definition bind {St A B} (m : Task St A) (k : A → Task St B) : Task St B :=
  λ s, match m s with
       | None => None
       | Some (Normal a, s') => k a s'
       | Some (Throw e, s') => Some (Throw e, s')
       end.

Notation "'let*' x ':=' m 'in' k" := (bind m (λ x, k))
  (at level 10, x name, m at level 100, k at level 200).

(** [for (const x of l) { await body(x) }] *)
Fixpoint forOf {St A} (l : list A) (body : A → Task St unit) : Task St unit :=
  match l with
  | [] => ret tt
  | x :: l' => let* _ := body x in forOf l' body
  end.

(** [for (let i = i0; i < l.length; i++) { await body(i, l[i]) }], on the
    elements of [l] from index [i0] on. *)
Fixpoint forIndex {St A} (i0 : nat) (l : list A) (body : nat → A → Task St unit)
  : Task St unit :=
  match l with
  | [] => ret tt
  | x :: l' => let* _ := body i0 x in forIndex (S i0) l' body
  end.

(** ** DataManager: the persistent store ([js/core.js]) *)

Module DataManager.

Inductive Request :=
| Add (b : Block)
| Put (b : Block)
| Delete (key : string).

Record t := mk {
  blocks : list Block;      (* object store 'blocks', in key order *)
  journal : list Request;   (* write requests, oldest first *)
  tick : nat                (* readings of the host taken so far *)
}.

Abbreviation Async := (Task t).

Definition hasKey (k : string) (l : list Block) : bool :=
  existsb (λ b, String.eqb (id b) k) l.

(** The first record of [l] whose [id] is [k]: [store.get(k)] on the
    object store, [l.find(b => b.id === k)] on an array. *)
Definition findById (k : string) (l : list Block) : option Block :=
  find (λ b, String.eqb (id b) k) l.

(** Position of a new key in key order. *)
Fixpoint insertByKey (b : Block) (l : list Block) : list Block :=
  match l with
  | [] => [b]
  | x :: l' => if String.ltb (id b) (id x) then b :: l else x :: insertByKey b l'
  end.

Definition replaceKey (b : Block) (l : list Block) : list Block :=
  (λ x, if String.eqb (id x) (id b) then b else x) <$> l.

Definition removeKey (k : string) (l : list Block) : list Block :=
  filter (λ b, id b ≠ k) l.

(** [store.put]: replaces the record under the key, or inserts it. *)
Definition put (b : Block) (l : list Block) : list Block :=
  if hasKey (id b) l then replaceKey b l else insertByKey b l.

Inductive Index := pageIdIndex | parentIdIndex.

(** The key of a record in an index; a record whose indexed property is
    [null] has no entry in the index. *)
Definition indexKey (ix : Index) (b : Block) : option string :=
  match ix with
  | pageIdIndex => Some (pageId b)
  | parentIdIndex => parentId b
  end.

Section Requests.
Variable host : Host.

Definition newDate : Async string :=
  λ d, Some (Normal (toISOString host (tick d)),
             mk (blocks d) (journal d) (S (tick d))).

Definition newId : Async string :=
  λ d, Some (Normal (generateId host (tick d)),
             mk (blocks d) (journal d) (S (tick d))).

(** [store.add]: rejects when the key is taken. *)
Definition _add (data : Block) : Async Block :=
  λ d, if hasKey (id data) (blocks d)
       then Some (Throw "ConstraintError", d)
       else Some (Normal data,
                  mk (insertByKey data (blocks d)) (journal d ++ [Add data]) (tick d)).

Definition _get (k : string) : Async (option Block) :=
  λ d, Some (Normal (findById k (blocks d)), d).

Definition _getByIndex (ix : Index) (v : string) : Async (list Block) :=
  λ d, Some (Normal (filter (λ b, indexKey ix b = Some v) (blocks d)), d).

Definition _update (data : Block) : Async Block :=
  λ d, Some (Normal data,
             mk (put data (blocks d)) (journal d ++ [Put data]) (tick d)).

Definition _delete (k : string) : Async bool :=
  λ d, Some (Normal true,
             mk (removeKey k (blocks d)) (journal d ++ [Delete k]) (tick d)).

(** The argument of [createBlock]: [pageId] and the optional fields. *)
Record BlockInit := mkInit {
  i_pageId : string;
  i_parentId : option string;
  i_type : option string;
  i_content : option string;
  i_properties : option (gmap string PropVal);
  i_order : option Z
}.

Definition createBlock (data : BlockInit) : Async Block :=
  let* k := newId in
  let* c := newDate in
  let* u := newDate in
  _add {| id := k;
          pageId := i_pageId data;
          parentId := match i_parentId data with
                      | Some p => if String.eqb p "" then None else Some p
                      | None => None
                      end;
          type := Js.strOr (i_type data) "paragraph";
          content := Js.strOr (i_content data) "";
          properties := default ∅ (i_properties data);
          order := Js.numOr0 (i_order data);
          createdAt := c;
          updatedAt := u |}.

Definition getBlock (k : string) : Async (option Block) := _get k.

(** [Array.prototype.sort] with [(a, b) => a.order - b.order]: stable. *)
Fixpoint insertByOrder (b : Block) (l : list Block) : list Block :=
  match l with
  | [] => [b]
  | x :: l' => if (order b <=? order x)%Z then b :: l else x :: insertByOrder b l'
  end.

Definition sortByOrder (l : list Block) : list Block :=
  foldr insertByOrder [] l.

Definition getBlocks (p : string) : Async (list Block) :=
  let* bs := _getByIndex pageIdIndex p in
  ret (sortByOrder bs).

Definition updateBlock (k : string) (data : Patch) : Async Block :=
  let* block := getBlock k in
  match block with
  | None => throw "Block not found"
  | Some b =>
      let* now := newDate in
      _update (withUpdatedAt (spread b data) now)
  end.

(** The recursion follows the [parentId] index; [fuel] bounds its depth. *)
Fixpoint deleteBlock (fuel : nat) (k : string) : Async bool :=
  match fuel with
  | O => pending
  | S fuel' =>
      let* children := _getByIndex parentIdIndex k in
      let* _ := forOf children (λ child, let* _ := deleteBlock fuel' (id child) in ret tt) in
      _delete k
  end.

Definition reorderBlocks (p : string) (orderedIds : list string) : Async unit :=
  let* bs := getBlocks p in
  forIndex 0 orderedIds (λ i k,
    match findById k bs with
    | Some block => let* _ := updateBlock (id block) (orderPatch (Z.of_nat i)) in ret tt
    | None => ret tt
    end).

End Requests.

End DataManager.

(** ** BlockManager: the live block collection of the open page *)

Module BlockManager.

(** A [.block] element of the page.  [textContent] is the text of its
    [.block-content] child, [None] when the rendering of the block type has
    none.  Rendering escapes the content with [Utils.escapeHtml] and the
    browser parses it back: the text of the child is the content. *)
Record Element := mkElement {
  blockId : string;          (* dataset.blockId *)
  className : string;        (* the type in [block block-${type}] *)
  textContent : option string
}.

Record t := mk {
  blocks : gmap string Block;     (* this.blocks *)
  page : list Element;            (* the .block children of #pageContent *)
  currentPage : option string;    (* app.state.get('currentPage') *)
  data : option DataManager.t     (* app.data *)
}.

Abbreviation Async := (Task t).

Definition setBlocks (m : gmap string Block) (s : t) : t :=
  mk m (page s) (currentPage s) (data s).
Definition setPage (p : list Element) (s : t) : t :=
  mk (blocks s) p (currentPage s) (data s).
Definition setData (d : option DataManager.t) (s : t) : t :=
  mk (blocks s) (page s) (currentPage s) d.

(** [await this.app.data?.m(...)]: [None] when there is no data layer. *)
Definition viaData {A} (m : DataManager.Async A) : Async (option A) :=
  λ s, match data s with
       | None => Some (Normal None, s)
       | Some d =>
           match m d with
           | None => None
           | Some (Normal a, d') => Some (Normal (Some a), setData (Some d') s)
           | Some (Throw e, d') => Some (Throw e, setData (Some d') s)
           end
       end.

(** The block types of [getBlockTypes], with their shortcut. *)
Definition getBlockTypes : list (string * string) :=
  [ ("paragraph", ""); ("heading1", "#"); ("heading2", "##"); ("heading3", "###");
    ("bulleted_list", "-"); ("numbered_list", "1."); ("todo", "[]"); ("toggle", ">");
    ("quote", String (ascii_of_nat 34) EmptyString); ("callout", ""); ("divider", "---");
    ("code", "```"); ("image", ""); ("bookmark", ""); ("table", ""); ("database", "") ].

(** The [shortcuts] object of [checkMarkdownShortcut], in the order
    [Object.entries] lists its keys (none of them is an array index). *)
Definition shortcuts : list (string * string) :=
  [ ("#", "heading1"); ("##", "heading2"); ("###", "heading3");
    ("-", "bulleted_list"); ("*", "bulleted_list"); ("1.", "numbered_list");
    ("[]", "todo"); ("[ ]", "todo"); (">", "toggle");
    (String (ascii_of_nat 34) EmptyString, "quote"); ("---", "divider"); ("```", "code") ].

Section Methods.
Variable host : Host.

Definition sanitizeUrl (url : Js.value) (allowDataUri : bool) : string :=
  match url with
  | Js.Str s =>
      if Js.falsy url then ""
      else
        let trimmed := Js.trim s in
        if allowDataUri && Js.startsWith trimmed "data:image/" then trimmed
        else
          match URL_protocol host trimmed with
          | Some protocol =>
              if String.eqb protocol "http:" || String.eqb protocol "https:"
              then trimmed else ""
          | None => ""
          end
  | _ => ""
  end.

(** Which renderings of [renderBlockContent] hold a [.block-content]. *)
Definition hasContent (ty : string) : bool :=
  negb (String.eqb ty "divider" || String.eqb ty "image" || String.eqb ty "bookmark").

Definition renderBlock (blockData : Block) : Element :=
  {| blockId := id blockData;
     className := type blockData;
     textContent := if hasContent (type blockData)
                    then Some (content blockData) else None |}.

(** [document.querySelector(`[data-block-id="${k}"]`)]: the first element
    of the page with that block id, with its position. *)
Definition querySelector (k : string) (p : list Element) : option (nat * Element) :=
  list_find (λ e, blockId e = k) p.

(** The [afterBlock] argument of [createBlock]: the element at a position
    of the page, or a block id. *)
Inductive Ref :=
| ElementRef (i : nat)
| KeyRef (k : string).

(** [afterBlock.dataset?.blockId || afterBlock] as a key of [this.blocks]. *)
Definition refKey (p : list Element) (r : Ref) : option string :=
  match r with
  | ElementRef i =>
      match p !! i with
      | Some e => if String.eqb (blockId e) "" then None else Some (blockId e)
      | None => None
      end
  | KeyRef k => Some k
  end.

(** [if (afterBlock)] *)
Definition refTruthy (r : option Ref) : bool :=
  match r with
  | None => false
  | Some (KeyRef k) => negb (String.eqb k "")
  | Some (ElementRef _) => true
  end.

(** [afterBlock.after(blockEl)] when the reference is an attached element,
    else the element goes to the end of the blocks. *)
Definition insertElement (r : option Ref) (e : Element) (p : list Element)
  : list Element :=
  match r with
  | Some (ElementRef i) =>
      if decide (i < length p) then take (S i) p ++ e :: drop (S i) p else p ++ [e]
  | _ => p ++ [e]
  end.

Definition createOrder (s : t) (afterBlock : option Ref) : Z :=
  if refTruthy afterBlock then
    match afterBlock with
    | Some r =>
        match refKey (page s) r with
        | Some k =>
            match blocks s !! k with
            | Some afterBlockData => (order afterBlockData + 1)%Z
            | None => 0%Z
            end
        | None => 0%Z
        end
    | None => 0%Z
    end
  else Z.of_nat (size (blocks s)).

Definition createBlock (ty : string) (c : option string) (afterBlock : option Ref)
    (options : gmap string PropVal) : Async (option Element) :=
  λ s,
    match currentPage s with
    | None => Some (Normal None, s)
    | Some pageId =>
        if String.eqb pageId "" then Some (Normal None, s)
        else
          (let* blockData := viaData (DataManager.createBlock host
                         (DataManager.mkInit pageId None (Some ty) c (Some options)
                            (Some (createOrder s afterBlock)))) in
           match blockData with
           | None => ret None
           | Some b =>
               let blockEl := renderBlock b in
               λ s', Some (Normal (Some blockEl),
                           setPage (insertElement afterBlock blockEl (page s'))
                             (setBlocks (<[id b := b]> (blocks s')) s'))
           end) s
    end.

(** [createBlock] up to its [await]: the page id and the order have been
    read; [None] when the method returned early. *)
Definition createBlock_begin (afterBlock : option Ref) (s : t) : option (string * Z) :=
  match currentPage s with
  | None => None
  | Some pageId =>
      if String.eqb pageId "" then None else Some (pageId, createOrder s afterBlock)
  end.

(** [createBlock] from its [await] on: the block is stored under the page
    id and the order that were read, then set in the collection and
    rendered. *)
Definition createBlock_resume (pageId : string) (order : Z) (ty : string)
    (c : option string) (afterBlock : option Ref) (options : gmap string PropVal)
  : Async (option Element) :=
  let* blockData := viaData (DataManager.createBlock host
                      (DataManager.mkInit pageId None (Some ty) c (Some options)
                         (Some order))) in
  match blockData with
  | None => ret None
  | Some b =>
      let blockEl := renderBlock b in
      λ s', Some (Normal (Some blockEl),
                  setPage (insertElement afterBlock blockEl (page s'))
                    (setBlocks (<[id b := b]> (blocks s')) s'))
  end.

Definition updateBlock (k : string) (patch : Patch) : Async unit :=
  λ s,
    match blocks s !! k with
    | None => Some (Normal tt, s)
    | Some blockData =>
        (let* _ := viaData (DataManager.updateBlock host k patch) in ret tt)
          (setBlocks (<[k := spread blockData patch]> (blocks s)) s)
    end.

Definition deleteBlock (fuel : nat) (k : string) : Async unit :=
  λ s,
    (let* _ := viaData (DataManager.deleteBlock fuel k) in ret tt)
      (setPage (match querySelector k (page s) with
                | Some (i, _) => delete i (page s)
                | None => page s
                end)
         (setBlocks (delete k (blocks s)) s)).

(** [convertBlock] up to its [await]: the type is assigned in the record
    held by [this.blocks].  The result is that record, which the rest of
    the method renders, with the position of the element; [None] when the
    method returned early. *)
Definition convertBlock_begin (k newType : string) (s : t)
  : option (nat * Block) * t :=
  match blocks s !! k with
  | None => (None, s)
  | Some blockData =>
      match querySelector k (page s) with
      | None => (None, s)
      | Some (i, _) =>
          let blockData' := withType blockData newType in
          (Some (i, blockData'), setBlocks (<[k := blockData']> (blocks s)) s)
      end
  end.

(** [convertBlock] from its [await] on: the store is updated, then the
    element is replaced by the rendering of the record. *)
Definition convertBlock_resume (k newType : string) (i : nat) (blockData : Block)
  : Async unit :=
  let* _ := viaData (DataManager.updateBlock host k (typePatch newType)) in
  λ s, Some (Normal tt, setPage (<[i := renderBlock blockData]> (page s)) s).

Definition convertBlock (k newType : string) : Async unit :=
  λ s, match convertBlock_begin k newType s with
       | (None, s') => Some (Normal tt, s')
       | (Some (i, blockData), s') => convertBlock_resume k newType i blockData s'
       end.

(** The handler of a space key in the block at position [i] of the page.
    [convertBlock] is called and not awaited: the handler goes on when the
    call reaches its [await], and the rest of the call runs later. *)
Record KeyResult := mkKeyResult {
  defaultPrevented : bool;
  afterHandler : t;
  later : option (Async unit)
}.

Definition setText (txt : string) (e : Element) : Element :=
  {| blockId := blockId e; className := className e; textContent := Some txt |}.

Definition checkMarkdownShortcut (i : nat) (s : t) : KeyResult :=
  match page s !! i with
  | None => mkKeyResult false s None
  | Some block =>
      match textContent block with
      | None => mkKeyResult false s None
      | Some text =>
          match find (λ e, String.eqb text (fst e)) shortcuts with
          | None => mkKeyResult false s None
          | Some (_, ty) =>
              let (started, s1) := convertBlock_begin (blockId block) ty s in
              let s2 := setPage (alter (setText "") i (page s1)) s1 in
              mkKeyResult true s2
                (match started with
                 | Some (j, blockData) =>
                     Some (convertBlock_resume (blockId block) ty j blockData)
                 | None => None
                 end)
          end
      end
  end.

(** The state once the pending part of the handler has settled. *)
Definition settle (r : KeyResult) : option (Completion unit * t) :=
  match later r with
  | Some k => k (afterHandler r)
  | None => Some (Normal tt, afterHandler r)
  end.

(** [deleteBlock] up to its [await]: the element and the record of the
    collection are removed. *)
Definition deleteBlock_begin (k : string) (s : t) : t :=
  setPage (match querySelector k (page s) with
           | Some (i, _) => delete i (page s)
           | None => page s
           end)
    (setBlocks (delete k (blocks s)) s).

(** [this.blocks.set(b.id, b)] for each block of an array, in order. *)
Definition setAll (bs : list Block) (m : gmap string Block) : gmap string Block :=
  foldl (λ acc b, <[id b := b]> acc) m bs.

(** [loadBlocks]: the collection and the page are cleared, then filled
    from what [getBlocks] returns ([[]] when there is no data layer). *)
Definition loadBlocks (pageId : string) : Async unit :=
  λ s,
    (let* fetched := viaData (DataManager.getBlocks pageId) in
     let bs := default [] fetched in
     λ s', Some (Normal tt,
                 setPage (page s' ++ (renderBlock <$> bs))
                   (setBlocks (setAll bs (blocks s')) s')))
      (setPage [] (setBlocks ∅ s)).

(** [reorderBlocks]: the ids of the elements of the page, in document
    order, are sent to the store. *)
Definition reorderBlocks : Async unit :=
  λ s,
    let orderedIds := blockId <$> page s in
    match currentPage s with
    | None => Some (Normal tt, s)
    | Some pageId =>
        if String.eqb pageId "" then Some (Normal tt, s)
        else (let* _ := viaData (DataManager.reorderBlocks host pageId orderedIds) in
              ret tt) s
    end.

(** [block.after(dragged)] and [block.before(dragged)] on the children of
    the page: the dragged element, at [i], leaves its place and is put
    back next to the target, at [j]. *)
Definition placeAfter (i j : nat) (p : list Element) : list Element :=
  match p !! i with
  | Some dragged =>
      let rest := delete i p in
      let target := if decide (i < j) then j - 1 else j in
      take (S target) rest ++ dragged :: drop (S target) rest
  | None => p
  end.

Definition placeBefore (i j : nat) (p : list Element) : list Element :=
  match p !! i with
  | Some dragged =>
      let rest := delete i p in
      let target := if decide (i < j) then j - 1 else j in
      take target rest ++ dragged :: drop target rest
  | None => p
  end.

(** The [drop] listener of the block at [j], with [this.draggedBlock] the
    block at [draggedBlock]. *)
Definition drop (draggedBlock : option nat) (j : nat) : Async unit :=
  λ s,
    match draggedBlock with
    | Some i =>
        if decide (i ≠ j) then
          reorderBlocks
            (setPage (if decide (i < j) then placeAfter i j (page s)
                      else placeBefore i j (page s)) s)
        else Some (Normal tt, s)
    | None => Some (Normal tt, s)
    end.

End Methods.

End BlockManager.

(** ** BlockMenu: the slash-command palette *)

Module BlockMenu.

Record t := mk {
  isOpen : bool;
  selectedIndex : Z;
  targetBlock : option nat     (* the target element, by its position in the page *)
}.

(** The menu together with the block manager it acts on. *)
Record App := mkApp {
  menu : t;
  manager : BlockManager.t
}.

Inductive Key := Escape | ArrowDown | ArrowUp | Enter | OtherKey.

Definition show (block : nat) (m : t) : t := mk true 0 (Some block).

Definition hide (m : t) : t := mk false (selectedIndex m) None.

Definition setSelectedIndex (i : Z) (m : t) : t := mk (isOpen m) i (targetBlock m).

(** [items[i]] on the node list of the menu items. *)
Definition item (items : list string) (i : Z) : option string :=
  if (i <? 0)%Z then None else items !! Z.to_nat i.

(** The [data-type] of the rendered items: one per block type. *)
Definition renderedItems : list string := fst <$> BlockManager.getBlockTypes.

Definition onManager {A} (m : BlockManager.Async A) : Task App A :=
  λ a, match m (manager a) with
       | None => None
       | Some (r, s') => Some (r, mkApp (menu a) s')
       end.

Definition clearSlash (e : BlockManager.Element) : BlockManager.Element :=
  match BlockManager.textContent e with
  | Some txt => if String.eqb txt "/" then BlockManager.setText "" e else e
  | None => e
  end.

Section Methods.
Variable host : Host.

Definition selectType (ty : string) : Task App unit :=
  let* _ :=
    (λ a, match targetBlock (menu a) with
          | None => Some (Normal tt, a)
          | Some i =>
              let s := manager a in
              let s1 := BlockManager.setPage (alter clearSlash i (BlockManager.page s)) s in
              let a1 := mkApp (menu a) s1 in
              match BlockManager.page s1 !! i with
              | Some target =>
                  if negb (String.eqb (BlockManager.blockId target) "")
                     && bool_decide (BlockManager.textContent target = Some "")
                  then onManager (BlockManager.convertBlock host (BlockManager.blockId target) ty) a1
                  else onManager (let* _ := BlockManager.createBlock host ty (Some "")
                                              (Some (BlockManager.ElementRef i)) ∅ in ret tt) a1
              | None =>
                  onManager (let* _ := BlockManager.createBlock host ty (Some "")
                                         (Some (BlockManager.ElementRef i)) ∅ in ret tt) a1
              end
          end) in
  λ a, Some (Normal tt, mkApp (hide (menu a)) (manager a)).

(** The [keydown] listener of [bindEvents], on the items of the menu. *)
Definition keydown (items : list string) (k : Key) : Task App unit :=
  λ a,
    if negb (isOpen (menu a)) then Some (Normal tt, a)
    else
      match k with
      | Escape => Some (Normal tt, mkApp (hide (menu a)) (manager a))
      | ArrowDown =>
          Some (Normal tt,
                mkApp (setSelectedIndex
                         (Z.min (selectedIndex (menu a) + 1) (Z.of_nat (length items) - 1))
                         (menu a)) (manager a))
      | ArrowUp =>
          Some (Normal tt,
                mkApp (setSelectedIndex (Z.max (selectedIndex (menu a) - 1) 0) (menu a))
                      (manager a))
      | Enter =>
          match item items (selectedIndex (menu a)) with
          | Some ty => selectType ty a
          | None => Some (Normal tt, a)
          end
      | OtherKey => Some (Normal tt, a)
      end.

(** [selectType] up to its [await], with the rest of the call: the slash
    is cleared and [convertBlock] or [createBlock] has run to its own
    [await]; the rest finishes that call and hides the menu.  Without a
    target the menu is hidden at once. *)
Definition selectType_begin (ty : string) (a : App) : App * Task App unit :=
  let close : Task App unit :=
    λ a', Some (Normal tt, mkApp (hide (menu a')) (manager a')) in
  match targetBlock (menu a) with
  | None => (mkApp (hide (menu a)) (manager a), ret tt)
  | Some i =>
      let s := manager a in
      let s1 := BlockManager.setPage (alter clearSlash i (BlockManager.page s)) s in
      let create :=
        (mkApp (menu a) s1,
         match BlockManager.createBlock_begin (Some (BlockManager.ElementRef i)) s1 with
         | Some (pageId, order) =>
             let* _ := onManager (BlockManager.createBlock_resume host pageId order ty
                                    (Some "") (Some (BlockManager.ElementRef i)) ∅) in
             close
         | None => close
         end) in
      match BlockManager.page s1 !! i with
      | Some target =>
          if negb (String.eqb (BlockManager.blockId target) "")
             && bool_decide (BlockManager.textContent target = Some "")
          then
            match BlockManager.convertBlock_begin (BlockManager.blockId target) ty s1 with
            | (Some (j, blockData), s2) =>
                (mkApp (menu a) s2,
                 let* _ := onManager (BlockManager.convertBlock_resume host
                                        (BlockManager.blockId target) ty j blockData) in
                 close)
            | (None, s2) => (mkApp (menu a) s2, close)
            end
          else create
      | None => create
      end
  end.

(** The [keydown] listener on an Enter key, up to the [await] of
    [selectType], with the rest of that call. *)
Definition enter_begin (items : list string) (a : App) : App * Task App unit :=
  if negb (isOpen (menu a)) then (a, ret tt)
  else
    match item items (selectedIndex (menu a)) with
    | Some ty => selectType_begin ty a
    | None => (a, ret tt)
    end.

(** The [click] listener of the items, for a click whose target lies in
    the item [item], if in any. *)
Definition itemClick (item : option string) : Task App unit :=
  match item with
  | Some ty => selectType ty
  | None => ret tt
  end.

(** The [click] listener of the document, for a click whose target is
    inside the menu or not. *)
Definition click (insideMenu : bool) (a : App) : App :=
  if isOpen (menu a) && negb insideMenu
  then mkApp (hide (menu a)) (manager a) else a.

(** A run of key events, each handled once the previous one has settled. *)
Fixpoint keydowns (items : list string) (ks : list Key) : Task App unit :=
  match ks with
  | [] => ret tt
  | k :: ks' => let* _ := keydown items k in keydowns items ks'
  end.

End Methods.

End BlockMenu.

(** ** The keyboard in a block ([BlockManager.handleKeydown]) *)

Module Keyboard.

Inductive Key := Slash | Enter | Backspace | ArrowUp | ArrowDown | Space | Other.

(** A [keydown] event whose target lies in the block at position [block]
    of the page. *)
Record Event := mkEvent {
  key : Key;
  shiftKey : bool;
  block : nat;
  targetText : string;    (* e.target.textContent *)
  focusOffset : nat       (* window.getSelection().focusOffset *)
}.

(** The block manager with its menu and the focus: the focused block and
    the caret offset when the code sets it. *)
Record t := mk {
  app : BlockMenu.App;
  focus : option (nat * option nat)
}.

(** What a handler has done when it returns; [later] is the part of an
    [async] call that was started and not awaited. *)
Record Result := mkResult {
  defaultPrevented : bool;
  threw : bool;
  afterHandler : t;
  later : option (BlockManager.Async unit)
}.

Inductive Position := AtStart | AtEnd.

(** [focusBlock(block, position)] on the block at [j]. *)
Definition focusBlock (j : nat) (position : Position)
    (p : list BlockManager.Element) (f : option (nat * option nat))
  : option (nat * option nat) :=
  match p !! j with
  | None => f
  | Some e =>
      match BlockManager.textContent e with
      | None => f
      | Some txt =>
          Some (j, match position with
                   | AtEnd => if String.eqb txt "" then None
                              else Some (String.length txt)
                   | AtStart => None
                   end)
      end
  end.

Definition setManager (s : BlockManager.t) (st : t) : t :=
  mk (BlockMenu.mkApp (BlockMenu.menu (app st)) s) (focus st).

Definition unhandled (st : t) : Result := mkResult false false st None.

Section Methods.
Variable host : Host.

Definition handleKeydown (fuel : nat) (e : Event) (st : t) : Result :=
  let s := BlockMenu.manager (app st) in
  match BlockManager.page s !! block e with
  | None => unhandled st
  | Some el =>
      match BlockManager.blocks s !! BlockManager.blockId el with
      | None => unhandled st
      | Some _ =>
          let k := BlockManager.blockId el in
          let empty := String.eqb (targetText e) "" in
          let isAtEnd := Nat.eqb (focusOffset e) (String.length (targetText e)) in
          match key e with
          | Slash =>
              if empty
              then mkResult true false
                     (mk (BlockMenu.mkApp (BlockMenu.show (block e) (BlockMenu.menu (app st))) s)
                         (focus st)) None
              else unhandled st
          | Enter =>
              if negb (shiftKey e) && (isAtEnd || empty)
              then
                (* the promise of [createBlock] is handed to [focusBlock],
                   which calls [querySelector] on it *)
                mkResult true true st
                  (Some (let* _ := BlockManager.createBlock host "paragraph" None
                                     (Some (BlockManager.ElementRef (block e))) ∅ in
                         ret tt))
              else unhandled st
          | Backspace =>
              if empty then
                match block e with
                | O => mkResult true false st None
                | S j =>
                    let removed := fst <$> BlockManager.querySelector k (BlockManager.page s) in
                    let s' := BlockManager.deleteBlock_begin k s in
                    let f' := match removed with
                              | Some r =>
                                  if decide (r = j) then focus st
                                  else focusBlock (if decide (r < j) then j - 1 else j)
                                         AtEnd (BlockManager.page s') (focus st)
                              | None => focusBlock j AtEnd (BlockManager.page s') (focus st)
                              end in
                    mkResult true false
                      (mk (BlockMenu.mkApp (BlockMenu.menu (app st)) s') f')
                      (Some (let* _ := BlockManager.viaData
                                         (DataManager.deleteBlock fuel k) in ret tt))
                end
              else unhandled st
          | ArrowUp =>
              if Nat.eqb (focusOffset e) 0 then
                mkResult true false
                  (match block e with
                   | O => st
                   | S j => mk (app st) (focusBlock j AtEnd (BlockManager.page s) (focus st))
                   end) None
              else unhandled st
          | ArrowDown =>
              if isAtEnd then
                mkResult true false
                  (mk (app st) (focusBlock (S (block e)) AtStart (BlockManager.page s) (focus st)))
                  None
              else unhandled st
          | Space =>
              let r := BlockManager.checkMarkdownShortcut host (block e) s in
              mkResult (BlockManager.defaultPrevented r) false
                (setManager (BlockManager.afterHandler r) st) (BlockManager.later r)
          | Other => unhandled st
          end
      end
  end.

(** The state once the part that was not awaited has settled. *)
Definition settle (r : Result) : option (Completion unit * t) :=
  match later r with
  | None => Some (Normal tt, afterHandler r)
  | Some k =>
      match k (BlockMenu.manager (app (afterHandler r))) with
      | None => None
      | Some (c, s') => Some (c, setManager s' (afterHandler r))
      end
  end.

(** Enter in the block at [i] while the menu may be open.  The event
    reaches the listener of [#pageContent], which is [handleKeydown], and
    then, bubbling, the listener of [document], which is the menu's; what
    the first throws does not stop the second.  Each listener runs its
    call to the first [await]: [createBlock] has read the page id and the
    order when the menu's listener starts.  The rest of the two calls
    runs later, in the order of their requests to the store: the request
    of [createBlock] is served first, and the transaction of the menu's
    call waits for it. *)
Definition enterInMenu (items : list string) (shift : bool) (i : nat)
    (text : string) (offset : nat) (st : t) : option (Completion unit * BlockMenu.App) :=
  let r := handleKeydown 0 (mkEvent Enter shift i text offset) st in
  let a0 := app (afterHandler r) in
  let created :=
    match later r with
    | Some _ =>
        BlockManager.createBlock_begin (Some (BlockManager.ElementRef i)) (BlockMenu.manager a0)
    | None => None
    end in
  let (a1, rest) := BlockMenu.enter_begin host items a0 in
  match created with
  | Some (pageId, order) =>
      match BlockManager.createBlock_resume host pageId order "paragraph" None
              (Some (BlockManager.ElementRef i)) ∅ (BlockMenu.manager a1) with
      | None => None
      | Some (_, s2) => rest (BlockMenu.mkApp (BlockMenu.menu a1) s2)
      end
  | None => rest a1
  end.

End Methods.

End Keyboard.

(** ** Editor: inline formatting *)

Module Editor.

(** The children of a [.block-content] element. *)
Inductive Node :=
| Text (data : string)
| Wrapper (tagName : string) (text : string)
| Anchor (href text target rel : string).

(** A boundary point: in the [i]-th child at an offset, or in the element
    itself before its [k]-th child. *)
Inductive Boundary :=
| InChild (i : nat) (offset : nat)
| InParent (k : nat).

Record t := mk {
  childNodes : list Node;
  selection : option Boundary   (* the start of range 0; [None]: no range *)
}.

(** The longest prefix of [s] without [stop], and the rest. *)
Fixpoint span (stop : ascii) (s : string) : string * string :=
  match s with
  | EmptyString => (EmptyString, EmptyString)
  | String c s' =>
      if Ascii.eqb c stop then (EmptyString, s)
      else let (a, b) := span stop s' in (String c a, b)
  end.

Fixpoint stripPrefix (p s : string) : option string :=
  match p, s with
  | EmptyString, _ => Some s
  | String a p', String b s' => if Ascii.eqb a b then stripPrefix p' s' else None
  | String _ _, EmptyString => None
  end.

(** [d([^c]+)d$] matched at the start of [s]: the group. *)
Definition wrapHere (d : string) (c : ascii) (s : string) : option string :=
  match stripPrefix d s with
  | Some r =>
      let (body, tail) := span c r in
      if negb (String.eqb body "") && String.eqb tail d then Some body else None
  | None => None
  end.

(** [\[([^\]]+)\]\(([^)]+)\)$] matched at the start of [s]: the groups. *)
Definition linkHere (s : string) : option (string * string) :=
  match stripPrefix "[" s with
  | Some r =>
      let (txt, tail) := span "]" r in
      if String.eqb txt "" then None
      else
        match stripPrefix "](" tail with
        | Some r' =>
            let (url, tail') := span ")" r' in
            if negb (String.eqb url "") && String.eqb tail' ")" then Some (txt, url)
            else None
        | None => None
        end
  | None => None
  end.

Inductive Pattern :=
| Wrap (d : string) (c : ascii) (wrapper : string)
| Link.

(** The [patterns] array of [checkInlineMarkdown]. *)
Definition patterns : list Pattern :=
  [ Wrap "**" "*" "strong"; Wrap "__" "_" "strong";
    Wrap "*" "*" "em"; Wrap "_" "_" "em";
    Wrap "~~" "~" "s"; Wrap "`" "`" "code"; Link ].

(** The match of a pattern at the start of [s]: groups 1 and 2. *)
Definition here (p : Pattern) (s : string) : option (string * string) :=
  match p with
  | Wrap d c _ => (λ g, (g, EmptyString)) <$> wrapHere d c s
  | Link => linkHere s
  end.

(** [s.match(regex)]: the leftmost match; [match[0]] is the rest of [s]
    from where it starts, as every pattern ends in [$]. *)
Fixpoint exec (p : Pattern) (s : string) : option (string * (string * string)) :=
  match here p s with
  | Some g => Some (s, g)
  | None =>
      match s with
      | EmptyString => None
      | String _ s' => exec p s'
      end
  end.

(** [text.substring(a, b)] *)
Definition substring (a b : nat) (s : string) : string :=
  String.substring a (b - a) s.

(** The text node at [i] gets [before ++ after] and is split at the
    boundary by [insertNode]; the new node lies between the halves. *)
Definition splice (i : nat) (before : string) (n : Node) (after : string)
    (l : list Node) : list Node :=
  take i l ++ [Text before; n; Text after] ++ drop (S i) l.

Section Methods.
Variable host : Host.

Definition sanitizeUrl (url : Js.value) : string :=
  match url with
  | Js.Str s =>
      if Js.falsy url then ""
      else
        let trimmed := Js.trim s in
        match URL_protocol host trimmed with
        | Some protocol =>
            if String.eqb protocol "http:" || String.eqb protocol "https:"
            then trimmed else ""
        | None => ""
        end
  | _ => ""
  end.

(** The body of the loop over the patterns, for the text node at [i] with
    the cursor at [cursorPos]; the result is [e.defaultPrevented] and the
    editor. *)
Fixpoint tryPatterns (ps : list Pattern) (ed : t) (i : nat) (text : string)
    (cursorPos : nat) : bool * t :=
  match ps with
  | [] => (false, ed)
  | p :: ps' =>
      let textBefore := substring 0 cursorPos text in
      match exec p textBefore with
      | Some (whole, (g1, g2)) =>
          let beforeMatch := substring 0 (cursorPos - String.length whole) text in
          let afterMatch := substring cursorPos (String.length text) text in
          match p with
          | Link =>
              let sanitizedUrl := sanitizeUrl (Js.Str g2) in
              if String.eqb sanitizedUrl "" then (true, ed)
              else
                (true,
                 mk (splice i beforeMatch
                       (Anchor sanitizedUrl g1 "_blank" "noopener noreferrer")
                       afterMatch (childNodes ed))
                    (Some (InParent (i + 2))))
          | Wrap _ _ wrapper =>
              (true,
               mk (splice i beforeMatch (Wrapper wrapper g1) afterMatch (childNodes ed))
                  (Some (InParent (i + 2))))
          end
      | None => tryPatterns ps' ed i text cursorPos
      end
  end.

Definition checkInlineMarkdown (ed : t) : bool * t :=
  match selection ed with
  | Some (InChild i cursorPos) =>
      match childNodes ed !! i with
      | Some (Text text) => tryPatterns patterns ed i text cursorPos
      | _ => (false, ed)
      end
  | _ => (false, ed)
  end.

End Methods.

End Editor.

(** ** AppState: the application state and what it persists *)

Module AppState.

(** The values the state holds: [undefined], [null], booleans, strings and
    arrays of strings (page ids). *)
Inductive Val :=
| VUndefined
| VNull
| VBool (b : bool)
| VStr (s : string)
| VArr (l : list string).

(** [JSON.stringify] on an array of strings, and [JSON.parse] followed by
    [Array.isArray]: [None] when the text does not parse or its value is
    no array.  Stored arrays hold strings. *)
Record Json := mkJson {
  stringify : list string → string;
  parseArray : string → option (list string)
}.

(** [localStorage]: its items, and whether access is denied, in which
    case every call throws. *)
Record Storage := mkStorage {
  items : gmap string string;
  denied : bool
}.

(** The state object, the listeners, [localStorage], and the calls made
    to listeners so far.  A callback is known by its identity; what it
    does is outside the state. *)
Record t := mk {
  state : gmap string Val;                 (* this.state *)
  listeners : gmap string (list nat);      (* this.listeners *)
  calls : list (nat * Val * Val);          (* cb(value, oldValue), oldest first *)
  storage : Storage
}.

Definition isUpper (c : ascii) : bool :=
  let n := nat_of_ascii c in Nat.leb 65 n && Nat.leb n 90.

Definition toLower (c : ascii) : ascii :=
  if isUpper c then ascii_of_nat (nat_of_ascii c + 32) else c.

(** [key.replace(/([A-Z])/g, '-$1').toLowerCase()], on ASCII keys. *)
Fixpoint kebab (key : string) : string :=
  match key with
  | EmptyString => EmptyString
  | String c key' =>
      if isUpper c then String "-" (String (toLower c) (kebab key'))
      else String (toLower c) (kebab key')
  end.

(** [callbacks.splice(callbacks.indexOf(x), 1)] when [x] is found. *)
Fixpoint removeFirst {A} `{EqDecision A} (x : A) (l : list A) : list A :=
  match l with
  | [] => []
  | y :: l' => if decide (y = x) then l' else y :: removeFirst x l'
  end.

(** The keys that [set] persists. *)
Definition persisted : list string := ["theme"; "recentPages"; "favorites"].

Section Methods.
Variable json : Json.

Definition safeGetItem (key defaultValue : string) (st : Storage) : string :=
  if denied st then defaultValue
  else match items st !! key with
       | Some v => if String.eqb v "" then defaultValue else v
       | None => defaultValue
       end.

Definition safeParseJSON (key : string) (defaultValue : list string) (st : Storage)
  : list string :=
  if denied st then defaultValue
  else match items st !! key with
       | Some item =>
           if String.eqb item "" then defaultValue
           else default defaultValue (parseArray json item)
       | None => defaultValue
       end.

(** The constructor, on the [localStorage] it finds. *)
Definition new (st : Storage) : t :=
  mk (<["theme" := VStr (safeGetItem "planner-theme" "dark" st)]>
       (<["sidebarCollapsed" := VBool false]>
       (<["currentWorkspace" := VNull]>
       (<["currentPage" := VNull]>
       (<["selectedBlocks" := VArr []]>
       (<["commandPaletteOpen" := VBool false]>
       (<["searchQuery" := VStr ""]>
       (<["recentPages" := VArr (safeParseJSON "planner-recent" [] st)]>
       (<["favorites" := VArr (safeParseJSON "planner-favorites" [] st)]> ∅)))))))))
     ∅ [] st.

(** [get(key)]: the whole state, copied, when the key is falsy. *)
Definition get (key : option string) (a : t) : Val + gmap string Val :=
  match key with
  | Some k => if String.eqb k "" then inr (state a)
              else inl (default VUndefined (state a !! k))
  | None => inr (state a)
  end.

(** [typeof value === 'string' ? value : JSON.stringify(value)], as
    [setItem] stores it. *)
Definition stored (value : Val) : string :=
  match value with
  | VStr s => s
  | VArr l => stringify json l
  | VBool true => "true"
  | VBool false => "false"
  | VNull => "null"
  | VUndefined => "undefined"
  end.

Definition set (key : string) (value : Val) : Task t unit :=
  λ a,
    let oldValue := default VUndefined (state a !! key) in
    let called := (λ cb, (cb, value, oldValue)) <$> default [] (listeners a !! key) in
    let a1 := mk (<[key := value]> (state a)) (listeners a) (calls a ++ called)
                (storage a) in
    if bool_decide (key ∈ persisted) then
      if denied (storage a) then Some (Throw "SecurityError", a1)
      else
        let storageKey := String.append "planner-" (kebab key) in
        Some (Normal tt,
              mk (state a1) (listeners a1) (calls a1)
                (mkStorage (<[storageKey := stored value]> (items (storage a))) false))
    else Some (Normal tt, a1).

Definition subscribe (key : string) (callback : nat) (a : t) : t :=
  mk (state a)
    (<[key := default [] (listeners a !! key) ++ [callback]]> (listeners a))
    (calls a) (storage a).

(** The function that [subscribe] returns. *)
Definition unsubscribe (key : string) (callback : nat) (a : t) : t :=
  match listeners a !! key with
  | Some callbacks =>
      mk (state a) (<[key := removeFirst callback callbacks]> (listeners a))
        (calls a) (storage a)
  | None => a
  end.

Definition addRecentPage (pageId : string) : Task t unit :=
  λ a,
    match state a !! "recentPages" with
    | Some (VArr l) =>
        let recent := pageId :: filter (λ k, k ≠ pageId) l in
        set "recentPages" (VArr (take 10 recent)) a
    | _ => Some (Throw "TypeError", a)
    end.

(** [[...value]]: an array is copied, a string gives its characters, and
    anything else is not iterable. *)
Definition spreadValue (value : option Val) : option (list string) :=
  match value with
  | Some (VArr l) => Some l
  | Some (VStr s) => Some ((λ c, String c EmptyString) <$> list_ascii_of_string s)
  | _ => None
  end.

Definition toggleFavorite (pageId : string) : Task t unit :=
  λ a,
    match spreadValue (state a !! "favorites") with
    | Some favorites =>
        set "favorites"
          (VArr (if bool_decide (pageId ∈ favorites)
                 then removeFirst pageId favorites
                 else favorites ++ [pageId])) a
    | None => Some (Throw "TypeError", a)
    end.

End Methods.

End AppState.

(** ** Utils: [slugify] *)

Module Utils.

(** [toLowerCase] on a code unit below 256: the letters A-Z and the
    capital letters of Latin-1. *)
Definition toLowerCase (c : ascii) : ascii :=
  let n := nat_of_ascii c in
  if (Nat.leb 65 n && Nat.leb n 90)
     || (Nat.leb 192 n && Nat.leb n 222 && negb (Nat.eqb n 215))
  then ascii_of_nat (n + 32) else c.

(** The class [\w]. *)
Definition isWord (c : ascii) : bool :=
  let n := nat_of_ascii c in
  (Nat.leb 65 n && Nat.leb n 90) || (Nat.leb 97 n && Nat.leb n 122)
  || (Nat.leb 48 n && Nat.leb n 57) || Nat.eqb n 95.

Fixpoint mapChars (f : ascii → ascii) (s : string) : string :=
  match s with
  | EmptyString => EmptyString
  | String c s' => String (f c) (mapChars f s')
  end.

(** [s.replace(/[^...]/g, '')] for a class given by [keep]. *)
Fixpoint keepChars (keep : ascii → bool) (s : string) : string :=
  match s with
  | EmptyString => EmptyString
  | String c s' => if keep c then String c (keepChars keep s') else keepChars keep s'
  end.

(** [s.replace(/c+/g, '-')] for a class of characters: each maximal run
    becomes one hyphen.  [inRun] tells that the character before was of
    the class. *)
Fixpoint runsToHyphen (class : ascii → bool) (inRun : bool) (s : string) : string :=
  match s with
  | EmptyString => EmptyString
  | String c s' =>
      if class c then
        if inRun then runsToHyphen class true s'
        else String "-" (runsToHyphen class true s')
      else String c (runsToHyphen class false s')
  end.

Definition slugify (text : string) : string :=
  Js.trim
    (runsToHyphen (λ c, Ascii.eqb c "-") false
       (runsToHyphen Js.isWhiteSpace false
          (keepChars (λ c, isWord c || Js.isWhiteSpace c || Ascii.eqb c "-")
             (mapChars toLowerCase text)))).

End Utils.

(** ** Notions used in the statements *)

(** Every character of a string is of a class. *)
Fixpoint allChars (class : ascii → bool) (s : string) : bool :=
  match s with
  | EmptyString => true
  | String c s' => class c && allChars class s'
  end.

(** The characters of a slug: a-z, 0-9, the underscore and the hyphen. *)
Definition slugChar (c : ascii) : bool :=
  let n := nat_of_ascii c in
  (Nat.leb 97 n && Nat.leb n 122) || (Nat.leb 48 n && Nat.leb n 57)
  || Nat.eqb n 95 || Nat.eqb n 45.

(** No two hyphens stand next to each other; [afterHyphen] tells that a
    hyphen stands before the string. *)
Fixpoint noDoubleHyphen (afterHyphen : bool) (s : string) : bool :=
  match s with
  | EmptyString => true
  | String c s' =>
      if Ascii.eqb c "-" then negb afterHyphen && noDoubleHyphen true s'
      else noDoubleHyphen false s'
  end.

(** The keys of the object store are unique. *)
Definition uniqueKeys (l : list Block) : Prop := NoDup (id <$> l).

(** [c] is the id of a stored block whose [parentId] is [p]. *)
Definition childOf (l : list Block) (c p : string) : Prop :=
  ∃ b, b ∈ l ∧ id b = c ∧ parentId b = Some p.

(** [x] is a transitive descendant of [r]: its [parentId] chain leads to
    [r] through stored blocks. *)
Definition descendantOf (l : list Block) (x r : string) : Prop :=
  tc (childOf l) x r.

(** [k] is the id of a stored block of page [p]. *)
Definition inPage (p : string) (l : list Block) (k : string) : Prop :=
  ∃ b, b ∈ l ∧ pageId b = p ∧ id b = k.

(** The requests appended to the journal between two states. *)
Definition written (d d' : DataManager.t) : list DataManager.Request :=
  drop (length (DataManager.journal d)) (DataManager.journal d').

(** The store went from [d] to [d'] by deleting the keys of [log], in
    that order, and no block that is left has one of them as parent. *)
Definition deletedBy (log : list string) (d d' : DataManager.t) : Prop :=
  DataManager.journal d' = DataManager.journal d ++ (DataManager.Delete <$> log)
  ∧ DataManager.tick d' = DataManager.tick d
  ∧ DataManager.blocks d' = filter (λ b, id b ∉ log) (DataManager.blocks d)
  ∧ (∀ b p, b ∈ DataManager.blocks d' → parentId b = Some p → p ∉ log).

(** The blocks of the live collection that are siblings of a block of
    page [p] under the parent [par]. *)
Definition siblingCount (p : string) (par : option string)
    (m : gmap string Block) : nat :=
  size (filter (λ kb, pageId kb.2 = p ∧ parentId kb.2 = par) m).

(** The properties that belong to a block type, after the data model of
    the specification: [checked] for todo, [language] for code, [src] and
    [caption] for image, [url], [title], [description] and [image] for
    bookmark, [emoji] for callout. *)
Definition typeProperties (ty : string) : list string :=
  if String.eqb ty "todo" then ["checked"]
  else if String.eqb ty "code" then ["language"]
  else if String.eqb ty "image" then ["src"; "caption"]
  else if String.eqb ty "bookmark" then ["url"; "title"; "description"; "image"]
  else if String.eqb ty "callout" then ["emoji"]
  else [].

(** The properties of a block have been reset for its type: none of
    another type is left. *)
Definition propertiesReset (ty : string) (ps : gmap string PropVal) : Prop :=
  ∀ key, is_Some (ps !! key) → key ∈ typeProperties ty.

(** A sequence of [convertBlock] calls, each awaited. *)
Definition convertAll (host : Host) (calls : list (string * string))
  : BlockManager.Async unit :=
  forOf calls (λ c, BlockManager.convertBlock host c.1 c.2).

(** ** Sample data *)

Module Sample.

Fixpoint tally (n : nat) : string :=
  match n with
  | O => EmptyString
  | S n' => String "i" (tally n')
  end.

Definition isAlpha (c : ascii) : bool :=
  let n := nat_of_ascii c in
  (Nat.leb 65 n && Nat.leb n 90) || (Nat.leb 97 n && Nat.leb n 122).

Definition isSchemeChar (c : ascii) : bool :=
  let n := nat_of_ascii c in
  isAlpha c || (Nat.leb 48 n && Nat.leb n 57)
  || Nat.eqb n 43 || Nat.eqb n 45 || Nat.eqb n 46.

Definition lower (c : ascii) : ascii :=
  let n := nat_of_ascii c in
  if Nat.leb 65 n && Nat.leb n 90 then ascii_of_nat (n + 32) else c.

Fixpoint schemeRest (s : string) : option string :=
  match s with
  | EmptyString => None
  | String c s' =>
      if Ascii.eqb c ":" then Some ":"%string
      else if isSchemeChar c then String (lower c) <$> schemeRest s'
      else None
  end.

(** The protocol of a string that starts with a scheme and a colon. *)
Definition protocolOf (s : string) : option string :=
  match s with
  | EmptyString => None
  | String c s' => if isAlpha c then String (lower c) <$> schemeRest s' else None
  end.

(** A host whose [URL] constructor accepts the strings that start with a
    scheme. *)
Definition host : Host :=
  {| toISOString := λ n, String.append "2024-01-01T00:00:0" (tally n);
     generateId := λ n, String.append "lx3k-" (tally n);
     URL_protocol := protocolOf |}.

Definition block (k : string) (par : option string) (ty c : string) (o : Z) : Block :=
  {| id := k; pageId := "page"; parentId := par; type := ty; content := c;
     properties := ∅; order := o; createdAt := "2023"; updatedAt := "2023" |}.

(** A page of four blocks: [a] with child [b] and grandchild [c], and [d]. *)
Definition tree : DataManager.t :=
  DataManager.mk
    [ block "a" None "toggle" "A" 0; block "b" (Some "a") "paragraph" "B" 1;
      block "c" (Some "b") "paragraph" "C" 2; block "d" None "paragraph" "D" 3 ]
    [] 0.

(** A page of three top-level blocks. *)
Definition flat : DataManager.t :=
  DataManager.mk
    [ block "a" None "paragraph" "A" 0; block "b" None "paragraph" "B" 1;
      block "c" None "paragraph" "C" 2 ]
    [] 0.

(** A block that is its own parent. *)
Definition cyclic : DataManager.t :=
  DataManager.mk [ block "a" (Some "a") "toggle" "A" 0 ] [] 0.

(** The editor on the page [flat]. *)
Definition editing : BlockManager.t :=
  BlockManager.mk
    {[ "a" := block "a" None "paragraph" "A" 0;
       "b" := block "b" None "paragraph" "B" 1;
       "c" := block "c" None "paragraph" "C" 2 ]}
    [ BlockManager.mkElement "a" "paragraph" (Some "A");
      BlockManager.mkElement "b" "paragraph" (Some "B");
      BlockManager.mkElement "c" "paragraph" (Some "C") ]
    (Some "page") (Some flat).

Definition todoBlock : Block :=
  {| id := "a"; pageId := "page"; parentId := None; type := "todo";
     content := "buy milk"; properties := {[ "checked" := PBool true ]};
     order := 0; createdAt := "2023"; updatedAt := "2023" |}.

(** A checked to-do item. *)
Definition withTodo : BlockManager.t :=
  BlockManager.mk {[ "a" := todoBlock ]}
    [ BlockManager.mkElement "a" "todo" (Some "buy milk") ]
    (Some "page") (Some (DataManager.mk [todoBlock] [] 0)).

(** A paragraph whose text [##] has been saved, with the cursor in it. *)
Definition savedTrigger : BlockManager.t :=
  BlockManager.mk {[ "a" := block "a" None "paragraph" "##" 0 ]}
    [ BlockManager.mkElement "a" "paragraph" (Some "##") ]
    (Some "page")
    (Some (DataManager.mk [block "a" None "paragraph" "##" 0] [] 0)).

(** An empty paragraph in which [##] has been typed and not yet saved. *)
Definition typedTrigger : BlockManager.t :=
  BlockManager.mk {[ "a" := block "a" None "paragraph" "" 0 ]}
    [ BlockManager.mkElement "a" "paragraph" (Some "##") ]
    (Some "page")
    (Some (DataManager.mk [block "a" None "paragraph" "" 0] [] 0)).

(** The editor on the page [tree]. *)
Definition nested : BlockManager.t :=
  BlockManager.mk
    {[ "a" := block "a" None "toggle" "A" 0;
       "b" := block "b" (Some "a") "paragraph" "B" 1;
       "c" := block "c" (Some "b") "paragraph" "C" 2;
       "d" := block "d" None "paragraph" "D" 3 ]}
    [ BlockManager.mkElement "a" "toggle" (Some "A");
      BlockManager.mkElement "b" "paragraph" (Some "B");
      BlockManager.mkElement "c" "paragraph" (Some "C");
      BlockManager.mkElement "d" "paragraph" (Some "D") ]
    (Some "page") (Some tree).

(** A page of a paragraph with text and an empty paragraph after it. *)
Definition withEmpty : BlockManager.t :=
  BlockManager.mk
    {[ "a" := block "a" None "paragraph" "A" 0;
       "b" := block "b" None "paragraph" "" 1 ]}
    [ BlockManager.mkElement "a" "paragraph" (Some "A");
      BlockManager.mkElement "b" "paragraph" (Some "") ]
    (Some "page")
    (Some (DataManager.mk [ block "a" None "paragraph" "A" 0;
                            block "b" None "paragraph" "" 1 ] [] 0)).

(** A host [JSON] for arrays of ids that hold no semicolon: each id is
    written with a semicolon after it, between brackets. *)
Fixpoint parseIds (s acc : string) : list string :=
  match s with
  | EmptyString => []
  | String c s' =>
      if Ascii.eqb c ";" then acc :: parseIds s' EmptyString
      else parseIds s' (String.append acc (String c EmptyString))
  end.

Definition json : AppState.Json :=
  AppState.mkJson
    (λ l, String.append "[" (String.append (String.concat "" ((λ k, String.append k ";") <$> l)) "]"))
    (λ s, match s with
          | String c r => if Ascii.eqb c "[" then Some (parseIds r EmptyString) else None
          | EmptyString => None
          end).

(** A session on an empty [localStorage] with two recent pages, one
    favorite and one listener of [recentPages]. *)
Definition session : AppState.t :=
  AppState.mk
    (<["recentPages" := AppState.VArr ["p2"; "p1"]]>
       (<["favorites" := AppState.VArr ["p1"]]>
          (AppState.state (AppState.new json (AppState.mkStorage ∅ false)))))
    {[ "recentPages" := [7] ]} [] (AppState.mkStorage ∅ false).

End Sample.

(** * Properties *)

(** ** The object store *)

Section Store.
Implicit Types (l : list Block) (b r : Block) (k : string).

Lemma eqb_id k k' : String.eqb k k' = bool_decide (k = k').
Proof.
  destruct (String.eqb_spec k k'); symmetry;
    [by apply bool_decide_eq_true | by apply bool_decide_eq_false].
Qed.

Lemma findById_cons b l k :
  DataManager.findById k (b :: l) =
    if decide (id b = k) then Some b else DataManager.findById k l.
Proof.
  unfold DataManager.findById; simpl. rewrite eqb_id.
  by case_bool_decide; case_decide.
Qed.

Lemma findById_Some l k b :
  DataManager.findById k l = Some b → b ∈ l ∧ id b = k.
Proof.
  induction l as [|x l IH]; [done|]. rewrite findById_cons.
  case_decide; intros Hf.
  - injection Hf as <-. split; [left | done].
  - destruct (IH Hf). split; [by right | done].
Qed.

Lemma findById_None l k :
  DataManager.findById k l = None ↔ ∀ b, b ∈ l → id b ≠ k.
Proof.
  induction l as [|x l IH]; [split; [by inversion 2 | done]|].
  rewrite findById_cons. case_decide as Hx.
  - split; [done|]. intros H. destruct (H x); [left | done].
  - rewrite IH. split.
    + intros H b [->|Hb]%elem_of_cons; auto.
    + intros H b Hb. apply H. by right.
Qed.

Lemma findById_is_Some l k :
  is_Some (DataManager.findById k l) ↔ ∃ b, b ∈ l ∧ id b = k.
Proof.
  split.
  - intros [b Hb]. exists b. by apply findById_Some.
  - intros (b & Hb & Hk). destruct (DataManager.findById k l) eqn:E; [done|].
    rewrite findById_None in E. by destruct (E b Hb).
Qed.

Lemma findById_unique l b :
  uniqueKeys l → b ∈ l → DataManager.findById (id b) l = Some b.
Proof.
  unfold uniqueKeys. induction l as [|x l IH]; [by inversion 2|].
  rewrite fmap_cons, NoDup_cons. intros [Hx Hl] Hb. rewrite findById_cons.
  apply elem_of_cons in Hb as [->|Hb]; [by rewrite decide_True|].
  rewrite decide_False; [by apply IH|].
  intros E. apply Hx. rewrite E. by apply list_elem_of_fmap_2.
Qed.

Lemma hasKey_cons b l k :
  DataManager.hasKey k (b :: l) = bool_decide (id b = k) || DataManager.hasKey k l.
Proof. unfold DataManager.hasKey; simpl. by rewrite eqb_id. Qed.

Lemma hasKey_is_Some k l :
  DataManager.hasKey k l = true ↔ is_Some (DataManager.findById k l).
Proof.
  induction l as [|x l IH].
  - split; [done | by intros [? ?]].
  - rewrite findById_cons, hasKey_cons, orb_true_iff, IH, bool_decide_eq_true.
    case_decide; split; eauto; intros [?|?]; done.
Qed.

Lemma replaceKey_cons r x l :
  DataManager.replaceKey r (x :: l) =
    (if decide (id x = id r) then r else x) :: DataManager.replaceKey r l.
Proof.
  unfold DataManager.replaceKey. rewrite fmap_cons, eqb_id.
  by case_bool_decide; case_decide.
Qed.

Lemma findById_replaceKey r l k :
  DataManager.findById k (DataManager.replaceKey r l) =
    if decide (k = id r)
    then (if DataManager.hasKey k l then Some r else None)
    else DataManager.findById k l.
Proof.
  induction l as [|x l IH].
  - by case_decide.
  - rewrite replaceKey_cons, hasKey_cons.
    destruct (decide (id x = id r)) as [Hx|Hx];
      rewrite !findById_cons, IH; clear IH;
      repeat (case_bool_decide || case_decide || simpl); congruence.
Qed.

Lemma findById_insertByKey r l k :
  DataManager.hasKey (id r) l = false →
  DataManager.findById k (DataManager.insertByKey r l) =
    if decide (k = id r) then Some r else DataManager.findById k l.
Proof.
  induction l as [|x l IH].
  - intros _. change (DataManager.insertByKey r []) with [r].
    rewrite findById_cons. by repeat case_decide.
  - change (DataManager.insertByKey r (x :: l)) with
      (if String.ltb (id r) (id x) then r :: x :: l else x :: DataManager.insertByKey r l).
    rewrite hasKey_cons. intros [Hx Hl]%orb_false_elim.
    apply bool_decide_eq_false in Hx.
    destruct (String.ltb (id r) (id x)); rewrite !findById_cons, ?IH by done;
      repeat case_decide; congruence.
Qed.

(** Reading back what [put] wrote. *)
Lemma findById_put r l k :
  DataManager.findById k (DataManager.put r l) =
    if decide (k = id r) then Some r else DataManager.findById k l.
Proof.
  unfold DataManager.put. destruct (DataManager.hasKey (id r) l) eqn:E.
  - rewrite findById_replaceKey. case_decide; [subst; by rewrite E | done].
  - by rewrite findById_insertByKey.
Qed.

Lemma keys_put_existing r l :
  DataManager.hasKey (id r) l = true → id <$> DataManager.put r l = id <$> l.
Proof.
  intros E. unfold DataManager.put, DataManager.replaceKey. rewrite E.
  rewrite <-list_fmap_compose. apply list_fmap_ext.
  intros _ x _. simpl. rewrite eqb_id. by case_bool_decide.
Qed.


Lemma elem_of_put_existing r l b :
  DataManager.hasKey (id r) l = true →
  b ∈ DataManager.put r l ↔ (b = r ∨ (b ∈ l ∧ id b ≠ id r)).
Proof.
  intros E. unfold DataManager.put, DataManager.replaceKey. rewrite E.
  rewrite list_elem_of_fmap. split.
  - intros (x & -> & Hx). rewrite eqb_id. case_bool_decide; auto.
  - intros [->|[Hb Hne]].
    + apply hasKey_is_Some, findById_is_Some in E as (x & Hx & Hk).
      exists x. rewrite eqb_id, bool_decide_eq_true_2; auto.
    + exists b. rewrite eqb_id, bool_decide_eq_false_2; auto.
Qed.

End Store.

(** ** [DataManager.updateBlock] and [DataManager.reorderBlocks] *)

Section Reorder.
Variable host : Host.
Implicit Types (l : list Block) (b r : Block) (k : string) (d : DataManager.t).

Lemma updateBlock_found k patch d b :
  DataManager.findById k (DataManager.blocks d) = Some b →
  DataManager.updateBlock host k patch d =
    let r := withUpdatedAt (spread b patch) (toISOString host (DataManager.tick d)) in
    Some (Normal r,
          DataManager.mk (DataManager.put r (DataManager.blocks d))
            (DataManager.journal d ++ [DataManager.Put r]) (S (DataManager.tick d))).
Proof.
  intros Hb. unfold DataManager.updateBlock, DataManager.getBlock, DataManager._get, bind.
  by rewrite Hb.
Qed.

Lemma updateBlock_missing k patch d :
  DataManager.findById k (DataManager.blocks d) = None →
  DataManager.updateBlock host k patch d = Some (Throw "Block not found", d).
Proof.
  intros Hb. unfold DataManager.updateBlock, DataManager.getBlock, DataManager._get, bind.
  by rewrite Hb.
Qed.

Lemma insertByOrder_perm b l : DataManager.insertByOrder b l ≡ₚ b :: l.
Proof.
  induction l as [|x l IH]; [done|]. simpl.
  destruct (order b <=? order x)%Z; [done|]. by rewrite IH, Permutation_swap.
Qed.

Lemma sortByOrder_perm l : DataManager.sortByOrder l ≡ₚ l.
Proof.
  induction l as [|x l IH]; [done|]. simpl.
  by rewrite insertByOrder_perm, IH.
Qed.

(** The array that [getBlocks] returns holds the blocks of the page. *)
Lemma getBlocks_selects p d k :
  is_Some (DataManager.findById k
             (DataManager.sortByOrder
                (filter (λ b, DataManager.indexKey DataManager.pageIdIndex b = Some p)
                   (DataManager.blocks d))))
  ↔ inPage p (DataManager.blocks d) k.
Proof.
  rewrite findById_is_Some. unfold inPage.
  split; intros (b & Hb & Hk).
  - rewrite sortByOrder_perm in Hb. apply list_elem_of_filter in Hb as [Hp Hb].
    exists b. simpl in Hp. by injection Hp as Hp.
  - destruct Hk as [Hp Hk]. exists b. split; [|done].
    rewrite sortByOrder_perm. apply list_elem_of_filter. split; [|done].
    simpl. by rewrite Hp.
Qed.

Lemma last_occurrence (ids : list string) k :
  k ∈ ids → ∃ j, ids !! j = Some k ∧ ∀ j', j < j' → ids !! j' ≠ Some k.
Proof.
  induction ids as [|x ids IH]; [by inversion 1|].
  intros Hk. destruct (decide (k ∈ ids)) as [Hin|Hin].
  - destruct (IH Hin) as (j & Hj & Hlast). exists (S j). split; [done|].
    intros [|j'] ?; [lia|]. simpl. apply Hlast. lia.
  - apply elem_of_cons in Hk as [->|]; [|done]. exists 0. split; [done|].
    intros [|j'] ?; [lia|]. simpl. intros E. apply Hin.
    by eapply list_elem_of_lookup_2.
Qed.

(** The loop of [reorderBlocks] over an array [bs] fetched before it. *)
Lemma reorder_loop (bs : list Block) (ids : list string) :
  ∀ (i0 : nat) d,
    (∀ k, is_Some (DataManager.findById k bs) →
          is_Some (DataManager.findById k (DataManager.blocks d))) →
    ∃ d' J,
      forIndex i0 ids
        (λ i k, match DataManager.findById k bs with
                | Some block =>
                    let* _ := DataManager.updateBlock host (id block)
                                (orderPatch (Z.of_nat i)) in ret tt
                | None => ret tt
                end) d = Some (Normal tt, d')
      ∧ id <$> DataManager.blocks d' = id <$> DataManager.blocks d
      ∧ (∀ k, k ∉ ids ∨ ¬ is_Some (DataManager.findById k bs) →
              DataManager.findById k (DataManager.blocks d')
              = DataManager.findById k (DataManager.blocks d))
      ∧ (∀ j k, ids !! j = Some k → (∀ j', j < j' → ids !! j' ≠ Some k) →
                is_Some (DataManager.findById k bs) →
                ∃ b t, DataManager.findById k (DataManager.blocks d) = Some b
                       ∧ DataManager.findById k (DataManager.blocks d')
                         = Some (withUpdatedAt
                                   (spread b (orderPatch (Z.of_nat (i0 + j)))) t))
      ∧ DataManager.journal d' = DataManager.journal d ++ J
      ∧ (∀ j k, ids !! j = Some k → is_Some (DataManager.findById k bs) →
                ∃ r, DataManager.Put r ∈ J ∧ id r = k ∧ order r = Z.of_nat (i0 + j))
      ∧ (∀ q, q ∈ J → ∃ r j, q = DataManager.Put r ∧ ids !! j = Some (id r)
                              ∧ order r = Z.of_nat (i0 + j)
                              ∧ is_Some (DataManager.findById (id r) bs)).
Proof.
  induction ids as [|k0 ids IH]; intros i0 d Hsel.
  { exists d, []. repeat split; try done.
    - by rewrite app_nil_r.
    - by inversion 1. }
  simpl. unfold bind at 1.
  destruct (DataManager.findById k0 bs) as [block|] eqn:Hk0.
  - (* the id belongs to the page: its block is updated *)
    apply findById_Some in Hk0 as Hblock. destruct Hblock as [_ <-].
    destruct (Hsel (id block)) as [b0 Hb0]; [by rewrite Hk0|].
    unfold bind at 1. rewrite (updateBlock_found _ _ _ _ Hb0). simpl.
    set (r0 := withUpdatedAt (spread b0 (orderPatch (Z.of_nat i0)))
                 (toISOString host (DataManager.tick d))).
    set (d1 := DataManager.mk _ _ _).
    assert (id r0 = id block) as Hr0 by (by apply findById_Some in Hb0 as [_ ?]).
    assert (DataManager.hasKey (id r0) (DataManager.blocks d) = true) as Hhas.
    { apply hasKey_is_Some. rewrite Hr0. by rewrite Hb0. }
    destruct (IH (S i0) d1) as (d' & J & Hrun & Hkeys & Hframe & Hset & Hj & Hput & Honly).
    { intros k Hk. simpl. rewrite findById_put. case_decide; [done | by apply Hsel]. }
    exists d', (DataManager.Put r0 :: J). split; [done|].
    split; [by rewrite Hkeys; apply keys_put_existing|].
    split; [|split; [|split; [|split]]].
    + intros k Hk. rewrite Hframe.
      * simpl. rewrite findById_put, decide_False; [done|]. rewrite Hr0.
        intros ->. destruct Hk as [Hk|Hk]; [apply Hk; left | apply Hk; by rewrite Hk0].
      * destruct Hk as [Hk|Hk]; [left | by right].
        intros ?. apply Hk. by right.
    + intros [|j] k Hjk Hlast Hk.
      * injection Hjk as <-. exists b0, (toISOString host (DataManager.tick d)).
        split; [done|]. rewrite Hframe.
        -- simpl. rewrite findById_put, decide_True by done.
           by rewrite Nat.add_0_r.
        -- left. intros [j Hj']%list_elem_of_lookup_1.
           by apply (Hlast (S j)); [lia|].
      * destruct (Hset j k) as (b1 & t & Hb1 & Hb'); [done| |done|].
        { intros j' ?. apply (Hlast (S j')). lia. }
        simpl in Hb1. rewrite findById_put in Hb1.
        rewrite Nat.add_succ_r. simpl in Hb'.
        case_decide as Hkk.
        -- injection Hb1 as <-. exists b0, t. split; [by rewrite Hkk, Hr0|].
           by rewrite Hb'.
        -- exists b1, t. by split.
    + rewrite Hj. simpl. by rewrite <-app_assoc.
    + intros [|j] k Hjk Hk.
      * injection Hjk as <-. exists r0. split; [left|].
        split; [done|]. by rewrite Nat.add_0_r.
      * destruct (Hput j k) as (r & Hr & Hid & Hord); [done..|].
        exists r. split; [by right|]. split; [done|]. by rewrite Nat.add_succ_r.
    + intros q [->|Hq]%elem_of_cons.
      * exists r0, 0. split; [done|]. rewrite Hr0, Nat.add_0_r.
        split; [done|]. split; [done | by rewrite Hk0].
      * destruct (Honly q Hq) as (r & j & -> & Hin & Hord & Hs). exists r, (S j).
        split; [done|]. split; [done|]. split; [by rewrite Nat.add_succ_r | done].
  - (* the id is not one of the page: the index is skipped *)
    destruct (IH (S i0) d Hsel) as (d' & J & Hrun & Hkeys & Hframe & Hset & Hj & Hput & Honly).
    exists d', J. split; [done|]. split; [done|].
    split; [|split; [|split; [|split]]].
    + intros k Hk. apply Hframe.
      destruct Hk as [Hk|Hk]; [left | by right]. intros ?. apply Hk. by right.
    + intros [|j] k Hjk Hlast Hk.
      * injection Hjk as <-. rewrite Hk0 in Hk. by destruct Hk.
      * rewrite Nat.add_succ_r. apply Hset; [done| |done].
        intros j' ?. apply (Hlast (S j')). lia.
    + done.
    + intros [|j] k Hjk Hk.
      * injection Hjk as <-. rewrite Hk0 in Hk. by destruct Hk.
      * rewrite Nat.add_succ_r. by apply Hput.
    + intros q Hq. destruct (Honly q Hq) as (r & j & -> & Hin & Hord & Hs).
      exists r, (S j). split; [done|]. split; [done|].
      split; [by rewrite Nat.add_succ_r | done].
Qed.

Lemma reorderBlocks_unfold p ids d :
  DataManager.reorderBlocks host p ids d =
    forIndex 0 ids
      (λ i k, match DataManager.findById k
                      (DataManager.sortByOrder
                         (filter (λ b, DataManager.indexKey DataManager.pageIdIndex b = Some p)
                            (DataManager.blocks d))) with
              | Some block =>
                  let* _ := DataManager.updateBlock host (id block)
                              (orderPatch (Z.of_nat i)) in ret tt
              | None => ret tt
              end) d.
Proof. reflexivity. Qed.

Lemma written_app d d' J :
  DataManager.journal d' = DataManager.journal d ++ J → written d d' = J.
Proof. intros E. unfold written. by rewrite E, drop_app_length. Qed.

Lemma keys_is_Some l l' k :
  id <$> l' = id <$> l →
  is_Some (DataManager.findById k l') ↔ is_Some (DataManager.findById k l).
Proof.
  intros E. rewrite !findById_is_Some.
  assert (∀ m : list Block, (∃ b, b ∈ m ∧ id b = k) ↔ k ∈ id <$> m) as Hm.
  { intros m. rewrite list_elem_of_fmap. split.
    - intros (b & Hb & <-). eauto.
    - intros (b & -> & Hb). eauto. }
  by rewrite !Hm, E.
Qed.

End Reorder.

(** C4.  Given the ids of the blocks of a page, each once, [reorderBlocks]
    settles normally and leaves every listed block with its index as
    [order] and a [put] of that record in the journal; every block of the
    page has the index of its id as order, so within the page the orders
    are the indices [0 .. n-1], each used once. *)
Theorem reorderBlocks_permutation (host : Host) (p : string)
    (orderedIds : list string) (d : DataManager.t) :
  uniqueKeys (DataManager.blocks d) →
  NoDup orderedIds →
  (∀ k, k ∈ orderedIds ↔ inPage p (DataManager.blocks d) k) →
  ∃ d',
    DataManager.reorderBlocks host p orderedIds d = Some (Normal tt, d')
    ∧ (∀ i k, orderedIds !! i = Some k →
         ∃ b', DataManager.findById k (DataManager.blocks d') = Some b'
               ∧ pageId b' = p ∧ order b' = Z.of_nat i
               ∧ ∃ r, DataManager.Put r ∈ written d d' ∧ id r = k
                      ∧ order r = Z.of_nat i)
    ∧ (∀ b', b' ∈ DataManager.blocks d' → pageId b' = p →
         ∃ i, orderedIds !! i = Some (id b') ∧ order b' = Z.of_nat i)
    ∧ (∀ b1 b2, b1 ∈ DataManager.blocks d' → b2 ∈ DataManager.blocks d' →
         pageId b1 = p → pageId b2 = p → order b1 = order b2 → b1 = b2).
Proof.
  intros Huniq Hnodup Hperm. rewrite reorderBlocks_unfold.
  set (bs := DataManager.sortByOrder _).
  assert (∀ k, is_Some (DataManager.findById k bs) ↔ inPage p (DataManager.blocks d) k)
    as Hsel by (intros k; apply getBlocks_selects).
  destruct (reorder_loop host bs orderedIds 0 d)
    as (d' & J & Hrun & Hkeys & Hframe & Hset & Hj & Hput & Honly).
  { intros k (b & Hb & _ & Hk)%Hsel. apply findById_is_Some. eauto. }
  assert (uniqueKeys (DataManager.blocks d')) as Huniq'
    by (unfold uniqueKeys; by rewrite Hkeys).
  assert (∀ i k, orderedIds !! i = Some k →
            ∀ j', i < j' → orderedIds !! j' ≠ Some k) as Hlast.
  { intros i k Hi j' Hlt Hj'. pose proof (NoDup_lookup _ _ _ _ Hnodup Hi Hj'). lia. }
  assert (∀ b', b' ∈ DataManager.blocks d' → pageId b' = p →
            ∃ i, orderedIds !! i = Some (id b') ∧ order b' = Z.of_nat i) as Hall.
  { intros b' Hb' Hp.
    pose proof (findById_unique _ _ Huniq' Hb') as Hf'.
    destruct (decide (id b' ∈ orderedIds)) as [Hin|Hout].
    - apply list_elem_of_lookup_1 in Hin as [i Hi]. exists i. split; [done|].
      destruct (Hset i (id b') Hi (Hlast _ _ Hi)) as (b & t & _ & Hnew);
        [apply Hsel, Hperm; by eapply list_elem_of_lookup_2|].
      rewrite Hf' in Hnew. by injection Hnew as ->.
    - exfalso. apply Hout, Hperm. exists b'. split; [|done].
      rewrite Hframe in Hf' by (by left). by apply findById_Some in Hf' as [? _]. }
  exists d'. split; [done|]. split; [|split; [done|]].
  - intros i k Hi.
    assert (inPage p (DataManager.blocks d) k) as Hk
      by (apply Hperm; by eapply list_elem_of_lookup_2).
    destruct (Hset i k Hi (Hlast _ _ Hi)) as (b & t & Hb & Hb'); [by apply Hsel|].
    eexists. split; [exact Hb'|]. simpl. split; [|split; [done|]].
    + destruct Hk as (b0 & Hb0 & Hp0 & Hk0).
      rewrite <-Hk0, (findById_unique _ _ Huniq Hb0) in Hb. by injection Hb as <-.
    + rewrite (written_app _ _ _ Hj). apply Hput; [done | by apply Hsel].
  - intros b1 b2 H1 H2 Hp1 Hp2 Hord.
    destruct (Hall b1 H1 Hp1) as (i1 & Hi1 & Ho1).
    destruct (Hall b2 H2 Hp2) as (i2 & Hi2 & Ho2).
    assert (i1 = i2) as -> by lia.
    assert (id b1 = id b2) as Hid by congruence.
    pose proof (findById_unique _ _ Huniq' H1) as F1.
    pose proof (findById_unique _ _ Huniq' H2) as F2.
    rewrite Hid in F1. congruence.
Qed.

(** C10.  On any list of ids [reorderBlocks] settles normally.  An id
    that is not one of a block of the page is skipped: nothing is written
    for it and no record receives its index.  A block of the page that the
    list omits stays as it was, and so does every block of another page. *)
Theorem reorderBlocks_mismatch (host : Host) (p : string)
    (orderedIds : list string) (d : DataManager.t) :
  uniqueKeys (DataManager.blocks d) →
  ∃ d',
    DataManager.reorderBlocks host p orderedIds d = Some (Normal tt, d')
    ∧ (∀ i k, orderedIds !! i = Some k → ¬ inPage p (DataManager.blocks d) k →
         DataManager.findById k (DataManager.blocks d')
         = DataManager.findById k (DataManager.blocks d)
         ∧ ∀ r, DataManager.Put r ∈ written d d' →
                id r ≠ k ∧ order r ≠ Z.of_nat i)
    ∧ (∀ b, b ∈ DataManager.blocks d → pageId b = p → id b ∉ orderedIds →
         b ∈ DataManager.blocks d'
         ∧ ∀ r, DataManager.Put r ∈ written d d' → id r ≠ id b)
    ∧ (∀ b, b ∈ DataManager.blocks d → pageId b ≠ p → b ∈ DataManager.blocks d')
    ∧ (∀ q, q ∈ written d d' → ∃ r, q = DataManager.Put r).
Proof.
  intros Huniq. rewrite reorderBlocks_unfold.
  set (bs := DataManager.sortByOrder _).
  assert (∀ k, is_Some (DataManager.findById k bs) ↔ inPage p (DataManager.blocks d) k)
    as Hsel by (intros k; apply getBlocks_selects).
  destruct (reorder_loop host bs orderedIds 0 d)
    as (d' & J & Hrun & Hkeys & Hframe & Hset & Hj & Hput & Honly).
  { intros k (b & Hb & _ & Hk)%Hsel. apply findById_is_Some. eauto. }
  assert (∀ b, b ∈ DataManager.blocks d →
            id b ∉ orderedIds ∨ ¬ is_Some (DataManager.findById (id b) bs) →
            b ∈ DataManager.blocks d') as Hkeep.
  { intros b Hb Hk. pose proof (findById_unique _ _ Huniq Hb) as Hf.
    rewrite <-Hframe in Hf by done. by apply findById_Some in Hf as [? _]. }
  exists d'. rewrite (written_app _ _ _ Hj).
  split; [done|]. split; [|split; [|split]].
  - intros i k Hi Hk. split; [apply Hframe; right; by rewrite Hsel|].
    intros r (r' & j & [= <-] & Hjr & Hord & Hs)%Honly. split.
    + intros <-. by apply Hk, Hsel.
    + intros E. simpl in Hord. assert (j = i) as -> by lia.
      rewrite Hi in Hjr. injection Hjr as ->. by apply Hk, Hsel.
  - intros b Hb Hp Hout. split; [apply Hkeep; auto|].
    intros r (r' & j & [= <-] & Hjr & _)%Honly E. apply Hout. rewrite <-E.
    by eapply list_elem_of_lookup_2.
  - intros b Hb Hp. apply Hkeep; [done|]. right. rewrite Hsel.
    intros (b0 & Hb0 & Hp0 & Hk0). apply Hp.
    pose proof (findById_unique _ _ Huniq Hb0) as F0.
    pose proof (findById_unique _ _ Huniq Hb) as F. rewrite Hk0 in F0. congruence.
  - intros q (r & _ & -> & _)%Honly. eauto.
Qed.

(** ** [DataManager.deleteBlock] *)

Section Delete.
Implicit Types (l : list Block) (b : Block) (k x : string) (d : DataManager.t).

Lemma childOf_subseteq l l' c p : l' ⊆ l → childOf l' c p → childOf l c p.
Proof. intros Hsub (b & Hb & Hc & Hp). exists b. auto. Qed.

Lemma descendantOf_subseteq l l' x r :
  l' ⊆ l → descendantOf l' x r → descendantOf l x r.
Proof.
  intros Hsub. unfold descendantOf.
  apply (tc_congruence (λ y, y)). intros ? ?. by apply childOf_subseteq.
Qed.

(** The last step of a chain. *)
Lemma tc_last {A} (R : relation A) (x z : A) : tc R x z → ∃ y, rtc R x y ∧ R y z.
Proof.
  induction 1 as [x z Hxz|x y z Hxy _ (y' & Hyy' & Hy'z)].
  - exists x. by split.
  - exists y'. split; [by eapply rtc_l | done].
Qed.

Lemma wf_tc_irrefl {A} (R : relation A) : well_founded R → ∀ x : A, ¬ tc R x x.
Proof.
  intros Hwf x. induction (Hwf x) as [x _ IH]. intros Hx.
  destruct (tc_last _ _ _ Hx) as (y & Hxy & Hyx).
  apply (IH y Hyx). eapply tc_rtc_r; [by apply tc_once | done].
Qed.

Lemma filter_all {A} (P : A → Prop) `{∀ a, Decision (P a)} (l : list A) :
  (∀ a, a ∈ l → P a) → filter P l = l.
Proof.
  induction l as [|a l IH]; [done|]. intros Hall.
  rewrite filter_cons_True by (apply Hall; left).
  f_equal. apply IH. intros ? ?. apply Hall. by right.
Qed.

Lemma uniqueKeys_filter (P : Block → Prop) `{∀ b, Decision (P b)} l :
  uniqueKeys l → uniqueKeys (filter P l).
Proof.
  unfold uniqueKeys. induction l as [|a l IH]; [done|].
  rewrite fmap_cons, NoDup_cons. intros [Ha Hl]. rewrite filter_cons.
  case_decide; [|by apply IH]. rewrite fmap_cons, NoDup_cons. split; [|by apply IH].
  intros (b & Hid & Hb%list_elem_of_filter)%list_elem_of_fmap.
  apply Ha. rewrite Hid. apply list_elem_of_fmap_2. by destruct Hb.
Qed.

Lemma deletedBy_nil d : deletedBy [] d d.
Proof.
  unfold deletedBy. rewrite fmap_nil, app_nil_r.
  repeat split; [|by intros ? ? _ _ ?%not_elem_of_nil].
  symmetry. apply filter_all. intros ? _. apply not_elem_of_nil.
Qed.

Lemma deletedBy_app log1 log2 d d1 d2 :
  deletedBy log1 d d1 → deletedBy log2 d1 d2 → deletedBy (log1 ++ log2) d d2.
Proof.
  intros (Hj1 & Ht1 & Hb1 & Hp1) (Hj2 & Ht2 & Hb2 & Hp2). unfold deletedBy.
  split; [by rewrite Hj2, Hj1, fmap_app, app_assoc|].
  split; [congruence|].
  split.
  - rewrite Hb2, Hb1, list_filter_filter. apply list_filter_iff.
    intros b. rewrite elem_of_app. tauto.
  - intros b p Hb Hp. rewrite elem_of_app. intros [Hin|Hin].
    + apply (Hp1 b p); [|done|done].
      rewrite Hb2 in Hb. by apply list_elem_of_filter in Hb as [_ ?].
    + by apply (Hp2 b p).
Qed.

Lemma deletedBy_subseteq log d d' :
  deletedBy log d d' → DataManager.blocks d' ⊆ DataManager.blocks d.
Proof. intros (_ & _ & -> & _). apply list_subseteq_filter. Qed.

(** [_delete] of a key that no stored block has as parent. *)
Lemma _delete_deletedBy k d :
  (∀ b, b ∈ DataManager.blocks d → parentId b ≠ Some k) →
  ∃ d', DataManager._delete k d = Some (Normal true, d') ∧ deletedBy [k] d d'.
Proof.
  intros Hk. eexists. split; [reflexivity|]. unfold deletedBy. simpl.
  repeat split.
  - unfold DataManager.removeKey. apply list_filter_iff. intros b.
    rewrite list_elem_of_singleton. tauto.
  - intros b p [_ Hb]%list_elem_of_filter Hp ->%list_elem_of_singleton.
    by apply (Hk b).
Qed.

Lemma deleteBlock_S n k d :
  DataManager.deleteBlock (S n) k d =
    match forOf (filter (λ b, DataManager.indexKey DataManager.parentIdIndex b = Some k)
                   (DataManager.blocks d))
            (λ child, let* _ := DataManager.deleteBlock n (id child) in ret tt) d with
    | Some (Normal _, d1) => DataManager._delete k d1
    | Some (Throw e, d1) => Some (Throw e, d1)
    | None => None
    end.
Proof. reflexivity. Qed.

(** The loop over the children, given what a call with fuel [n] does. *)
Lemma children_post n k l0
  (Hn : ∀ c d res d', DataManager.deleteBlock n c d = Some (res, d') →
          ∃ log, res = Normal true ∧ deletedBy (log ++ [c]) d d'
                 ∧ ∀ x, x ∈ log → descendantOf (DataManager.blocks d) x c) :
  ∀ (cs : list Block) d res d',
    DataManager.blocks d ⊆ l0 →
    (∀ c, c ∈ cs → childOf l0 (id c) k) →
    forOf cs (λ child, let* _ := DataManager.deleteBlock n (id child) in ret tt) d
      = Some (res, d') →
    ∃ log, res = Normal tt ∧ deletedBy log d d'
           ∧ (∀ x, x ∈ log → descendantOf l0 x k)
           ∧ (∀ c, c ∈ cs → id c ∈ log).
Proof.
  induction cs as [|c cs IH]; intros d res d' Hsub Hcs Hrun.
  - injection Hrun as <- <-. exists []. split; [done|].
    split; [apply deletedBy_nil|]. split; [by intros ? ?%not_elem_of_nil|].
    by intros ? ?%not_elem_of_nil.
  - simpl in Hrun. unfold bind at 1 2 in Hrun.
    destruct (DataManager.deleteBlock n (id c) d) as [[res1 d1]|] eqn:Hc; [|done].
    destruct (Hn _ _ _ _ Hc) as (log1 & -> & Hdel1 & Hdesc1).
    simpl in Hrun.
    destruct (IH d1 res d') as (log2 & -> & Hdel2 & Hdesc2 & Hin2); [..|done|].
    { etrans; [by eapply deletedBy_subseteq | done]. }
    { intros ? ?. apply Hcs. by right. }
    exists ((log1 ++ [id c]) ++ log2). split; [done|].
    split; [by eapply deletedBy_app|]. split.
    + intros x. rewrite !elem_of_app, list_elem_of_singleton.
      intros [[Hx| ->]|Hx]; [| |by apply Hdesc2].
      * eapply tc_r; [|apply Hcs; left].
        eapply descendantOf_subseteq; [exact Hsub | by apply Hdesc1].
      * apply tc_once, Hcs. left.
    + intros c' [->|Hc']%elem_of_cons; rewrite !elem_of_app, ?list_elem_of_singleton; auto.
Qed.

(** What a call to [deleteBlock] that settles has done. *)
Lemma deleteBlock_post n :
  ∀ k d res d', DataManager.deleteBlock n k d = Some (res, d') →
    ∃ log, res = Normal true ∧ deletedBy (log ++ [k]) d d'
           ∧ ∀ x, x ∈ log → descendantOf (DataManager.blocks d) x k.
Proof.
  induction n as [|n IH]; intros k d res d' Hrun; [done|].
  rewrite deleteBlock_S in Hrun.
  destruct (forOf _ _ d) as [[res1 d1]|] eqn:Hloop; [|done].
  eapply (children_post n k (DataManager.blocks d) IH) in Hloop
    as (log & -> & Hdel & Hdesc & Hin); [|done|].
  2:{ intros c [Hp Hc]%list_elem_of_filter. by exists c. }
  destruct (_delete_deletedBy k d1) as (d2 & Hdelete & Hdel2).
  { intros b Hb Hp. pose proof Hdel as (_ & _ & Hblocks & _).
    rewrite Hblocks in Hb. apply list_elem_of_filter in Hb as [Hout Hb].
    apply Hout, Hin. by apply list_elem_of_filter. }
  rewrite Hdelete in Hrun. injection Hrun as <- <-.
  exists log. split; [done|]. split; [by eapply deletedBy_app | done].
Qed.

(** On a store whose parent relation is well-founded every call settles,
    with the same result for any fuel above a bound. *)
Lemma deleteBlock_settles l0 :
  well_founded (childOf l0) →
  ∀ k d, DataManager.blocks d ⊆ l0 →
    ∃ n r, ∀ m, n ≤ m → DataManager.deleteBlock m k d = Some r.
Proof.
  intros Hwf k. induction (Hwf k) as [k _ IH]. intros d Hsub.
  assert (∀ (cs : list Block) d1,
            DataManager.blocks d1 ⊆ l0 → (∀ c, c ∈ cs → childOf l0 (id c) k) →
            ∃ n r, ∀ m, n ≤ m →
              forOf cs (λ child, let* _ := DataManager.deleteBlock m (id child) in ret tt) d1
              = Some (Normal tt, r)) as Hloop.
  { induction cs as [|c cs IHcs]; intros d1 Hsub1 Hcs.
    - exists 0, d1. by intros.
    - destruct (IH (id c) (Hcs c ltac:(left)) d1 Hsub1) as (n1 & [res1 d2] & Hn1).
      destruct (deleteBlock_post _ _ _ _ _ (Hn1 n1 (le_n _))) as (log & -> & Hdel & _).
      destruct (IHcs d2) as (n2 & r & Hn2).
      { etrans; [by eapply deletedBy_subseteq | done]. }
      { intros ? ?. apply Hcs. by right. }
      exists (n1 `max` n2), r. intros m Hm. simpl. unfold bind at 1 2.
      rewrite Hn1 by lia. simpl. apply Hn2. lia. }
  destruct (Hloop (filter (λ b, DataManager.indexKey DataManager.parentIdIndex b = Some k)
                     (DataManager.blocks d)) d Hsub) as (n & d1 & Hn).
  { intros c [Hp Hc]%list_elem_of_filter. exists c. auto. }
  eexists (S n), _. intros [|m] Hm; [lia|].
  rewrite deleteBlock_S, Hn by lia. reflexivity.
Qed.

(** A block whose chain of parents leads into the deleted keys is one of
    them. *)
Lemma deletedBy_closed log d d' :
  deletedBy log d d' →
  ∀ x r, descendantOf (DataManager.blocks d) x r → r ∈ log → x ∈ log.
Proof.
  intros (_ & _ & Hblocks & Hparents) x r Hx.
  induction Hx as [x r (b & Hb & <- & Hp)|x y r (b & Hb & <- & Hp) _ IH]; intros Hr.
  - destruct (decide (id b ∈ log)) as [|Hout]; [done|].
    destruct (Hparents b r); [|done..]. rewrite Hblocks. by apply list_elem_of_filter.
  - destruct (decide (id b ∈ log)) as [|Hout]; [done|].
    destruct (Hparents b y); [|done|by apply IH].
    rewrite Hblocks. by apply list_elem_of_filter.
Qed.

End Delete.

(** C2.  On a store whose parent relation is well-founded, [deleteBlock]
    of a stored block with descendants [ds] settles (for every fuel above
    a bound).  It deletes the descendants, then the block: the journal
    grows by deletes of descendants followed by the delete of the block.
    The records removed from the store are those of the block and of its
    [length ds] descendants, and no block that is left has a deleted
    block as parent or a parent chain to the deleted block. *)
Theorem deleteBlock_cascade (k : string) (d : DataManager.t) (ds : list string) :
  well_founded (childOf (DataManager.blocks d)) →
  uniqueKeys (DataManager.blocks d) →
  is_Some (DataManager.findById k (DataManager.blocks d)) →
  NoDup ds →
  (∀ x, x ∈ ds ↔ descendantOf (DataManager.blocks d) x k) →
  ∃ fuel d' log,
    (∀ n, fuel ≤ n → DataManager.deleteBlock n k d = Some (Normal true, d'))
    ∧ written d d' = (DataManager.Delete <$> log) ++ [DataManager.Delete k]
    ∧ (∀ x, x ∈ log ↔ x ∈ ds)
    ∧ DataManager.blocks d' = filter (λ b, id b ∉ k :: ds) (DataManager.blocks d)
    ∧ length (DataManager.blocks d) = length (DataManager.blocks d') + (length ds + 1)
    ∧ (∀ b p, b ∈ DataManager.blocks d' → parentId b = Some p → p ∉ k :: ds)
    ∧ (∀ x, ¬ descendantOf (DataManager.blocks d') x k).
Proof.
  intros Hwf Huniq Hk Hnodup Hds.
  destruct (deleteBlock_settles _ Hwf k d (reflexivity _)) as (fuel & [res d'] & Hrun).
  destruct (deleteBlock_post _ _ _ _ _ (Hrun fuel (le_n _))) as (log & -> & Hdel & Hdesc).
  assert (k ∉ ds) as Hkds by (intros Hin%Hds; by eapply wf_tc_irrefl).
  assert (∀ x, x ∈ log ++ [k] ↔ x ∈ k :: ds) as Hset.
  { intros x. rewrite elem_of_app, list_elem_of_singleton, elem_of_cons. split.
    - intros [Hx| ->]; [right; by apply Hds, Hdesc | by left].
    - intros [->|Hx]; [by right|].
      apply Hds in Hx.
      assert (x ∈ log ++ [k]) as Hc.
      { eapply deletedBy_closed; [done..|]. apply elem_of_app. right. left. }
      apply elem_of_app in Hc as [Hc|Hc%list_elem_of_singleton]; [by left|].
      subst x. by apply wf_tc_irrefl in Hx. }
  pose proof Hdel as (Hj & _ & Hblocks & Hparents).
  assert (DataManager.blocks d' = filter (λ b, id b ∉ k :: ds) (DataManager.blocks d))
    as Hblocks'.
  { rewrite Hblocks. apply list_filter_iff. intros b. by rewrite Hset. }
  exists fuel, d', log. split; [done|].
  split; [by rewrite (written_app _ _ _ Hj), fmap_app|].
  split.
  { intros x. split; [by intros ?%Hdesc%Hds|]. intros Hx.
    assert (x ∈ log ++ [k]) as Hin by (apply Hset; by right).
    apply elem_of_app in Hin as [|Hin]; [done|].
    apply list_elem_of_singleton in Hin as ->. done. }
  split; [done|]. split; [|split].
  - (* the removed records are those of [k :: ds] *)
    rewrite Hblocks'.
    rewrite <-(Permutation_length (filter_app_complement
                 (λ b, id b ∉ k :: ds) (DataManager.blocks d))).
    rewrite length_app. f_equal.
    change (length ds + 1) with (length ds + length [k]).
    rewrite <-length_app, <-(length_fmap id). apply Permutation_length.
    apply NoDup_Permutation.
    + by apply uniqueKeys_filter.
    + apply NoDup_app. split; [done|]. split; [|apply NoDup_singleton].
      intros x Hx ->%list_elem_of_singleton. done.
    + intros x. rewrite list_elem_of_fmap, elem_of_app, list_elem_of_singleton. split.
      * intros (b & -> & [Hin _]%list_elem_of_filter).
        destruct (decide (id b ∈ k :: ds)) as [[->|]%elem_of_cons|]; tauto.
      * intros Hx.
        assert (∃ b, b ∈ DataManager.blocks d ∧ id b = x) as (b & Hb & <-).
        { destruct Hx as [Hx| ->]; [|by apply findById_is_Some].
          apply Hds in Hx. unfold descendantOf in Hx.
          destruct Hx as [? ? (b & ? & ? & _)|? ? ? (b & ? & ? & _) _]; eauto. }
        exists b. split; [done|]. apply list_elem_of_filter. split; [|done].
        intros Hout. apply Hout. rewrite elem_of_cons. tauto.
  - intros b p Hb Hp. rewrite <-Hset. by eapply Hparents.
  - intros x (y & _ & b & Hb & _ & Hp)%tc_last.
    apply (Hparents b k Hb Hp). rewrite elem_of_app, list_elem_of_singleton. by right.
Qed.

(** ** [BlockManager.updateBlock] and [BlockManager.createBlock] *)

Section Manager.
Variable host : Host.
Implicit Types (s : BlockManager.t) (b r : Block) (k : string) (d : DataManager.t).

Lemma viaData_None {A} (m : DataManager.Async A) s :
  BlockManager.data s = None → BlockManager.viaData m s = Some (Normal None, s).
Proof. intros E. unfold BlockManager.viaData. by rewrite E. Qed.

Lemma viaData_Some {A} (m : DataManager.Async A) s d :
  BlockManager.data s = Some d →
  BlockManager.viaData m s =
    match m d with
    | None => None
    | Some (Normal a, d') => Some (Normal (Some a), BlockManager.setData (Some d') s)
    | Some (Throw e, d') => Some (Throw e, BlockManager.setData (Some d') s)
    end.
Proof. intros E. unfold BlockManager.viaData. by rewrite E. Qed.

Lemma createBlock_fresh (init : DataManager.BlockInit) d :
  DataManager.hasKey (generateId host (DataManager.tick d)) (DataManager.blocks d) = false →
  let b := {| id := generateId host (DataManager.tick d);
              pageId := DataManager.i_pageId init;
              parentId := match DataManager.i_parentId init with
                          | Some p => if String.eqb p "" then None else Some p
                          | None => None
                          end;
              type := Js.strOr (DataManager.i_type init) "paragraph";
              content := Js.strOr (DataManager.i_content init) "";
              properties := default ∅ (DataManager.i_properties init);
              order := Js.numOr0 (DataManager.i_order init);
              createdAt := toISOString host (S (DataManager.tick d));
              updatedAt := toISOString host (S (S (DataManager.tick d))) |} in
  DataManager.createBlock host init d =
    Some (Normal b,
          DataManager.mk (DataManager.insertByKey b (DataManager.blocks d))
            (DataManager.journal d ++ [DataManager.Add b]) (S (S (S (DataManager.tick d))))).
Proof.
  intros Hfresh. unfold DataManager.createBlock, DataManager.newId, DataManager.newDate,
    DataManager._add, bind. simpl. by rewrite Hfresh.
Qed.

(** A collection of top-level blocks of the open page stays one when a
    block is created: [createBlock] gives no parent to the new block. *)
Lemma createBlock_keeps_top_level ty (c : option string)
    (afterBlock : option BlockManager.Ref) (options : gmap string PropVal) s p d :
  BlockManager.currentPage s = Some p → p ≠ "" →
  BlockManager.data s = Some d →
  DataManager.hasKey (generateId host (DataManager.tick d)) (DataManager.blocks d) = false →
  (∀ k b0, BlockManager.blocks s !! k = Some b0 → pageId b0 = p ∧ parentId b0 = None) →
  ∃ res s',
    BlockManager.createBlock host ty c afterBlock options s = Some (Normal res, s')
    ∧ ∀ k b0, BlockManager.blocks s' !! k = Some b0 → pageId b0 = p ∧ parentId b0 = None.
Proof.
  intros Hp Hne Hd Hfresh Hflat.
  unfold BlockManager.createBlock. rewrite Hp.
  destruct (String.eqb_spec p "") as [|_]; [done|].
  unfold bind. rewrite (viaData_Some _ _ d) by done.
  rewrite createBlock_fresh by done. cbv zeta.
  eexists _, _. split; [reflexivity|].
  intros k b0. cbn [BlockManager.blocks BlockManager.setPage BlockManager.setBlocks
                    BlockManager.setData].
  destruct (decide (generateId host (DataManager.tick d) = k)) as [<-|Hk].
  - rewrite lookup_insert_eq. by intros [= <-].
  - rewrite lookup_insert_ne by done. apply Hflat.
Qed.

End Manager.

(** C6.  [updateBlock] on an id that the live collection does not hold
    settles normally and leaves the whole state as it was.  On a known id
    whose record is stored, it settles normally, the record of the
    collection becomes its merge with the patch, and the stored record
    becomes its merge with the patch with [updatedAt] read from the clock;
    this is the record a later [get] of the id returns, unless the patch
    names another id. *)
Theorem updateBlock_unknown_noop_known_merge (host : Host) (k : string)
    (patch : Patch) (s : BlockManager.t) :
  (BlockManager.blocks s !! k = None →
     BlockManager.updateBlock host k patch s = Some (Normal tt, s))
  ∧ (∀ b d r,
       BlockManager.blocks s !! k = Some b →
       BlockManager.data s = Some d →
       DataManager.findById k (DataManager.blocks d) = Some r →
       let r' := withUpdatedAt (spread r patch) (toISOString host (DataManager.tick d)) in
       BlockManager.updateBlock host k patch s =
         Some (Normal tt,
               BlockManager.mk (<[k := spread b patch]> (BlockManager.blocks s))
                 (BlockManager.page s) (BlockManager.currentPage s)
                 (Some (DataManager.mk (DataManager.put r' (DataManager.blocks d))
                          (DataManager.journal d ++ [DataManager.Put r'])
                          (S (DataManager.tick d)))))
       ∧ updatedAt r' = toISOString host (DataManager.tick d)
       ∧ (p_id patch = None →
            DataManager.findById k (DataManager.put r' (DataManager.blocks d)) = Some r')).
Proof.
  split.
  - intros Hk. unfold BlockManager.updateBlock. by rewrite Hk.
  - intros b d r Hb Hd Hr r'. split; [|split; [done|]].
    + unfold BlockManager.updateBlock. rewrite Hb. unfold bind.
      rewrite (viaData_Some _ _ d) by done.
      by rewrite (updateBlock_found host _ _ _ _ Hr).
    + intros Hid. rewrite findById_put, decide_True; [done|].
      apply findById_Some in Hr as [_ Hr]. subst r'. simpl. by rewrite Hid.
Qed.

(** C5, as amended.  With a page open, a data layer and a fresh
    identifier, [createBlock] adds one record to the store and to the live
    collection and returns its element.  The order of the record is the
    size of the live collection when no reference is given: every block
    the collection holds counts, whatever its parent.  When a reference is
    given, the order is the order of the reference block plus one if the
    reference names a block of the collection, and 0 if it does not. *)
Theorem createBlock_order (host : Host) (ty : string) (c : option string)
    (afterBlock : option BlockManager.Ref) (options : gmap string PropVal)
    (s : BlockManager.t) (p : string) (d : DataManager.t) :
  BlockManager.currentPage s = Some p →
  p ≠ "" →
  BlockManager.data s = Some d →
  DataManager.hasKey (generateId host (DataManager.tick d)) (DataManager.blocks d) = false →
  ∃ b s' d',
    BlockManager.createBlock host ty c afterBlock options s
      = Some (Normal (Some (BlockManager.renderBlock b)), s')
    ∧ id b = generateId host (DataManager.tick d)
    ∧ pageId b = p ∧ parentId b = None
    ∧ BlockManager.data s' = Some d'
    ∧ DataManager.findById (id b) (DataManager.blocks d') = Some b
    ∧ written d d' = [DataManager.Add b]
    ∧ BlockManager.blocks s' = <[id b := b]> (BlockManager.blocks s)
    ∧ (BlockManager.refTruthy afterBlock = false →
         order b = Z.of_nat (size (BlockManager.blocks s)))
    ∧ (∀ r k ref,
         afterBlock = Some r → BlockManager.refTruthy afterBlock = true →
         BlockManager.refKey (BlockManager.page s) r = Some k →
         BlockManager.blocks s !! k = Some ref →
         order b = (order ref + 1)%Z)
    ∧ (∀ r,
         afterBlock = Some r → BlockManager.refTruthy afterBlock = true →
         (∀ k, BlockManager.refKey (BlockManager.page s) r = Some k →
               BlockManager.blocks s !! k = None) →
         order b = 0%Z).
Proof.
  intros Hp Hne Hd Hfresh.
  unfold BlockManager.createBlock. rewrite Hp.
  destruct (String.eqb_spec p "") as [|_]; [done|].
  unfold bind. rewrite (viaData_Some _ _ d) by done.
  rewrite createBlock_fresh by done. cbv zeta.
  set (b := mkBlock _ _ _ _ _ _ _ _ _).
  assert (DataManager.findById (id b) (DataManager.insertByKey b (DataManager.blocks d))
          = Some b) as Hfind.
  { rewrite findById_insertByKey by done. by rewrite decide_True. }
  eexists b, _, _. split; [reflexivity|].
  split; [done|]. split; [done|]. split; [done|]. split; [done|].
  split; [exact Hfind|].
  split; [by apply written_app|].
  split; [done|].
  change (order b) with (BlockManager.createOrder s afterBlock).
  split; [|split].
  - intros Hno. unfold BlockManager.createOrder. by rewrite Hno.
  - intros r k ref -> Hyes Hk Href. unfold BlockManager.createOrder.
    by rewrite Hyes, Hk, Href.
  - intros r -> Hyes Hnone. unfold BlockManager.createOrder. rewrite Hyes.
    destruct (BlockManager.refKey (BlockManager.page s) r) as [k|] eqn:Hk; [|done].
    by rewrite (Hnone k).
Qed.

(** C5, the claim as worded.  On a page with nested blocks the order
    given without a reference is not the number of siblings of the new
    block: the collection holds four blocks, two of them top-level as the
    new block is, and the order is 4. *)
Lemma createBlock_order_counts_nested_blocks :
  ∃ b s',
    BlockManager.createBlock Sample.host "paragraph" None None ∅ Sample.nested
      = Some (Normal (Some (BlockManager.renderBlock b)), s')
    ∧ parentId b = None
    ∧ order b = 4%Z
    ∧ siblingCount "page" None (BlockManager.blocks Sample.nested) = 2.
Proof.
  unfold BlockManager.createBlock.
  change (BlockManager.currentPage Sample.nested) with (Some "page").
  change (String.eqb "page" "") with false. cbv iota.
  unfold bind. rewrite (viaData_Some _ _ Sample.tree) by reflexivity.
  rewrite createBlock_fresh by reflexivity. cbv zeta.
  eexists _, _. split; [reflexivity|]. split; [reflexivity|].
  split; vm_compute; reflexivity.
Qed.

(** ** [BlockManager.convertBlock] *)

Section Convert.
Variable host : Host.
Implicit Types (s : BlockManager.t) (b r : Block) (k : string) (d : DataManager.t).

Lemma withType_same b : withType b (type b) = b.
Proof. by destruct b. Qed.

Lemma withUpdatedAt_same r : withUpdatedAt (withType r (type r)) (updatedAt r) = r.
Proof. by destruct r. Qed.

(** One call keeps a block of the collection, and its stored record, up
    to the type (and the time stamp of the stored record). *)
Lemma convertBlock_frame k b (ro : option Block) k1 ty1 s :
  (∃ ty, BlockManager.blocks s !! k = Some (withType b ty)) →
  (∀ r, ro = Some r →
     ∃ d ty t, BlockManager.data s = Some d
               ∧ DataManager.findById k (DataManager.blocks d)
                 = Some (withUpdatedAt (withType r ty) t)) →
  ∃ res s',
    BlockManager.convertBlock host k1 ty1 s = Some (res, s')
    ∧ (∃ ty, BlockManager.blocks s' !! k = Some (withType b ty))
    ∧ (∀ r, ro = Some r →
         ∃ d ty t, BlockManager.data s' = Some d
                   ∧ DataManager.findById k (DataManager.blocks d)
                     = Some (withUpdatedAt (withType r ty) t)).
Proof.
  intros [ty Hmem] Hsto.
  unfold BlockManager.convertBlock, BlockManager.convertBlock_begin.
  destruct (BlockManager.blocks s !! k1) as [b1|] eqn:Hb1; [|by eauto 6].
  destruct (BlockManager.querySelector k1 (BlockManager.page s)) as [[i e]|]; [|by eauto 6].
  assert (∃ ty', <[k1:=withType b1 ty1]> (BlockManager.blocks s) !! k
                 = Some (withType b ty')) as Hmem'.
  { destruct (decide (k1 = k)) as [->|Hne].
    - rewrite lookup_insert_eq. rewrite Hmem in Hb1. injection Hb1 as <-. by exists ty1.
    - rewrite lookup_insert_ne by done. eauto. }
  unfold BlockManager.convertBlock_resume, bind, BlockManager.viaData. simpl.
  destruct (BlockManager.data s) as [d|] eqn:Hd.
  2:{ eexists _, _. split; [reflexivity|]. split; [done|].
      intros r Hr. destruct (Hsto r Hr) as (? & ? & ? & [=] & _). }
  destruct (DataManager.findById k1 (DataManager.blocks d)) as [r1|] eqn:Hr1.
  - rewrite (updateBlock_found host _ _ _ _ Hr1). simpl.
    eexists _, _. split; [reflexivity|]. split; [done|]. simpl.
    intros r Hr. destruct (Hsto r Hr) as (d0 & ty0 & t0 & [= <-] & Hfind).
    apply findById_Some in Hr1 as Hid. destruct Hid as [_ Hid].
    destruct (decide (k1 = k)) as [->|Hne].
    + eexists _, _, _. split; [reflexivity|]. simpl. rewrite findById_put.
      simpl. rewrite decide_True by done. rewrite Hfind in Hr1. injection Hr1 as <-.
      reflexivity.
    + eexists _, _, _. split; [reflexivity|]. simpl. rewrite findById_put.
      simpl. rewrite decide_False by congruence. exact Hfind.
  - rewrite (updateBlock_missing host _ _ _ Hr1). simpl.
    eexists _, _. split; [reflexivity|]. split; [done|]. simpl.
    intros r Hr. destruct (Hsto r Hr) as (d0 & ty0 & t0 & [= <-] & Hfind). eauto.
Qed.

(** A call on a block that is rendered and stored. *)
Lemma convertBlock_effect k ty s b i e :
  BlockManager.blocks s !! k = Some b →
  BlockManager.querySelector k (BlockManager.page s) = Some (i, e) →
  (∀ d, BlockManager.data s = Some d →
        is_Some (DataManager.findById k (DataManager.blocks d))) →
  ∃ s',
    BlockManager.convertBlock host k ty s = Some (Normal tt, s')
    ∧ BlockManager.blocks s' = <[k := withType b ty]> (BlockManager.blocks s)
    ∧ BlockManager.page s'
      = <[i := BlockManager.renderBlock (withType b ty)]> (BlockManager.page s)
    ∧ (∀ d r, BlockManager.data s = Some d →
              DataManager.findById k (DataManager.blocks d) = Some r →
              ∃ d', BlockManager.data s' = Some d'
                    ∧ DataManager.findById k (DataManager.blocks d')
                      = Some (withUpdatedAt (withType r ty)
                                (toISOString host (DataManager.tick d)))
                    ∧ written d d'
                      = [DataManager.Put (withUpdatedAt (withType r ty)
                                            (toISOString host (DataManager.tick d)))]).
Proof.
  intros Hb Hq Hstored.
  unfold BlockManager.convertBlock, BlockManager.convertBlock_begin. rewrite Hb, Hq.
  unfold BlockManager.convertBlock_resume, bind, BlockManager.viaData. simpl.
  destruct (BlockManager.data s) as [d|] eqn:Hd.
  - destruct (Hstored d eq_refl) as [r Hr].
    rewrite (updateBlock_found host _ _ _ _ Hr). simpl.
    eexists. split; [reflexivity|]. split; [done|]. split; [done|].
    intros d0 r0 [= <-] Hr0. rewrite Hr in Hr0. injection Hr0 as <-.
    eexists. split; [reflexivity|]. simpl. split.
    + rewrite findById_put, decide_True; [done|].
      apply findById_Some in Hr as [_ Hr]. by simpl.
    + by apply written_app.
  - eexists. split; [reflexivity|]. split; [done|]. split; [done|]. by intros.
Qed.

End Convert.

(** C3, as amended.  After any sequence of [convertBlock] calls, whether
    each call settles normally or throws, a block of the live collection
    is the block it was with at most its type replaced: its id, page,
    order, content and also its properties are as before; its stored
    record is as before up to the type and [updatedAt].  A single call on
    a block that is rendered and stored settles normally, replaces the type
    by the new one in the collection and in the store, and renders the
    block again. *)
Theorem convertBlock_replaces_type_only (host : Host) (calls : list (string * string))
    (k : string) (s : BlockManager.t) (b : Block) :
  BlockManager.blocks s !! k = Some b →
  (∃ res s',
     convertAll host calls s = Some (res, s')
     ∧ (∃ ty, BlockManager.blocks s' !! k = Some (withType b ty))
     ∧ (∀ d r, BlockManager.data s = Some d →
               DataManager.findById k (DataManager.blocks d) = Some r →
               ∃ d' ty t, BlockManager.data s' = Some d'
                          ∧ DataManager.findById k (DataManager.blocks d')
                            = Some (withUpdatedAt (withType r ty) t)))
  ∧ (∀ ty i e,
       BlockManager.querySelector k (BlockManager.page s) = Some (i, e) →
       (∀ d, BlockManager.data s = Some d →
             is_Some (DataManager.findById k (DataManager.blocks d))) →
       ∃ s',
         BlockManager.convertBlock host k ty s = Some (Normal tt, s')
         ∧ BlockManager.blocks s' !! k = Some (withType b ty)
         ∧ BlockManager.page s' !! i = Some (BlockManager.renderBlock (withType b ty))
         ∧ (∀ d r, BlockManager.data s = Some d →
                   DataManager.findById k (DataManager.blocks d) = Some r →
                   ∃ d', BlockManager.data s' = Some d'
                         ∧ DataManager.findById k (DataManager.blocks d')
                           = Some (withUpdatedAt (withType r ty)
                                     (toISOString host (DataManager.tick d))))).
Proof.
  intros Hb. split.
  - set (ro := match BlockManager.data s with
               | Some d => DataManager.findById k (DataManager.blocks d)
               | None => None
               end).
    assert (∃ res s',
              convertAll host calls s = Some (res, s')
              ∧ (∃ ty, BlockManager.blocks s' !! k = Some (withType b ty))
              ∧ (∀ r, ro = Some r →
                   ∃ d ty t, BlockManager.data s' = Some d
                             ∧ DataManager.findById k (DataManager.blocks d)
                               = Some (withUpdatedAt (withType r ty) t))) as Hrun.
    { assert (∃ ty, BlockManager.blocks s !! k = Some (withType b ty)) as Hmem
        by (exists (type b); by rewrite withType_same).
      assert (∀ r, ro = Some r →
                ∃ d ty t, BlockManager.data s = Some d
                          ∧ DataManager.findById k (DataManager.blocks d)
                            = Some (withUpdatedAt (withType r ty) t)) as Hsto.
      { intros r Hr. subst ro. destruct (BlockManager.data s) as [d|]; [|done].
        exists d, (type r), (updatedAt r). by rewrite withUpdatedAt_same. }
      clearbody ro. clear Hb. revert s Hmem Hsto.
      induction calls as [|[k1 ty1] calls IH]; intros s Hmem Hsto.
      - exists (Normal tt), s. by split.
      - destruct (convertBlock_frame host k b ro k1 ty1 s Hmem Hsto)
          as (res1 & s1 & Hrun1 & Hmem1 & Hsto1).
        unfold convertAll. simpl. unfold bind at 1. rewrite Hrun1.
        destruct res1 as [[]|err]; [by apply IH | eauto 6]. }
    destruct Hrun as (res & s' & Hrun & Hmem & Hsto).
    exists res, s'. split; [done|]. split; [done|].
    intros d r Hd Hr. apply Hsto. subst ro. by rewrite Hd.
  - intros ty i e Hq Hstored.
    destruct (convertBlock_effect host k ty s b i e Hb Hq Hstored)
      as (s' & Hrun & Hblocks & Hpage & Hsto).
    exists s'. split; [done|]. split; [by rewrite Hblocks, lookup_insert_eq|].
    split.
    + rewrite Hpage. apply list_lookup_insert_eq.
      unfold BlockManager.querySelector in Hq.
      apply list_find_Some in Hq as (Hi & _). by eapply lookup_lt_Some.
    + intros d r Hd Hr. destruct (Hsto d r Hd Hr) as (d' & ? & ? & _). eauto.
Qed.

(** C3, as stated, fails: converting a checked to-do item to a code block
    settles normally and leaves [checked] among the properties of the code
    block; the properties are not reset for the new type. *)
Lemma convertBlock_keeps_stale_properties :
  ∃ s' b',
    BlockManager.convertBlock Sample.host "a" "code" Sample.withTodo
      = Some (Normal tt, s')
    ∧ BlockManager.blocks s' !! "a" = Some b'
    ∧ type b' = "code"
    ∧ properties b' !! "checked" = Some (PBool true)
    ∧ ¬ propertiesReset "code" (properties b').
Proof.
  eexists _, _. split; [vm_compute; reflexivity|].
  split; [vm_compute; reflexivity|].
  split; [reflexivity|]. split; [reflexivity|].
  intros Hreset.
  assert (is_Some (properties (withType Sample.todoBlock "code") !! "checked")) as Hc
    by (by eexists).
  apply Hreset in Hc. vm_compute in Hc.
  apply list_elem_of_singleton in Hc. discriminate.
Qed.

(** ** [BlockManager.checkMarkdownShortcut] *)

Section Shortcut.
Variable host : Host.
Implicit Types (s : BlockManager.t) (b : Block) (k : string).

Lemma insert_alter_same {A} (f : A → A) (x : A) (l : list A) (i : nat) :
  <[i := x]> (alter f i l) = <[i := x]> l.
Proof.
  revert i. induction l as [|a l IH]; intros [|i]; simpl; try done.
  by rewrite IH.
Qed.

(** A space after a trigger, in a block that is rendered and stored:
    the block of the collection gets the type of the trigger, no block is
    added, and once the call to [convertBlock] has settled the element
    shows the content of the record. *)
Lemma checkMarkdownShortcut_renders_record i s block text trigger ty b :
  BlockManager.page s !! i = Some block →
  BlockManager.textContent block = Some text →
  find (λ e, String.eqb text e.1) BlockManager.shortcuts = Some (trigger, ty) →
  BlockManager.blocks s !! BlockManager.blockId block = Some b →
  BlockManager.querySelector (BlockManager.blockId block) (BlockManager.page s)
    = Some (i, block) →
  (∀ d, BlockManager.data s = Some d →
        is_Some (DataManager.findById (BlockManager.blockId block) (DataManager.blocks d))) →
  let r := BlockManager.checkMarkdownShortcut host i s in
  BlockManager.defaultPrevented r = true
  ∧ ∃ s', BlockManager.settle r = Some (Normal tt, s')
          ∧ BlockManager.blocks s'
            = <[BlockManager.blockId block := withType b ty]> (BlockManager.blocks s)
          ∧ BlockManager.page s'
            = <[i := BlockManager.renderBlock (withType b ty)]> (BlockManager.page s).
Proof.
  intros Hi Htext Hfind Hb Hq Hstored.
  unfold BlockManager.checkMarkdownShortcut. rewrite Hi, Htext, Hfind.
  unfold BlockManager.convertBlock_begin. rewrite Hb, Hq. simpl.
  split; [done|].
  unfold BlockManager.settle. simpl.
  unfold BlockManager.convertBlock_resume, bind, BlockManager.viaData. simpl.
  destruct (BlockManager.data s) as [d|] eqn:Hd.
  - destruct (Hstored d eq_refl) as [r0 Hr0].
    rewrite (updateBlock_found host _ _ _ _ Hr0). simpl.
    eexists. split; [reflexivity|]. split; [done|]. simpl.
    apply insert_alter_same.
  - eexists. split; [reflexivity|]. split; [done|]. simpl.
    apply insert_alter_same.
Qed.

End Shortcut.

(** C7, at the failing input: a paragraph whose text [##] has been saved
    to its record.  The space converts the block to [heading2] in place,
    and the element rendered for it still shows [##]: the trigger is
    cleared in the element that is replaced, not in the record. *)
Theorem checkMarkdownShortcut_saved_trigger_stays :
  let r := BlockManager.checkMarkdownShortcut Sample.host 0 Sample.savedTrigger in
  BlockManager.defaultPrevented r = true
  ∧ ∃ s' b',
      BlockManager.settle r = Some (Normal tt, s')
      ∧ BlockManager.page s' = [BlockManager.mkElement "a" "heading2" (Some "##")]
      ∧ BlockManager.blocks s' !! "a" = Some b'
      ∧ type b' = "heading2" ∧ content b' = "##"
      ∧ size (BlockManager.blocks s') = 1.
Proof.
  split; [reflexivity|]. eexists _, _. split; [vm_compute; reflexivity|].
  split; [reflexivity|]. split; [vm_compute; reflexivity|].
  split; [reflexivity|]. split; [reflexivity|]. vm_compute. reflexivity.
Qed.

(** The same keys in an empty paragraph, before the text is saved: the
    block becomes a [heading2] with no text. *)
Example checkMarkdownShortcut_typed_trigger_cleared :
  let r := BlockManager.checkMarkdownShortcut Sample.host 0 Sample.typedTrigger in
  BlockManager.defaultPrevented r = true
  ∧ ∃ s' b',
      BlockManager.settle r = Some (Normal tt, s')
      ∧ BlockManager.page s' = [BlockManager.mkElement "a" "heading2" (Some "")]
      ∧ BlockManager.blocks s' !! "a" = Some b'
      ∧ type b' = "heading2" ∧ content b' = ""
      ∧ size (BlockManager.blocks s') = 1.
Proof.
  split; [reflexivity|]. eexists _, _. split; [vm_compute; reflexivity|].
  split; [reflexivity|]. split; [vm_compute; reflexivity|].
  split; [reflexivity|]. split; [reflexivity|]. vm_compute. reflexivity.
Qed.

(** ** [sanitizeUrl] *)

#[local] Arguments Js.startsWith : simpl never.
#[local] Arguments Js.trim : simpl never.

Section Sanitize.
Implicit Types (s p r : string) (c : ascii).

Lemma prefix_append p s : Js.startsWith s p = true → ∃ r, s = String.append p r.
Proof.
  revert s. induction p as [|a p IH]; intros s Hp.
  - by exists s.
  - destruct s as [|b s]; [done|]. simpl in Hp.
    apply andb_true_iff in Hp as [->%Ascii.eqb_eq Hp].
    destruct (IH s Hp) as [r ->]. by exists r.
Qed.

Lemma append_String c p r :
  String.append (String c p) r = String c (String.append p r).
Proof. reflexivity. Qed.

Lemma append_Empty r : String.append EmptyString r = r.
Proof. reflexivity. Qed.

Lemma trimStart_cons c s :
  Js.isWhiteSpace c = false → Js.trimStart (String c s) = String c s.
Proof. intros Hc. simpl. by rewrite Hc. Qed.

Lemma trimEnd_cons c s :
  Js.isWhiteSpace c = false → Js.trimEnd (String c s) = String c (Js.trimEnd s).
Proof. intros Hc. simpl. rewrite Hc. by destruct (Js.trimEnd s). Qed.

(** Trimming keeps a prefix [data:image/]. *)
Lemma trim_data_image s :
  Js.startsWith s "data:image/" = true →
  ∃ r, Js.trim s = String.append "data:image/" r.
Proof.
  intros [r ->]%prefix_append. exists (Js.trimEnd r).
  unfold Js.trim. rewrite !append_String, !append_Empty.
  rewrite trimStart_cons by reflexivity.
  by rewrite !trimEnd_cons by reflexivity.
Qed.

Lemma eqb_protocol p q : String.eqb p q = true → p = q.
Proof. by intros ?%String.eqb_eq. Qed.

End Sanitize.

(** C1, as amended.  On a host whose [URL] constructor does not report
    the protocol [http:] or [https:] for a string that starts with
    [data:image/]: [Editor.sanitizeUrl] is [BlockManager.sanitizeUrl]
    without data URIs; a string whose trimmed form parses with protocol
    [http:] or [https:] is answered by its trimmed form; a string whose
    trimmed form starts with [data:image/] is answered with [allowDataUri]
    by its trimmed form, which is not empty, and without [allowDataUri] by
    the empty string; any other value, a value that is not a string
    included, is answered by the empty string.  The test for a data URI is
    made after trimming, as the test of the protocol is. *)
Theorem sanitizeUrl_contract (host : Host) (url : Js.value) (allowDataUri : bool) :
  (∀ t, Js.startsWith t "data:image/" = true →
        URL_protocol host t ≠ Some "http:" ∧ URL_protocol host t ≠ Some "https:") →
  Editor.sanitizeUrl host url = BlockManager.sanitizeUrl host url false
  ∧ (∀ s, url = Js.Str s →
          URL_protocol host (Js.trim s) = Some "http:"
          ∨ URL_protocol host (Js.trim s) = Some "https:" →
          BlockManager.sanitizeUrl host url allowDataUri = Js.trim s)
  ∧ (∀ s, url = Js.Str s → Js.startsWith (Js.trim s) "data:image/" = true →
          BlockManager.sanitizeUrl host url true = Js.trim s
          ∧ Js.trim s ≠ ""
          ∧ BlockManager.sanitizeUrl host url false = "")
  ∧ ((∀ s, url = Js.Str s →
           URL_protocol host (Js.trim s) ≠ Some "http:"
           ∧ URL_protocol host (Js.trim s) ≠ Some "https:"
           ∧ (allowDataUri = false ∨ Js.startsWith (Js.trim s) "data:image/" = false)) →
     BlockManager.sanitizeUrl host url allowDataUri = "").
Proof.
  intros Hdata.
  assert (∀ s, URL_protocol host (Js.trim s) ≠ Some "http:" →
               URL_protocol host (Js.trim s) ≠ Some "https:" →
               BlockManager.sanitizeUrl host (Js.Str s) false = "") as Hreject.
  { intros s H1 H2. simpl. destruct (String.eqb s ""); [done|].
    destruct (URL_protocol host (Js.trim s)) as [p|]; [|done].
    destruct (String.eqb p "http:") eqn:E1; [apply eqb_protocol in E1; congruence|].
    destruct (String.eqb p "https:") eqn:E2; [apply eqb_protocol in E2; congruence|].
    done. }
  split; [by destruct url|]. split; [|split].
  - intros s -> Hsafe. simpl. destruct (String.eqb_spec s "") as [->|_]; [reflexivity|].
    destruct (allowDataUri && Js.startsWith (Js.trim s) "data:image/"); [done|].
    by destruct Hsafe as [-> | ->].
  - intros s -> Ht.
    assert (Js.trim s ≠ "") as Hne by (intros E; by rewrite E in Ht).
    split; [|split; [done|]].
    + simpl. destruct (String.eqb_spec s "") as [->|_]; [done|]. by rewrite Ht.
    + destruct (Hdata _ Ht). by apply Hreject.
  - destruct url as [| | | |s|]; try done. intros Hother.
    destruct (Hother s eq_refl) as (H1 & H2 & Hno).
    rewrite <-(Hreject s H1 H2). simpl. destruct (String.eqb s ""); [done|].
    destruct Hno as [-> | ->]; [done|]. by rewrite andb_false_r.
Qed.

(** C1, the claim as worded.  A string that does not start with
    [data:image/], because white space stands before it, and that does
    not parse with protocol [http:] or [https:], is not answered by the
    empty string in the image-capable mode: the data URI is accepted,
    trimmed. *)
Lemma sanitizeUrl_data_uri_after_space :
  Js.startsWith " data:image/png;base64,AAAA" "data:image/" = false
  ∧ URL_protocol Sample.host (Js.trim " data:image/png;base64,AAAA") ≠ Some "http:"
  ∧ URL_protocol Sample.host (Js.trim " data:image/png;base64,AAAA") ≠ Some "https:"
  ∧ BlockManager.sanitizeUrl Sample.host (Js.Str " data:image/png;base64,AAAA") true
    = "data:image/png;base64,AAAA"
  ∧ BlockManager.sanitizeUrl Sample.host (Js.Str " data:image/png;base64,AAAA") true ≠ "".
Proof. repeat split; (reflexivity || discriminate). Qed.

(** ** The keyboard of the block menu *)

Section Menu.
Variable host : Host.
Implicit Types (a : BlockMenu.App) (items : list string).

Lemma keydown_arrow items k a :
  BlockMenu.isOpen (BlockMenu.menu a) = true →
  (0 ≤ BlockMenu.selectedIndex (BlockMenu.menu a) ≤ Z.of_nat (length items) - 1)%Z →
  k = BlockMenu.ArrowUp ∨ k = BlockMenu.ArrowDown →
  ∃ a',
    BlockMenu.keydown host items k a = Some (Normal tt, a')
    ∧ BlockMenu.isOpen (BlockMenu.menu a') = true
    ∧ (0 ≤ BlockMenu.selectedIndex (BlockMenu.menu a') ≤ Z.of_nat (length items) - 1)%Z
    ∧ BlockMenu.targetBlock (BlockMenu.menu a') = BlockMenu.targetBlock (BlockMenu.menu a)
    ∧ BlockMenu.manager a' = BlockMenu.manager a.
Proof.
  intros Hopen Hsel [-> | ->]; unfold BlockMenu.keydown; rewrite Hopen; simpl;
    eexists; (split; [reflexivity|]); simpl; (split; [done|]);
    (split; [lia | done]).
Qed.

(** With one element per block id, [querySelector] on the id of an
    element of the page finds that element. *)
Lemma querySelector_own (p : list BlockManager.Element) (i : nat)
    (el : BlockManager.Element) :
  NoDup (BlockManager.blockId <$> p) → p !! i = Some el →
  BlockManager.querySelector (BlockManager.blockId el) p = Some (i, el).
Proof.
  intros Hnd Hi. apply list_find_Some. split; [done|]. split; [done|].
  intros j y Hj Hlt E.
  assert (j = i); [|lia].
  apply (NoDup_lookup _ j i (BlockManager.blockId el) Hnd).
  - by rewrite list_lookup_fmap, Hj, <-E.
  - by rewrite list_lookup_fmap, Hi.
Qed.

Lemma blockId_clearSlash (x : BlockManager.Element) :
  BlockManager.blockId (BlockMenu.clearSlash x) = BlockManager.blockId x.
Proof.
  unfold BlockMenu.clearSlash.
  destruct (BlockManager.textContent x) as [txt|]; [|done].
  by destruct (String.eqb txt "/").
Qed.

Lemma blockId_alter_clearSlash (i : nat) (p : list BlockManager.Element) :
  BlockManager.blockId <$> alter BlockMenu.clearSlash i p = BlockManager.blockId <$> p.
Proof.
  revert i. induction p as [|x p IH]; intros [|i]; simpl; try done.
  - f_equal. apply blockId_clearSlash.
  - f_equal. apply IH.
Qed.

Lemma alter_fixed {A} (f : A → A) (i : nat) (l : list A) (x : A) :
  l !! i = Some x → f x = x → alter f i l = l.
Proof.
  revert i. induction l as [|y l IH]; intros [|i] Hi Hx; simpl in *; try done.
  - injection Hi as ->. by rewrite Hx.
  - f_equal. by apply IH.
Qed.

(** [selectType] on a target that is empty, or holds the slash alone:
    the block is converted in place and the menu closes. *)
Lemma selectType_converts ty (m : BlockMenu.t) (s : BlockManager.t) (i : nat)
    (el : BlockManager.Element) (b : Block) :
  BlockMenu.targetBlock m = Some i →
  BlockManager.page s !! i = Some el →
  BlockManager.textContent el = Some "" ∨ BlockManager.textContent el = Some "/" →
  BlockManager.blockId el ≠ "" →
  BlockManager.blocks s !! BlockManager.blockId el = Some b →
  NoDup (BlockManager.blockId <$> BlockManager.page s) →
  (∀ d, BlockManager.data s = Some d →
        is_Some (DataManager.findById (BlockManager.blockId el) (DataManager.blocks d))) →
  ∃ s',
    BlockMenu.selectType host ty (BlockMenu.mkApp m s)
    = Some (Normal tt, BlockMenu.mkApp (BlockMenu.hide m) s')
    ∧ BlockManager.blocks s'
      = <[BlockManager.blockId el := withType b ty]> (BlockManager.blocks s)
    ∧ BlockManager.page s'
      = <[i := BlockManager.renderBlock (withType b ty)]> (BlockManager.page s)
    ∧ (∀ d r, BlockManager.data s = Some d →
              DataManager.findById (BlockManager.blockId el) (DataManager.blocks d) = Some r →
              ∃ d', BlockManager.data s' = Some d'
                    ∧ DataManager.findById (BlockManager.blockId el) (DataManager.blocks d')
                      = Some (withUpdatedAt (withType r ty)
                                (toISOString host (DataManager.tick d)))
                    ∧ written d d'
                      = [DataManager.Put (withUpdatedAt (withType r ty)
                                            (toISOString host (DataManager.tick d)))]).
Proof.
  intros Ht Hel Htext Hid Hb Hnd Hstored.
  set (s1 := BlockManager.setPage (alter BlockMenu.clearSlash i (BlockManager.page s)) s).
  set (el1 := BlockMenu.clearSlash el).
  assert (BlockManager.textContent el1 = Some "") as Hempty.
  { unfold el1, BlockMenu.clearSlash. destruct Htext as [E | E]; by rewrite E. }
  assert (BlockManager.blockId el1 = BlockManager.blockId el) as Hid1
    by apply blockId_clearSlash.
  assert (BlockManager.page s1 !! i = Some el1) as Hel1.
  { unfold s1. cbn [BlockManager.page BlockManager.setPage].
    by rewrite list_lookup_alter, Hel, decide_True by done. }
  destruct (convertBlock_effect host (BlockManager.blockId el) ty s1 b i el1)
    as (s' & Hrun & Hblocks & Hpage & Hdata).
  { done. }
  { rewrite <-Hid1. apply querySelector_own; [|done]. unfold s1.
    cbn [BlockManager.page BlockManager.setPage]. by rewrite blockId_alter_clearSlash. }
  { done. }
  exists s'. split; [|split; [done|split; [|done]]].
  - unfold BlockMenu.selectType, bind.
    cbn [BlockMenu.targetBlock BlockMenu.menu BlockMenu.manager]. rewrite Ht.
    fold s1. rewrite Hel1, Hid1.
    destruct (String.eqb_spec (BlockManager.blockId el) "") as [|_]; [done|].
    rewrite Hempty, bool_decide_eq_true_2 by done. cbn [negb andb].
    unfold BlockMenu.onManager. cbn [BlockMenu.manager BlockMenu.menu]. by rewrite Hrun.
  - rewrite Hpage. unfold s1. cbn [BlockManager.page BlockManager.setPage].
    apply insert_alter_same.
Qed.

(** [selectType] on a target that holds other text, or has no text part:
    a block of the picked type is created after it and the menu closes. *)
Lemma selectType_creates ty (m : BlockMenu.t) (s : BlockManager.t) (i : nat)
    (el : BlockManager.Element) (p : string) (d : DataManager.t) :
  BlockMenu.targetBlock m = Some i →
  BlockManager.page s !! i = Some el →
  BlockManager.textContent el ≠ Some "" →
  BlockManager.textContent el ≠ Some "/" →
  BlockManager.currentPage s = Some p → p ≠ "" →
  BlockManager.data s = Some d →
  DataManager.hasKey (generateId host (DataManager.tick d)) (DataManager.blocks d) = false →
  ∃ nb s' d',
    BlockMenu.selectType host ty (BlockMenu.mkApp m s)
    = Some (Normal tt, BlockMenu.mkApp (BlockMenu.hide m) s')
    ∧ id nb = generateId host (DataManager.tick d)
    ∧ pageId nb = p ∧ parentId nb = None
    ∧ type nb = Js.strOr (Some ty) "paragraph" ∧ content nb = ""
    ∧ order nb = match BlockManager.blocks s !! BlockManager.blockId el with
                 | Some b => if String.eqb (BlockManager.blockId el) "" then 0%Z
                             else (order b + 1)%Z
                 | None => 0%Z
                 end
    ∧ BlockManager.blocks s' = <[id nb := nb]> (BlockManager.blocks s)
    ∧ BlockManager.page s'
      = take (S i) (BlockManager.page s)
        ++ BlockManager.renderBlock nb :: drop (S i) (BlockManager.page s)
    ∧ BlockManager.data s' = Some d'
    ∧ DataManager.findById (id nb) (DataManager.blocks d') = Some nb
    ∧ written d d' = [DataManager.Add nb].
Proof.
  intros Ht Hel Hne1 Hne2 Hp Hpne Hd Hfresh.
  assert (BlockMenu.clearSlash el = el) as Hclear.
  { unfold BlockMenu.clearSlash.
    destruct (BlockManager.textContent el) as [txt|]; [|done].
    destruct (String.eqb_spec txt "/") as [->|]; [done|done]. }
  assert (alter BlockMenu.clearSlash i (BlockManager.page s) = BlockManager.page s) as Hpage
    by (by apply (alter_fixed _ _ _ el)).
  assert (BlockManager.setPage (BlockManager.page s) s = s) as Hs by (by destruct s).
  unfold BlockMenu.selectType. unfold bind at 1.
  cbn [BlockMenu.targetBlock BlockMenu.menu BlockMenu.manager]. rewrite Ht, Hpage, Hs, Hel.
  assert (negb (String.eqb (BlockManager.blockId el) "")
          && bool_decide (BlockManager.textContent el = Some "") = false) as ->.
  { rewrite bool_decide_eq_false_2 by done. apply andb_false_r. }
  unfold BlockMenu.onManager. cbn [BlockMenu.manager BlockMenu.menu].
  unfold bind at 1. unfold BlockManager.createBlock. rewrite Hp.
  destruct (String.eqb_spec p "") as [|_]; [done|].
  unfold bind. rewrite (viaData_Some _ _ d) by done.
  rewrite createBlock_fresh by done. cbv zeta.
  set (nb := mkBlock _ _ _ _ _ _ _ _ _).
  eexists nb, _, _. split; [reflexivity|].
  cbn [BlockManager.page BlockManager.blocks BlockManager.setPage BlockManager.setBlocks
       BlockManager.setData BlockManager.data].
  split; [done|]. split; [done|]. split; [done|]. split; [done|]. split; [done|].
  split.
  { unfold nb. cbn [order DataManager.i_order Js.numOr0].
    unfold BlockManager.createOrder. simpl. rewrite Hel.
    destruct (String.eqb (BlockManager.blockId el) "").
    - by destruct (BlockManager.blocks s !! BlockManager.blockId el).
    - done. }
  split; [done|]. split.
  { unfold BlockManager.insertElement. rewrite decide_True; [done|].
    by eapply lookup_lt_Some. }
  split; [reflexivity|]. split.
  - cbn [DataManager.blocks]. rewrite findById_insertByKey by done.
    by rewrite decide_True.
  - by apply written_app.
Qed.

Lemma convertBlock_begin_found k ty (s : BlockManager.t) (b : Block) (i : nat)
    (e : BlockManager.Element) :
  BlockManager.blocks s !! k = Some b →
  BlockManager.querySelector k (BlockManager.page s) = Some (i, e) →
  BlockManager.convertBlock_begin k ty s
  = (Some (i, withType b ty),
     BlockManager.setBlocks (<[k := withType b ty]> (BlockManager.blocks s)) s).
Proof. intros Hb Hq. unfold BlockManager.convertBlock_begin. by rewrite Hb, Hq. Qed.

(** [selectType] on an empty target, up to its [await]: the record of the
    collection has the type, and the rest of [convertBlock] is pending. *)
Lemma selectType_begin_converts ty (m : BlockMenu.t) (s : BlockManager.t) (i : nat)
    (el : BlockManager.Element) (b : Block) :
  BlockMenu.targetBlock m = Some i →
  BlockManager.page s !! i = Some el →
  BlockManager.textContent el = Some "" →
  BlockManager.blockId el ≠ "" →
  BlockManager.blocks s !! BlockManager.blockId el = Some b →
  NoDup (BlockManager.blockId <$> BlockManager.page s) →
  BlockMenu.selectType_begin host ty (BlockMenu.mkApp m s)
  = (BlockMenu.mkApp m
       (BlockManager.setBlocks
          (<[BlockManager.blockId el := withType b ty]> (BlockManager.blocks s)) s),
     let* _ := BlockMenu.onManager
                 (BlockManager.convertBlock_resume host (BlockManager.blockId el) ty i
                    (withType b ty)) in
     λ a', Some (Normal tt,
                 BlockMenu.mkApp (BlockMenu.hide (BlockMenu.menu a')) (BlockMenu.manager a'))).
Proof.
  intros Ht Hel Hempty Hid Hb Hnd.
  assert (BlockMenu.clearSlash el = el) as Hclear
    by (unfold BlockMenu.clearSlash; by rewrite Hempty).
  assert (BlockManager.setPage
            (alter BlockMenu.clearSlash i (BlockManager.page s)) s = s) as Hs.
  { rewrite (alter_fixed _ _ _ el) by done. by destruct s. }
  unfold BlockMenu.selectType_begin.
  cbn [BlockMenu.targetBlock BlockMenu.menu BlockMenu.manager]. rewrite Ht, Hs, Hel.
  destruct (String.eqb_spec (BlockManager.blockId el) "") as [|_]; [done|].
  rewrite Hempty, bool_decide_eq_true_2 by done. cbn [negb andb].
  by rewrite (convertBlock_begin_found _ _ _ b i el)
    by (done || by apply querySelector_own).
Qed.

(** [createBlock] is its part before the [await] followed by the rest. *)
Lemma createBlock_begin_resume ty (c : option string)
    (afterBlock : option BlockManager.Ref) (options : gmap string PropVal)
    (s : BlockManager.t) :
  BlockManager.createBlock host ty c afterBlock options s
  = match BlockManager.createBlock_begin afterBlock s with
    | Some (pageId, order) =>
        BlockManager.createBlock_resume host pageId order ty c afterBlock options s
    | None => Some (Normal None, s)
    end.
Proof.
  unfold BlockManager.createBlock, BlockManager.createBlock_begin.
  destruct (BlockManager.currentPage s) as [p|]; [|done].
  by destruct (String.eqb p "").
Qed.

(** [selectType] is its part before the [await] followed by the rest. *)
Lemma selectType_begin_rest ty a :
  BlockMenu.selectType host ty a
  = (BlockMenu.selectType_begin host ty a).2 (BlockMenu.selectType_begin host ty a).1.
Proof.
  unfold BlockMenu.selectType, BlockMenu.selectType_begin. unfold bind at 1.
  destruct (BlockMenu.targetBlock (BlockMenu.menu a)) as [i|]; [|done].
  set (s1 := BlockManager.setPage _ _).
  destruct (BlockManager.page s1 !! i) as [target|]; [destruct (negb _ && _)|].
  2,3: cbn [fst snd]; unfold BlockMenu.onManager, bind;
       cbn [BlockMenu.manager BlockMenu.menu]; rewrite createBlock_begin_resume;
       (destruct (BlockManager.createBlock_begin _ s1) as [[p o]|]; [|done]);
       cbn [BlockMenu.manager BlockMenu.menu];
       by destruct (BlockManager.createBlock_resume _ _ _ _ _ _ _ s1) as [[[x|x] s']|].
  unfold BlockMenu.onManager, BlockManager.convertBlock. cbn [BlockMenu.manager].
  destruct (BlockManager.convertBlock_begin _ ty s1) as [[[j bd]|] s2]; cbn [fst snd];
    [|done].
  unfold bind, BlockMenu.onManager. cbn [BlockMenu.manager BlockMenu.menu].
  by destruct (BlockManager.convertBlock_resume _ _ _ _ _ s2) as [[[x|x] s']|].
Qed.

(** The Enter key in the menu is its part before the [await] followed by
    the rest. *)
Lemma enter_begin_rest items a :
  BlockMenu.keydown host items BlockMenu.Enter a
  = (BlockMenu.enter_begin host items a).2 (BlockMenu.enter_begin host items a).1.
Proof.
  unfold BlockMenu.keydown, BlockMenu.enter_begin.
  destruct (negb _); [done|].
  destruct (BlockMenu.item items _) as [ty|]; [|done].
  apply selectType_begin_rest.
Qed.

End Menu.

(** C9.  With the menu open on a list of at least one item and the
    selected index within the list.  After any run of ArrowUp and ArrowDown
    keys the menu is open on the same target with the index within the
    list, and the block manager is as it was; ArrowDown on the last item
    and ArrowUp on the first change nothing.  Enter takes the item at the
    selected index and commits it, closing the menu: a target block that
    is empty, or holds the slash alone, gets the type of the item, in the
    collection, on the page and in the store; after a target with other
    text a block of that type is created, empty, and stored.  Escape and a
    click outside the menu close it and leave the block manager as it
    was.  This is the listener of the menu; what the listener of the page
    does with the same Enter key is the matter of
    [Keyboard.handleKeydown]. *)
Theorem blockMenu_keys (host : Host) (items : list string) (ks : list BlockMenu.Key)
    (a : BlockMenu.App) :
  0 < length items →
  BlockMenu.isOpen (BlockMenu.menu a) = true →
  (0 ≤ BlockMenu.selectedIndex (BlockMenu.menu a) ≤ Z.of_nat (length items) - 1)%Z →
  Forall (λ k, k = BlockMenu.ArrowUp ∨ k = BlockMenu.ArrowDown) ks →
  let s := BlockMenu.manager a in
  (∃ a',
     BlockMenu.keydowns host items ks a = Some (Normal tt, a')
     ∧ BlockMenu.isOpen (BlockMenu.menu a') = true
     ∧ (0 ≤ BlockMenu.selectedIndex (BlockMenu.menu a') ≤ Z.of_nat (length items) - 1)%Z
     ∧ BlockMenu.targetBlock (BlockMenu.menu a') = BlockMenu.targetBlock (BlockMenu.menu a)
     ∧ BlockMenu.manager a' = BlockMenu.manager a)
  ∧ (BlockMenu.selectedIndex (BlockMenu.menu a) = (Z.of_nat (length items) - 1)%Z →
     BlockMenu.keydown host items BlockMenu.ArrowDown a = Some (Normal tt, a))
  ∧ (BlockMenu.selectedIndex (BlockMenu.menu a) = 0%Z →
     BlockMenu.keydown host items BlockMenu.ArrowUp a = Some (Normal tt, a))
  ∧ (∃ ty,
       items !! Z.to_nat (BlockMenu.selectedIndex (BlockMenu.menu a)) = Some ty
       ∧ BlockMenu.keydown host items BlockMenu.Enter a = BlockMenu.selectType host ty a
       ∧ (∀ i el b,
            BlockMenu.targetBlock (BlockMenu.menu a) = Some i →
            BlockManager.page s !! i = Some el →
            BlockManager.textContent el = Some "" ∨ BlockManager.textContent el = Some "/" →
            BlockManager.blockId el ≠ "" →
            BlockManager.blocks s !! BlockManager.blockId el = Some b →
            NoDup (BlockManager.blockId <$> BlockManager.page s) →
            (∀ d, BlockManager.data s = Some d →
                  is_Some (DataManager.findById (BlockManager.blockId el)
                             (DataManager.blocks d))) →
            ∃ s',
              BlockMenu.keydown host items BlockMenu.Enter a
              = Some (Normal tt, BlockMenu.mkApp (BlockMenu.hide (BlockMenu.menu a)) s')
              ∧ BlockManager.blocks s'
                = <[BlockManager.blockId el := withType b ty]> (BlockManager.blocks s)
              ∧ BlockManager.page s'
                = <[i := BlockManager.renderBlock (withType b ty)]> (BlockManager.page s)
              ∧ (∀ d r, BlockManager.data s = Some d →
                   DataManager.findById (BlockManager.blockId el) (DataManager.blocks d)
                   = Some r →
                   ∃ d', BlockManager.data s' = Some d'
                         ∧ DataManager.findById (BlockManager.blockId el)
                             (DataManager.blocks d')
                           = Some (withUpdatedAt (withType r ty)
                                     (toISOString host (DataManager.tick d)))))
       ∧ (∀ i el p d,
            BlockMenu.targetBlock (BlockMenu.menu a) = Some i →
            BlockManager.page s !! i = Some el →
            BlockManager.textContent el ≠ Some "" →
            BlockManager.textContent el ≠ Some "/" →
            BlockManager.currentPage s = Some p → p ≠ "" →
            BlockManager.data s = Some d →
            DataManager.hasKey (generateId host (DataManager.tick d)) (DataManager.blocks d)
            = false →
            ∃ nb s' d',
              BlockMenu.keydown host items BlockMenu.Enter a
              = Some (Normal tt, BlockMenu.mkApp (BlockMenu.hide (BlockMenu.menu a)) s')
              ∧ pageId nb = p
              ∧ type nb = Js.strOr (Some ty) "paragraph" ∧ content nb = ""
              ∧ BlockManager.blocks s' = <[id nb := nb]> (BlockManager.blocks s)
              ∧ BlockManager.page s'
                = take (S i) (BlockManager.page s)
                  ++ BlockManager.renderBlock nb :: drop (S i) (BlockManager.page s)
              ∧ BlockManager.data s' = Some d'
              ∧ DataManager.findById (id nb) (DataManager.blocks d') = Some nb))
  ∧ (∃ a',
       BlockMenu.keydown host items BlockMenu.Escape a = Some (Normal tt, a')
       ∧ BlockMenu.click false a = a'
       ∧ BlockMenu.isOpen (BlockMenu.menu a') = false
       ∧ BlockMenu.manager a' = BlockMenu.manager a).
Proof.
  intros Hlen Hopen Hsel Hks s. split; [|split; [|split; [|split]]].
  - clear Hlen s. revert a Hopen Hsel.
    induction Hks as [|k ks Hk _ IH]; intros a Hopen Hsel.
    + exists a. by split.
    + destruct (keydown_arrow host items k a Hopen Hsel Hk)
        as (a1 & Hrun & Hopen1 & Hsel1 & Ht1 & Hm1).
      destruct (IH a1 Hopen1 Hsel1) as (a' & Hrun' & Hopen' & Hsel' & Ht' & Hm').
      exists a'. simpl. unfold bind. rewrite Hrun.
      split; [done|]. split; [done|]. split; [done|]. split; congruence.
  - intros Hlast. unfold BlockMenu.keydown. rewrite Hopen. simpl.
    rewrite Z.min_r by lia. destruct a as [[o sel t] m]. simpl in *.
    by rewrite Hlast.
  - intros Hfirst. unfold BlockMenu.keydown. rewrite Hopen. simpl.
    rewrite Z.max_r by lia. destruct a as [[o sel t] m]. simpl in *.
    by rewrite Hfirst.
  - destruct (lookup_lt_is_Some_2 items
                (Z.to_nat (BlockMenu.selectedIndex (BlockMenu.menu a)))) as [ty Hty];
      [lia|].
    assert (BlockMenu.keydown host items BlockMenu.Enter a = BlockMenu.selectType host ty a)
      as Henter.
    { unfold BlockMenu.keydown, BlockMenu.item. rewrite Hopen. simpl.
      destruct (Z.ltb_spec (BlockMenu.selectedIndex (BlockMenu.menu a)) 0); [lia|].
      by rewrite Hty. }
    exists ty. split; [done|]. split; [done|]. rewrite Henter. split.
    + intros i el b Ht Hel Htext Hid Hb Hnd Hstored.
      destruct (selectType_converts host ty (BlockMenu.menu a) s i el b)
        as (s' & Hrun & Hblocks & Hpage & Hdata); try done.
      exists s'. split; [by destruct a|]. split; [done|]. split; [done|].
      intros d r Hd Hr. destruct (Hdata d r Hd Hr) as (d' & Hd' & Hfind & _). eauto.
    + intros i el p d Ht Hel Hne1 Hne2 Hp Hpne Hd Hfresh.
      destruct (selectType_creates host ty (BlockMenu.menu a) s i el p d)
        as (nb & s' & d' & Hrun & Hnid & Hnp & _ & Hnty & Hnc & _ & Hblocks & Hpage
            & Hd' & Hfind & _); try done.
      exists nb, s', d'. split; [by destruct a|].
      repeat (split; [done|]). done.
  - eexists. unfold BlockMenu.keydown, BlockMenu.click. rewrite Hopen. simpl.
    by split.
Qed.

(** ** [Editor.checkInlineMarkdown] *)

#[local] Arguments Editor.exec : simpl never.
#[local] Arguments Editor.substring : simpl never.
#[local] Arguments String.substring : simpl nomatch.

Section Inline.
Implicit Types (s p r a b : string) (c : ascii).

Lemma append_assoc a b r :
  String.append (String.append a b) r = String.append a (String.append b r).
Proof. induction a as [|c a IH]; [done|]. by rewrite !append_String, IH. Qed.

Lemma length_append a b :
  String.length (String.append a b) = String.length a + String.length b.
Proof. induction a as [|c a IH]; [done|]. rewrite append_String. simpl. by rewrite IH. Qed.

Lemma append_last_inj a b (x y : ascii) :
  String.append a (String x EmptyString) = String.append b (String y EmptyString) →
  x = y.
Proof.
  revert b. induction a as [|c a IH]; intros [|c' b] E;
    rewrite ?append_String, ?append_Empty in E.
  - by injection E.
  - injection E as _ E. by destruct b.
  - injection E as _ E. by destruct a.
  - injection E as _ E. by apply (IH b).
Qed.

Lemma stripPrefix_Some p s r :
  Editor.stripPrefix p s = Some r → s = String.append p r.
Proof.
  revert s. induction p as [|c p IH]; intros s E.
  - simpl in E. by injection E as ->.
  - destruct s as [|c' s]; [done|]. simpl in E.
    destruct (Ascii.eqb_spec c c') as [->|]; [|done].
    by rewrite append_String, <-(IH s E).
Qed.

Lemma span_append c s a b : Editor.span c s = (a, b) → s = String.append a b.
Proof.
  revert a b. induction s as [|c' s IH]; intros a b E; simpl in E.
  - by injection E as <- <-.
  - destruct (Ascii.eqb c' c); [by injection E as <- <-|].
    destruct (Editor.span c s) as [a' b']. injection E as <- <-.
    by rewrite append_String, <-(IH a' b').
Qed.

Lemma wrapHere_whole d c s body :
  Editor.wrapHere d c s = Some body →
  s = String.append d (String.append body d).
Proof.
  unfold Editor.wrapHere. intros E.
  destruct (Editor.stripPrefix d s) as [r|] eqn:Hr; [|done].
  destruct (Editor.span c r) as [a b] eqn:Hs.
  destruct (negb (String.eqb a "")); [|done]. simpl in E.
  destruct (String.eqb_spec b d) as [->|]; [|done]. injection E as <-.
  by rewrite (stripPrefix_Some _ _ _ Hr), (span_append _ _ _ _ Hs).
Qed.

Lemma linkHere_whole s txt url :
  Editor.linkHere s = Some (txt, url) →
  s = String.append "[" (String.append txt
        (String.append "](" (String.append url ")"))).
Proof.
  unfold Editor.linkHere. intros E.
  destruct (Editor.stripPrefix "[" s) as [r|] eqn:Hr; [|done].
  destruct (Editor.span "]" r) as [a b] eqn:Hs.
  destruct (String.eqb a ""); [done|].
  destruct (Editor.stripPrefix "](" b) as [r'|] eqn:Hr'; [|done].
  destruct (Editor.span ")" r') as [a' b'] eqn:Hs'.
  destruct (negb (String.eqb a' "")); [|done]. simpl in E.
  destruct (String.eqb_spec b' ")") as [->|]; [|done]. injection E as <- <-.
  by rewrite (stripPrefix_Some _ _ _ Hr), (span_append _ _ _ _ Hs),
    (stripPrefix_Some _ _ _ Hr'), (span_append _ _ _ _ Hs').
Qed.

(** A match is found at the start of a suffix of the text. *)
Lemma exec_suffix (pat : Editor.Pattern) s whole g :
  Editor.exec pat s = Some (whole, g) →
  Editor.here pat whole = Some g ∧ ∃ pre, s = String.append pre whole.
Proof.
  induction s as [|c s IH]; unfold Editor.exec; fold Editor.exec.
  - destruct (Editor.here pat "") eqn:E; [|done].
    intros [= <- <-]. split; [done | by exists ""].
  - destruct (Editor.here pat (String c s)) eqn:E.
    + intros [= <- <-]. split; [done | by exists ""].
    + intros [Hh [pre ->]]%IH. split; [done|]. by exists (String c pre).
Qed.

(** A text that matches a wrapping pattern ends with the last character
    of its delimiter. *)
Lemma exec_Wrap_ends d0 (e : ascii) c w s m :
  Editor.exec (Editor.Wrap (String.append d0 (String e EmptyString)) c w) s = Some m →
  ∃ pre, s = String.append pre (String e EmptyString).
Proof.
  destruct m as [whole g]. intros [Hh [pre ->]]%exec_suffix. simpl in Hh.
  destruct (Editor.wrapHere _ c whole) as [body|] eqn:Hw; [|done].
  apply wrapHere_whole in Hw as ->.
  eexists. by rewrite <-!append_assoc.
Qed.

Lemma exec_Link_ends s m :
  Editor.exec Editor.Link s = Some m → ∃ pre, s = String.append pre ")".
Proof.
  destruct m as [whole [txt url]]. intros [Hh [pre ->]]%exec_suffix. simpl in Hh.
  apply linkHere_whole in Hh as ->.
  eexists. by rewrite <-!append_assoc.
Qed.

(** A text that matches the link pattern matches none of the patterns
    tried before it. *)
Lemma exec_Link_only s m d0 (e : ascii) c w :
  Editor.exec Editor.Link s = Some m → e ≠ ")"%char →
  Editor.exec (Editor.Wrap (String.append d0 (String e EmptyString)) c w) s = None.
Proof.
  intros [pre Hl]%exec_Link_ends He.
  destruct (Editor.exec (Editor.Wrap _ c w) s) as [m'|] eqn:Hw; [|done].
  apply exec_Wrap_ends in Hw as [pre' Hw]. rewrite Hl in Hw.
  by apply append_last_inj in Hw.
Qed.

Lemma substring_all s : String.substring 0 (String.length s) s = s.
Proof. induction s as [|c s IH]; [done|]. simpl. by rewrite IH. Qed.

Lemma substring_0_append a b :
  String.substring 0 (String.length a) (String.append a b) = a.
Proof.
  induction a as [|c a IH]; [by destruct b|]. rewrite append_String. simpl. by rewrite IH.
Qed.

Lemma substring_split n s :
  n ≤ String.length s →
  String.append (String.substring 0 n s) (String.substring n (String.length s - n) s) = s.
Proof.
  revert s. induction n as [|n IH]; intros s Hn.
  - rewrite Nat.sub_0_r, substring_all. by destruct s.
  - destruct s as [|c s]; [simpl in Hn; lia|]. simpl in *.
    rewrite append_String, IH; [done | lia].
Qed.

Lemma length_substring_0 n s :
  n ≤ String.length s → String.length (String.substring 0 n s) = n.
Proof.
  revert s. induction n as [|n IH]; intros s Hn; [by destruct s|].
  destruct s as [|c s]; [simpl in Hn; lia|]. simpl in *. rewrite IH; lia.
Qed.

End Inline.

(** C8.  With the cursor in a text node, after a text that ends in a link
    pattern [[text](url)]: the key event is consumed; when the url does not
    pass [sanitizeUrl] the editor is left as it was; when it does, the
    text node is split around the matched span, an anchor with the
    sanitized url and the link text takes the place of the span, and the
    cursor is right after the anchor. *)
Theorem checkInlineMarkdown_link (host : Host) (ed : Editor.t) (i cursorPos : nat)
    (text whole linkText linkUrl : string) :
  Editor.selection ed = Some (Editor.InChild i cursorPos) →
  Editor.childNodes ed !! i = Some (Editor.Text text) →
  Editor.exec Editor.Link (Editor.substring 0 cursorPos text)
    = Some (whole, (linkText, linkUrl)) →
  let beforeMatch := Editor.substring 0 (cursorPos - String.length whole) text in
  let afterMatch := Editor.substring cursorPos (String.length text) text in
  (Editor.sanitizeUrl host (Js.Str linkUrl) = "" →
     Editor.checkInlineMarkdown host ed = (true, ed))
  ∧ (Editor.sanitizeUrl host (Js.Str linkUrl) ≠ "" →
       Editor.checkInlineMarkdown host ed =
         (true,
          Editor.mk
            (take i (Editor.childNodes ed)
             ++ [Editor.Text beforeMatch;
                 Editor.Anchor (Editor.sanitizeUrl host (Js.Str linkUrl)) linkText
                   "_blank" "noopener noreferrer";
                 Editor.Text afterMatch]
             ++ drop (S i) (Editor.childNodes ed))
            (Some (Editor.InParent (i + 2)))))
  ∧ whole = String.append "[" (String.append linkText
              (String.append "](" (String.append linkUrl ")")))
  ∧ (cursorPos ≤ String.length text →
       String.append beforeMatch (String.append whole afterMatch) = text).
Proof.
  intros Hsel Hnode Hexec beforeMatch afterMatch.
  assert (∀ d0 (e : ascii) c w, e ≠ ")"%char →
            Editor.exec (Editor.Wrap (String.append d0 (String e EmptyString)) c w)
              (Editor.substring 0 cursorPos text) = None) as Hnone
    by (intros; by eapply exec_Link_only).
  assert (Editor.checkInlineMarkdown host ed =
            Editor.tryPatterns host [Editor.Link] ed i text cursorPos) as Hrun.
  { unfold Editor.checkInlineMarkdown, Editor.patterns. rewrite Hsel, Hnode.
    unfold Editor.tryPatterns; fold Editor.tryPatterns.
    rewrite (Hnone "*" "*"%char), (Hnone "_" "_"%char), (Hnone "" "*"%char),
      (Hnone "" "_"%char), (Hnone "~" "~"%char), (Hnone "" "`"%char) by done.
    done. }
  rewrite Hrun. unfold Editor.tryPatterns. rewrite Hexec.
  split; [|split; [|split]].
  - intros ->. done.
  - intros Hsafe. destruct (String.eqb_spec (Editor.sanitizeUrl host (Js.Str linkUrl)) "");
      [done|]. done.
  - apply exec_suffix in Hexec as [Hh _]. by apply linkHere_whole in Hh.
  - intros Hc. apply exec_suffix in Hexec as [_ [pre Hpre]].
    subst beforeMatch afterMatch. unfold Editor.substring in *.
    rewrite Nat.sub_0_r in *.
    pose proof (substring_split cursorPos text Hc) as Htext.
    pose proof (length_substring_0 cursorPos text Hc) as Hlen.
    rewrite Hpre, length_append in Hlen.
    replace (cursorPos - String.length whole) with (String.length pre) by lia.
    rewrite Hpre, append_assoc in Htext.
    rewrite <-Htext at 1. rewrite substring_0_append. exact Htext.
Qed.

(** ** The sample data *)

Section SampleFacts.

Lemma Sample_tree_unique : uniqueKeys (DataManager.blocks Sample.tree).
Proof. unfold uniqueKeys. apply (bool_decide_unpack _). by vm_compute. Qed.

Lemma Sample_flat_unique : uniqueKeys (DataManager.blocks Sample.flat).
Proof. unfold uniqueKeys. apply (bool_decide_unpack _). by vm_compute. Qed.

Lemma Sample_tree_childOf (c p : string) :
  childOf (DataManager.blocks Sample.tree) c p ↔
    (c = "b" ∧ p = "a") ∨ (c = "c" ∧ p = "b").
Proof.
  unfold childOf. split.
  - intros (b & Hb & <- & Hp). simpl in Hb.
    repeat (apply elem_of_cons in Hb as [->|Hb]); simpl in Hp;
      try discriminate; try (injection Hp as <-; auto).
    by apply not_elem_of_nil in Hb.
  - intros [[-> ->]|[-> ->]].
    + exists (Sample.block "b" (Some "a") "paragraph" "B" 1).
      split; [|done]. simpl. right. left.
    + exists (Sample.block "c" (Some "b") "paragraph" "C" 2).
      split; [|done]. simpl. right. right. left.
Qed.

Lemma Sample_tree_wf : well_founded (childOf (DataManager.blocks Sample.tree)).
Proof.
  apply (well_founded_lt_compat _
           (λ x, if String.eqb x "a" then 2 else if String.eqb x "b" then 1 else 0)).
  intros c p [[-> ->]|[-> ->]]%Sample_tree_childOf; simpl; lia.
Qed.

Lemma Sample_tree_descendants (x : string) :
  x ∈ ["b"; "c"] ↔ descendantOf (DataManager.blocks Sample.tree) x "a".
Proof.
  unfold descendantOf. split.
  - intros [->|[->|Hx%not_elem_of_nil]%elem_of_cons]%elem_of_cons; [| |done].
    + apply tc_once, Sample_tree_childOf. auto.
    + eapply tc_l; [|apply tc_once]; apply Sample_tree_childOf; auto.
  - intros (y & Hxy & [[-> _]|[_ [=]]]%Sample_tree_childOf)%tc_last.
    apply rtc_tc in Hxy as [->|Hxb]; [left|].
    apply tc_last in Hxb as (y & Hxy & [[_ [=]]|[-> _]]%Sample_tree_childOf).
    apply rtc_tc in Hxy as [->|Hxc]; [right; left|].
    by apply tc_last in Hxc as (y & _ & [[_ [=]]|[_ [=]]]%Sample_tree_childOf).
Qed.

Lemma Sample_flat_page (k : string) :
  k ∈ ["c"; "a"; "b"] ↔ inPage "page" (DataManager.blocks Sample.flat) k.
Proof.
  unfold inPage. split.
  - intros Hk. repeat (apply elem_of_cons in Hk as [->|Hk]);
      [| | |by apply not_elem_of_nil in Hk].
    + exists (Sample.block "c" None "paragraph" "C" 2).
      split; [|done]. simpl. right. right. left.
    + exists (Sample.block "a" None "paragraph" "A" 0).
      split; [|done]. simpl. left.
    + exists (Sample.block "b" None "paragraph" "B" 1).
      split; [|done]. simpl. right. left.
  - intros (b & Hb & _ & <-). simpl in Hb.
    repeat (apply elem_of_cons in Hb as [->|Hb]); simpl;
      [| | |by apply not_elem_of_nil in Hb].
    + right. left.
    + right. right. left.
    + left.
Qed.

(** The [URL] constructor of the sample host reads [data:] from a data
    URI. *)
Lemma Sample_host_data (t : string) :
  Js.startsWith t "data:image/" = true →
  URL_protocol Sample.host t ≠ Some "http:" ∧ URL_protocol Sample.host t ≠ Some "https:".
Proof. by intros [r ->]%prefix_append. Qed.

(** [deleteBlock] on a block that is its own parent does not settle,
    whatever the fuel. *)
Lemma deleteBlock_cycle_never_settles (n : nat) :
  DataManager.deleteBlock n "a" Sample.cyclic = None.
Proof.
  induction n as [|n IH]; [done|].
  rewrite deleteBlock_S.
  replace (filter _ (DataManager.blocks Sample.cyclic))
    with [Sample.block "a" (Some "a") "toggle" "A" 0] by reflexivity.
  unfold forOf, bind.
  change (id (Sample.block "a" (Some "a") "toggle" "A" 0)) with "a".
  by rewrite IH.
Qed.

End SampleFacts.

(** ** The theorems at the sample data *)

Example sanitizeUrl_javascript :
  BlockManager.sanitizeUrl Sample.host (Js.Str "javascript:alert(1)") false = ""
  ∧ Editor.sanitizeUrl Sample.host (Js.Str "javascript:alert(1)") = "".
Proof. split; reflexivity. Qed.

Example sanitizeUrl_https :
  BlockManager.sanitizeUrl Sample.host (Js.Str "https://example.com") false
  = "https://example.com"
  ∧ BlockManager.sanitizeUrl Sample.host (Js.Str "  https://example.com ") false
    = "https://example.com"
  ∧ BlockManager.sanitizeUrl Sample.host Js.Undefined true = ""
  ∧ BlockManager.sanitizeUrl Sample.host (Js.Str "") true = "".
Proof. repeat split; reflexivity. Qed.

Lemma sanitizeUrl_contract_witness :
  BlockManager.sanitizeUrl Sample.host (Js.Str " data:image/png;base64,AAAA  ") true
  = "data:image/png;base64,AAAA"
  ∧ BlockManager.sanitizeUrl Sample.host (Js.Str " data:image/png;base64,AAAA  ") false = "".
Proof.
  destruct (sanitizeUrl_contract Sample.host (Js.Str " data:image/png;base64,AAAA  ") true
              Sample_host_data) as (_ & _ & Hd & _).
  destruct (Hd _ eq_refl eq_refl) as (H1 & _ & H2).
  split; [exact H1 | exact H2].
Defined.

Lemma deleteBlock_cascade_witness :
  ∃ fuel d',
    (∀ n, fuel ≤ n → DataManager.deleteBlock n "a" Sample.tree = Some (Normal true, d'))
    ∧ DataManager.blocks d' = [Sample.block "d" None "paragraph" "D" 3]
    ∧ length (DataManager.blocks Sample.tree) = length (DataManager.blocks d') + (2 + 1).
Proof.
  destruct (deleteBlock_cascade "a" Sample.tree ["b"; "c"]
              Sample_tree_wf Sample_tree_unique)
    as (fuel & d' & log & Hrun & _ & _ & Hblocks & Hlen & _).
  - by eexists.
  - apply (bool_decide_unpack _). by vm_compute.
  - apply Sample_tree_descendants.
  - exists fuel, d'. split; [exact Hrun|]. split; [|exact Hlen].
    rewrite Hblocks. vm_compute. reflexivity.
Defined.

Lemma reorderBlocks_permutation_witness :
  ∃ d' b',
    DataManager.reorderBlocks Sample.host "page" ["c"; "a"; "b"] Sample.flat
      = Some (Normal tt, d')
    ∧ DataManager.findById "c" (DataManager.blocks d') = Some b'
    ∧ order b' = 0%Z.
Proof.
  destruct (reorderBlocks_permutation Sample.host "page" ["c"; "a"; "b"] Sample.flat
              Sample_flat_unique)
    as (d' & Hrun & Hset & _).
  - apply (bool_decide_unpack _). by vm_compute.
  - apply Sample_flat_page.
  - destruct (Hset 0 "c" eq_refl) as (b' & Hb' & _ & Ho & _).
    exists d', b'. split; [exact Hrun|]. split; [exact Hb' | exact Ho].
Defined.

Lemma reorderBlocks_mismatch_witness :
  ∃ d',
    DataManager.reorderBlocks Sample.host "page" ["zz"; "a"] Sample.flat
      = Some (Normal tt, d')
    ∧ DataManager.findById "zz" (DataManager.blocks d') = None
    ∧ Sample.block "b" None "paragraph" "B" 1 ∈ DataManager.blocks d'.
Proof.
  destruct (reorderBlocks_mismatch Sample.host "page" ["zz"; "a"] Sample.flat
              Sample_flat_unique)
    as (d' & Hrun & Hskip & Hkeep & _).
  exists d'. split; [exact Hrun|]. split.
  - destruct (Hskip 0 "zz" eq_refl) as [Hzz _]; [|exact Hzz].
    intros Hin%Sample_flat_page.
    repeat (apply elem_of_cons in Hin as [[=]|Hin]). by apply not_elem_of_nil in Hin.
  - apply (Hkeep (Sample.block "b" None "paragraph" "B" 1)).
    + simpl. right. left.
    + reflexivity.
    + intros Hin. repeat (apply elem_of_cons in Hin as [[=]|Hin]).
      by apply not_elem_of_nil in Hin.
Defined.

Lemma createBlock_order_witness :
  ∃ b s',
    BlockManager.createBlock Sample.host "paragraph" None None ∅ Sample.nested
      = Some (Normal (Some (BlockManager.renderBlock b)), s')
    ∧ id b = "lx3k-"
    ∧ order b = 4%Z
    ∧ BlockManager.blocks s' !! "lx3k-" = Some b.
Proof.
  destruct (createBlock_order Sample.host "paragraph" None None ∅ Sample.nested
              "page" Sample.tree)
    as (b & s' & d' & Hrun & Hid & _ & _ & _ & _ & _ & Hblocks & Hsize & _);
    [reflexivity | discriminate | reflexivity | reflexivity |].
  exists b, s'. split; [exact Hrun|]. split; [exact Hid|].
  split; [exact (Hsize eq_refl)|].
  rewrite Hblocks, Hid. apply lookup_insert_eq.
Defined.

Lemma updateBlock_unknown_noop_known_merge_witness :
  BlockManager.updateBlock Sample.host "zz" (contentPatch "new") Sample.editing
  = Some (Normal tt, Sample.editing)
  ∧ ∃ s' r',
      BlockManager.updateBlock Sample.host "a" (contentPatch "new") Sample.editing
      = Some (Normal tt, s')
      ∧ (content <$> BlockManager.blocks s' !! "a") = Some "new"
      ∧ (DataManager.blocks <$> BlockManager.data s')
        = Some (DataManager.put r' (DataManager.blocks Sample.flat))
      ∧ content r' = "new" ∧ updatedAt r' = "2024-01-01T00:00:0".
Proof.
  split.
  - apply (updateBlock_unknown_noop_known_merge Sample.host "zz" (contentPatch "new")
             Sample.editing).
    vm_compute. reflexivity.
  - destruct (updateBlock_unknown_noop_known_merge Sample.host "a" (contentPatch "new")
                Sample.editing) as [_ Hknown].
    destruct (Hknown (Sample.block "a" None "paragraph" "A" 0) Sample.flat
                (Sample.block "a" None "paragraph" "A" 0))
      as (Hrun & Hstamp & _); [vm_compute; reflexivity | reflexivity | reflexivity |].
    eexists _, _. split; [exact Hrun|].
    split; [vm_compute; reflexivity|]. split; [reflexivity|].
    split; reflexivity.
Defined.

Lemma convertBlock_replaces_type_only_witness :
  ∃ res s' ty,
    convertAll Sample.host [("a", "code"); ("a", "heading1")] Sample.withTodo
      = Some (res, s')
    ∧ BlockManager.blocks s' !! "a" = Some (withType Sample.todoBlock ty).
Proof.
  destruct (convertBlock_replaces_type_only Sample.host
              [("a", "code"); ("a", "heading1")] "a" Sample.withTodo Sample.todoBlock)
    as [(res & s' & Hrun & [ty Hty] & _) _]; [vm_compute; reflexivity|].
  exists res, s', ty. split; [exact Hrun | exact Hty].
Defined.

Lemma checkInlineMarkdown_link_witness :
  Editor.checkInlineMarkdown Sample.host
    (Editor.mk [Editor.Text "see [a](http://x) rest"] (Some (Editor.InChild 0 17)))
  = (true,
     Editor.mk [Editor.Text "see ";
                Editor.Anchor "http://x" "a" "_blank" "noopener noreferrer";
                Editor.Text " rest"]
       (Some (Editor.InParent 2)))
  ∧ Editor.checkInlineMarkdown Sample.host
      (Editor.mk [Editor.Text "[x](javascript:void)"] (Some (Editor.InChild 0 20)))
    = (true, Editor.mk [Editor.Text "[x](javascript:void)"] (Some (Editor.InChild 0 20))).
Proof.
  split.
  - destruct (checkInlineMarkdown_link Sample.host
                (Editor.mk [Editor.Text "see [a](http://x) rest"]
                   (Some (Editor.InChild 0 17)))
                0 17 "see [a](http://x) rest" "[a](http://x)" "a" "http://x")
      as (_ & Hsafe & _); [reflexivity | reflexivity | reflexivity |].
    apply Hsafe. discriminate.
  - destruct (checkInlineMarkdown_link Sample.host
                (Editor.mk [Editor.Text "[x](javascript:void)"]
                   (Some (Editor.InChild 0 20)))
                0 20 "[x](javascript:void)" "[x](javascript:void)" "x" "javascript:void")
      as (Hunsafe & _); [reflexivity | reflexivity | reflexivity |].
    apply Hunsafe. reflexivity.
Defined.

Lemma blockMenu_keys_witness :
  ∃ a' s',
    BlockMenu.keydowns Sample.host BlockMenu.renderedItems
      [BlockMenu.ArrowDown; BlockMenu.ArrowUp; BlockMenu.ArrowUp]
      (BlockMenu.mkApp (BlockMenu.mk true 6 (Some 1)) Sample.withEmpty)
      = Some (Normal tt, a')
    ∧ BlockMenu.isOpen (BlockMenu.menu a') = true
    ∧ (0 ≤ BlockMenu.selectedIndex (BlockMenu.menu a')
         ≤ Z.of_nat (length BlockMenu.renderedItems) - 1)%Z
    ∧ BlockMenu.keydown Sample.host BlockMenu.renderedItems BlockMenu.Enter
        (BlockMenu.mkApp (BlockMenu.mk true 6 (Some 1)) Sample.withEmpty)
      = Some (Normal tt, BlockMenu.mkApp (BlockMenu.mk false 6 None) s')
    ∧ BlockManager.page s'
      = [BlockManager.mkElement "a" "paragraph" (Some "A");
         BlockManager.mkElement "b" "todo" (Some "")]
    ∧ type <$> BlockManager.blocks s' !! "b" = Some "todo".
Proof.
  destruct (blockMenu_keys Sample.host BlockMenu.renderedItems
              [BlockMenu.ArrowDown; BlockMenu.ArrowUp; BlockMenu.ArrowUp]
              (BlockMenu.mkApp (BlockMenu.mk true 6 (Some 1)) Sample.withEmpty))
    as [(a' & Hrun & Hopen & Hsel & _) (_ & _ & (ty & Hty & _ & Hconvert & _) & _)].
  - simpl. lia.
  - reflexivity.
  - simpl. lia.
  - repeat first [ apply List.Forall_nil
                 | apply List.Forall_cons; [(by left) || (by right)|] ].
  - injection Hty as <-.
    destruct (Hconvert 1 (BlockManager.mkElement "b" "paragraph" (Some ""))
                (Sample.block "b" None "paragraph" "" 1))
      as (s' & Henter & Hblocks & Hpage & _).
    + reflexivity.
    + reflexivity.
    + by left.
    + discriminate.
    + vm_compute. reflexivity.
    + apply (bool_decide_unpack _). by vm_compute.
    + intros d [= <-]. eexists. vm_compute. reflexivity.
    + exists a', s'. split; [exact Hrun|]. split; [exact Hopen|]. split; [exact Hsel|].
      split; [exact Henter|]. split; [exact Hpage|].
      rewrite Hblocks. cbn [BlockManager.blockId]. by rewrite lookup_insert_eq.
Defined.

(** * Further properties *)

(** ** The store: [getBlocks], [createBlock], [updateBlock] *)

Section StoreMore.
Variable host : Host.
Implicit Types (l : list Block) (b r : Block) (k : string) (d : DataManager.t).

Lemma insertByOrder_sorted b l :
  Sorted (λ x y, (order x ≤ order y)%Z) l →
  Sorted (λ x y, (order x ≤ order y)%Z) (DataManager.insertByOrder b l).
Proof.
  induction l as [|x l IH]; intros Hl; simpl.
  - by repeat constructor.
  - destruct (Z.leb_spec (order b) (order x)).
    + constructor; [done|]. by constructor.
    + apply Sorted_inv in Hl as [Hl Hx]. constructor; [by apply IH|].
      destruct l as [|y l]; simpl.
      * constructor. lia.
      * destruct (Z.leb_spec (order b) (order y)); constructor; [lia|].
        by apply HdRel_inv in Hx.
Qed.

Lemma sortByOrder_sorted l :
  Sorted (λ x y, (order x ≤ order y)%Z) (DataManager.sortByOrder l).
Proof.
  induction l as [|x l IH]; [constructor|]. simpl. by apply insertByOrder_sorted.
Qed.

(** Among blocks of equal order, the one inserted comes first. *)
Lemma insertByOrder_class b l (z : Z) :
  filter (λ x, order x = z) (DataManager.insertByOrder b l)
  = filter (λ x, order x = z) (b :: l).
Proof.
  induction l as [|x l IH]; [done|]. simpl.
  destruct (Z.leb_spec (order b) (order x)); [done|].
  rewrite filter_cons, IH, !filter_cons.
  destruct (decide (order x = z)), (decide (order b = z)); try done. lia.
Qed.

Lemma sortByOrder_class l (z : Z) :
  filter (λ x, order x = z) (DataManager.sortByOrder l) = filter (λ x, order x = z) l.
Proof.
  induction l as [|x l IH]; [done|]. simpl.
  by rewrite insertByOrder_class, !filter_cons, IH.
Qed.

Lemma insertByKey_perm b l : DataManager.insertByKey b l ≡ₚ b :: l.
Proof.
  induction l as [|x l IH]; [done|]. simpl.
  destruct (String.ltb (id b) (id x)); [done|]. by rewrite IH, Permutation_swap.
Qed.

Lemma hasKey_false k l :
  DataManager.hasKey k l = false ↔ k ∉ id <$> l.
Proof.
  rewrite <-not_true_iff_false, hasKey_is_Some, findById_is_Some, list_elem_of_fmap.
  split; intros H (b & ? & ?); apply H; eauto.
Qed.

End StoreMore.

(** X1.  [getBlocks] reads without writing.  The array it returns holds
    the stored blocks of the page, each as often as it is stored, in
    ascending order; blocks of equal order keep the order of the store. *)
Theorem getBlocks_sorted_stable (p : string) (d : DataManager.t) :
  ∃ bs,
    DataManager.getBlocks p d = Some (Normal bs, d)
    ∧ bs ≡ₚ filter (λ b, pageId b = p) (DataManager.blocks d)
    ∧ StronglySorted (λ x y, (order x ≤ order y)%Z) bs
    ∧ ∀ z : Z, filter (λ b, order b = z) bs
               = filter (λ b, order b = z)
                   (filter (λ b, pageId b = p) (DataManager.blocks d)).
Proof.
  assert (filter (λ b, DataManager.indexKey DataManager.pageIdIndex b = Some p)
            (DataManager.blocks d)
          = filter (λ b, pageId b = p) (DataManager.blocks d)) as Hpage.
  { apply list_filter_iff. intros b. simpl. split; [by intros [= ->] | by intros ->]. }
  eexists. split; [reflexivity|]. rewrite Hpage. split; [apply sortByOrder_perm|].
  split.
  - apply Sorted_StronglySorted; [|apply sortByOrder_sorted].
    intros x y z ? ?. lia.
  - intros z. apply sortByOrder_class.
Qed.

(** X2.  [createBlock] of the store.  When the generated id is free, the
    call settles with the new record; a [getBlock] of its id returns it,
    every other id reads as before, the keys stay unique and the store
    holds the new record besides the old ones.  An absent type, content,
    order, parent and properties default to [paragraph], the empty string,
    0, null and the empty object.  When the id is taken, the call throws
    and neither the records nor the journal change. *)
Theorem createBlock_store (host : Host) (init : DataManager.BlockInit)
    (d : DataManager.t) :
  (DataManager.hasKey (generateId host (DataManager.tick d)) (DataManager.blocks d) = false →
   ∃ b d',
     DataManager.createBlock host init d = Some (Normal b, d')
     ∧ id b = generateId host (DataManager.tick d)
     ∧ pageId b = DataManager.i_pageId init
     ∧ DataManager.getBlock (id b) d' = Some (Normal (Some b), d')
     ∧ (∀ k, k ≠ id b →
             DataManager.findById k (DataManager.blocks d')
             = DataManager.findById k (DataManager.blocks d))
     ∧ DataManager.blocks d' ≡ₚ b :: DataManager.blocks d
     ∧ (uniqueKeys (DataManager.blocks d) → uniqueKeys (DataManager.blocks d'))
     ∧ written d d' = [DataManager.Add b]
     ∧ (DataManager.i_type init = None → type b = "paragraph")
     ∧ (DataManager.i_content init = None → content b = "")
     ∧ (DataManager.i_order init = None → order b = 0%Z)
     ∧ (DataManager.i_parentId init = None → parentId b = None)
     ∧ (DataManager.i_properties init = None → properties b = ∅))
  ∧ (DataManager.hasKey (generateId host (DataManager.tick d)) (DataManager.blocks d) = true →
     ∃ d',
       DataManager.createBlock host init d = Some (Throw "ConstraintError", d')
       ∧ DataManager.blocks d' = DataManager.blocks d
       ∧ DataManager.journal d' = DataManager.journal d).
Proof.
  split.
  - intros Hfresh. rewrite createBlock_fresh by done. cbv zeta.
    set (b := mkBlock _ _ _ _ _ _ _ _ _). eexists b, _.
    split; [reflexivity|]. split; [done|]. split; [done|].
    assert (∀ k, DataManager.findById k (DataManager.insertByKey b (DataManager.blocks d))
                 = if decide (k = id b) then Some b
                   else DataManager.findById k (DataManager.blocks d)) as Hfind
      by (intros k; by apply findById_insertByKey).
    split.
    { unfold DataManager.getBlock, DataManager._get.
      cbn [DataManager.blocks]. by rewrite Hfind, decide_True. }
    split; [intros k Hk; cbn [DataManager.blocks]; by rewrite Hfind, decide_False|].
    split; [apply insertByKey_perm|].
    split.
    { unfold uniqueKeys. cbn [DataManager.blocks]. intros Hu.
      rewrite insertByKey_perm, fmap_cons. apply NoDup_cons. split; [|done].
      by apply hasKey_false. }
    split; [by apply written_app|].
    unfold b; cbn [type content order parentId properties].
    repeat split; by intros ->.
  - intros Htaken. unfold DataManager.createBlock, DataManager.newId, DataManager.newDate,
      DataManager._add, bind. cbn [DataManager.blocks DataManager.tick id].
    rewrite Htaken. eexists. by split.
Qed.

(** X3.  [updateBlock] of the store.  On an id that is not stored the call
    throws and the store is as it was.  On a stored id the record written
    has [updatedAt] read from the clock, whatever the patch says; every
    other key reads as before; when the patch names no id the list of keys
    is unchanged; when it names another id, the record is written under
    that id and the record under the old id stays as it was. *)
Theorem updateBlock_store (host : Host) (k : string) (patch : Patch)
    (d : DataManager.t) :
  (DataManager.findById k (DataManager.blocks d) = None →
   DataManager.updateBlock host k patch d = Some (Throw "Block not found", d))
  ∧ (∀ r, DataManager.findById k (DataManager.blocks d) = Some r →
       ∃ r' d',
         DataManager.updateBlock host k patch d = Some (Normal r', d')
         ∧ updatedAt r' = toISOString host (DataManager.tick d)
         ∧ DataManager.findById (id r') (DataManager.blocks d') = Some r'
         ∧ (∀ k', k' ≠ id r' →
                  DataManager.findById k' (DataManager.blocks d')
                  = DataManager.findById k' (DataManager.blocks d))
         ∧ (p_id patch = None →
              id r' = k ∧ id <$> DataManager.blocks d' = id <$> DataManager.blocks d)
         ∧ (∀ k2, p_id patch = Some k2 → k2 ≠ k →
                  id r' = k2
                  ∧ DataManager.findById k (DataManager.blocks d') = Some r)).
Proof.
  split; [apply updateBlock_missing|].
  intros r Hr. rewrite (updateBlock_found host _ _ _ _ Hr). cbv zeta.
  set (r' := withUpdatedAt _ _). eexists r', _. split; [reflexivity|].
  cbn [DataManager.blocks]. apply findById_Some in Hr as Hid. destruct Hid as [_ Hid].
  split; [done|]. split; [by rewrite findById_put, decide_True|].
  split; [intros k' Hk'; by rewrite findById_put, decide_False|].
  split.
  - intros Hp. assert (id r' = k) as Hk by (unfold r'; simpl; by rewrite Hp).
    split; [done|]. apply keys_put_existing, hasKey_is_Some.
    rewrite Hk. by rewrite Hr.
  - intros k2 Hp Hne. assert (id r' = k2) as Hk by (unfold r'; simpl; by rewrite Hp).
    split; [done|]. rewrite findById_put, decide_False by congruence. done.
Qed.

(** ** The store: more on [deleteBlock] and [reorderBlocks] *)

Section StoreCascade.
Implicit Types (l : list Block) (b : Block) (k x : string) (d : DataManager.t).

Lemma filter_none {A} (P : A → Prop) `{∀ a, Decision (P a)} (l : list A) :
  (∀ a, a ∈ l → ¬ P a) → filter P l = [].
Proof.
  induction l as [|a l IH]; [done|]. intros Hnone.
  rewrite filter_cons_False by (apply Hnone; left).
  apply IH. intros ? ?. apply Hnone. by right.
Qed.

(** Under unique keys a block has one parent. *)
Lemma childOf_functional l x p p' :
  uniqueKeys l → childOf l x p → childOf l x p' → p = p'.
Proof.
  intros Hu (b & Hb & Hx & Hp) (b' & Hb' & Hx' & Hp').
  pose proof (findById_unique _ _ Hu Hb) as F.
  pose proof (findById_unique _ _ Hu Hb') as F'.
  rewrite Hx in F. rewrite Hx' in F'. congruence.
Qed.

(** Whatever is reached from a point of a cycle of a functional relation
    lies on the cycle. *)
Lemma cycle_rtc {A} (R : relation A) (x c : A) :
  (∀ a y y', R a y → R a y' → y = y') → tc R x x → rtc R x c → tc R c c.
Proof.
  intros Hfun Hx Hc. induction Hc as [|x y c Hxy _ IH]; [done|].
  apply IH.
  assert (rtc R y x) as Hyx.
  { inversion Hx as [? ? Hxx|? y' ? Hxy' Hy'x]; subst.
    - by rewrite (Hfun _ _ _ Hxy Hxx).
    - rewrite (Hfun _ _ _ Hxy Hxy'). by apply tc_rtc. }
  eapply tc_rtc_l; [exact Hyx|]. by apply tc_once.
Qed.

(** A parent chain that starts outside the deleted keys is left whole. *)
Lemma deletedBy_chain log d d' x z :
  deletedBy log d d' → descendantOf (DataManager.blocks d) x z → x ∉ log →
  descendantOf (DataManager.blocks d') x z.
Proof.
  intros (_ & _ & Hblocks & Hparents) Hx.
  assert (∀ x p, childOf (DataManager.blocks d) x p → x ∉ log →
            childOf (DataManager.blocks d') x p ∧ p ∉ log) as Hstep.
  { intros x' p (b & Hb & <- & Hp) Hout.
    assert (b ∈ DataManager.blocks d') as Hb'
      by (rewrite Hblocks; by apply list_elem_of_filter).
    split; [by exists b | by eapply Hparents]. }
  induction Hx as [x z Hxz|x y z Hxy _ IH]; intros Hout.
  - apply tc_once. by apply Hstep.
  - destruct (Hstep _ _ Hxy Hout) as [Hxy' Hy]. eapply tc_l; [done | by apply IH].
Qed.

Lemma deleteBlock_cycle n :
  ∀ k d, uniqueKeys (DataManager.blocks d) →
    descendantOf (DataManager.blocks d) k k →
    DataManager.deleteBlock n k d = None.
Proof.
  induction n as [|n IH]; intros k d Hu Hk; [done|].
  rewrite deleteBlock_S.
  assert (∀ (cs : list Block) d1,
            uniqueKeys (DataManager.blocks d1) →
            (∃ c, c ∈ cs ∧ descendantOf (DataManager.blocks d1) (id c) (id c)) →
            forOf cs (λ child, let* _ := DataManager.deleteBlock n (id child) in ret tt) d1
            = None) as Hloop.
  { induction cs as [|c1 cs IHcs]; intros d1 Hu1 (c & Hc & Hcyc).
    { by apply not_elem_of_nil in Hc. }
    simpl. unfold bind at 1 2.
    destruct (DataManager.deleteBlock n (id c1) d1) as [[res d2]|] eqn:Hrun; [|done].
    destruct (deleteBlock_post _ _ _ _ _ Hrun) as (log & -> & Hdel & Hdesc). simpl.
    assert (¬ descendantOf (DataManager.blocks d1) (id c1) (id c1)) as Hc1.
    { intros Hcyc1. by rewrite (IH _ _ Hu1 Hcyc1) in Hrun. }
    apply IHcs.
    - pose proof Hdel as (_ & _ & -> & _). by apply uniqueKeys_filter.
    - apply elem_of_cons in Hc as [->|Hc]; [done|]. exists c. split; [done|].
      eapply deletedBy_chain; [done..|]. intros Hin. apply Hc1.
      apply (cycle_rtc _ (id c)); [intros ? ? ?; by apply childOf_functional|done|].
      apply elem_of_app in Hin as [Hin|Hin%list_elem_of_singleton].
      + by apply tc_rtc, Hdesc.
      + by rewrite Hin. }
  rewrite Hloop; [done..|].
  destruct (tc_last _ _ _ Hk) as (y & Hky & Hyk).
  pose proof Hyk as (b & Hb & <- & Hp). exists b. split.
  - apply list_elem_of_filter. by split.
  - eapply tc_rtc_r; [by apply tc_once | done].
Qed.

Lemma sorted_seq (j n : nat) : Sorted Z.le (Z.of_nat <$> seq j n).
Proof.
  revert j. induction n as [|n IH]; intros j; [constructor|].
  simpl. constructor; [apply IH|].
  destruct n; simpl; constructor. lia.
Qed.

End StoreCascade.

Section ReorderMore.
Variable host : Host.

(** [reorderBlocks] on the ids of the blocks of the page, each once. *)
Lemma reorder_listed (p : string) (ids : list string) (d : DataManager.t) :
  uniqueKeys (DataManager.blocks d) →
  NoDup ids →
  (∀ k, k ∈ ids ↔ inPage p (DataManager.blocks d) k) →
  ∃ d',
    DataManager.reorderBlocks host p ids d = Some (Normal tt, d')
    ∧ id <$> DataManager.blocks d' = id <$> DataManager.blocks d
    ∧ (∀ i k, ids !! i = Some k →
         ∃ b', b' ∈ DataManager.blocks d' ∧ id b' = k ∧ pageId b' = p
               ∧ order b' = Z.of_nat i)
    ∧ (∀ b', b' ∈ DataManager.blocks d' → pageId b' = p →
         ∃ i, ids !! i = Some (id b') ∧ order b' = Z.of_nat i).
Proof.
  intros Huniq Hnodup Hperm. rewrite reorderBlocks_unfold.
  set (bs := DataManager.sortByOrder _).
  assert (∀ k, is_Some (DataManager.findById k bs) ↔ inPage p (DataManager.blocks d) k)
    as Hsel by (intros k; apply getBlocks_selects).
  destruct (reorder_loop host bs ids 0 d)
    as (d' & J & Hrun & Hkeys & Hframe & Hset & Hj & Hput & Honly).
  { intros k (b & Hb & _ & Hk)%Hsel. apply findById_is_Some. eauto. }
  assert (uniqueKeys (DataManager.blocks d')) as Huniq'
    by (unfold uniqueKeys; by rewrite Hkeys).
  assert (∀ i k, ids !! i = Some k → ∀ j', i < j' → ids !! j' ≠ Some k) as Hlast.
  { intros i k Hi j' Hlt Hj'. pose proof (NoDup_lookup _ _ _ _ Hnodup Hi Hj'). lia. }
  exists d'. split; [done|]. split; [done|]. split.
  - intros i k Hi.
    assert (inPage p (DataManager.blocks d) k) as Hk
      by (apply Hperm; by eapply list_elem_of_lookup_2).
    destruct (Hset i k Hi (Hlast _ _ Hi)) as (b & t & Hb & Hb'); [by apply Hsel|].
    apply findById_Some in Hb' as Hin. destruct Hin as [Hin Hid].
    eexists. split; [exact Hin|]. split; [done|]. simpl. split; [|done].
    destruct Hk as (b0 & Hb0 & Hp0 & Hk0).
    rewrite <-Hk0, (findById_unique _ _ Huniq Hb0) in Hb. by injection Hb as <-.
  - intros b' Hb' Hp.
    pose proof (findById_unique _ _ Huniq' Hb') as Hf'.
    destruct (decide (id b' ∈ ids)) as [Hin|Hout].
    + apply list_elem_of_lookup_1 in Hin as [i Hi]. exists i. split; [done|].
      destruct (Hset i (id b') Hi (Hlast _ _ Hi)) as (b & t & _ & Hnew);
        [apply Hsel, Hperm; by eapply list_elem_of_lookup_2|].
      rewrite Hf' in Hnew. by injection Hnew as ->.
    + exfalso. apply Hout, Hperm. exists b'. split; [|done].
      rewrite Hframe in Hf' by (by left). by apply findById_Some in Hf' as [? _].
Qed.

(** What [getBlocks] returns for a page whose blocks carry the indices of
    [ids] as order. *)
Lemma getBlocks_listed (p : string) (ids : list string) (d : DataManager.t) :
  uniqueKeys (DataManager.blocks d) →
  (∀ i k, ids !! i = Some k →
     ∃ b, b ∈ DataManager.blocks d ∧ id b = k ∧ pageId b = p ∧ order b = Z.of_nat i) →
  (∀ b, b ∈ DataManager.blocks d → pageId b = p →
     ∃ i, ids !! i = Some (id b) ∧ order b = Z.of_nat i) →
  ∃ bs,
    DataManager.getBlocks p d = Some (Normal bs, d)
    ∧ id <$> bs = ids
    ∧ order <$> bs = Z.of_nat <$> seq 0 (length ids).
Proof.
  intros Huniq Hlisted Hall.
  set (bs := DataManager.sortByOrder
               (filter (λ b, DataManager.indexKey DataManager.pageIdIndex b = Some p)
                  (DataManager.blocks d))).
  assert (∀ b, b ∈ bs ↔ b ∈ DataManager.blocks d ∧ pageId b = p) as Hbs.
  { intros b. unfold bs. rewrite sortByOrder_perm, list_elem_of_filter. simpl.
    split; [by intros [[= ?] ?] | by intros [? ->]]. }
  assert (order <$> bs = Z.of_nat <$> seq 0 (length ids)) as Horder.
  { apply (Sorted_unique Z.le).
    - eapply Sorted_fmap; [|apply sortByOrder_sorted]. done.
    - apply sorted_seq.
    - apply NoDup_Permutation.
      + apply NoDup_fmap_2_strong.
        * intros x y [Hx Hpx]%Hbs [Hy Hpy]%Hbs Hxy.
          destruct (Hall x Hx Hpx) as (i & Hi & Hoi).
          destruct (Hall y Hy Hpy) as (j & Hj & Hoj).
          assert (i = j) as -> by lia.
          pose proof (findById_unique _ _ Huniq Hx) as Fx.
          pose proof (findById_unique _ _ Huniq Hy) as Fy.
          assert (id x = id y) as E by congruence. rewrite E in Fx. congruence.
        * unfold bs. rewrite sortByOrder_perm. apply NoDup_filter.
          by eapply NoDup_fmap_1.
      + apply NoDup_fmap_2_strong; [intros; lia | apply NoDup_seq].
      + intros z. rewrite !list_elem_of_fmap. split.
        * intros (b & -> & [Hb Hp]%Hbs). destruct (Hall b Hb Hp) as (i & Hi & Hoi).
          exists i. split; [done|]. apply elem_of_seq.
          apply lookup_lt_Some in Hi. lia.
        * intros (i & -> & Hi%elem_of_seq).
          destruct (lookup_lt_is_Some_2 ids i) as [k Hk]; [lia|].
          destruct (Hlisted i k Hk) as (b & Hb & _ & Hp & Ho).
          exists b. split; [done|]. by apply Hbs. }
  exists bs. split; [done|]. split; [|done].
  apply (list_eq_same_length _ _ (length ids)); [done| |].
  - by rewrite length_fmap, <-(length_fmap order), Horder, length_fmap, length_seq.
  - intros i x y Hi Hx Hy.
    rewrite list_lookup_fmap in Hx.
    destruct (bs !! i) as [b|] eqn:Hb; [|done]. injection Hx as <-.
    assert ((order <$> bs) !! i = Some (order b)) as Ho
      by (by rewrite list_lookup_fmap, Hb).
    rewrite Horder, list_lookup_fmap, lookup_seq_lt in Ho by done.
    injection Ho as Ho.
    apply list_elem_of_lookup_2, Hbs in Hb as [Hb Hp].
    destruct (Hall b Hb Hp) as (j & Hj & Hoj).
    assert (j = i) as -> by lia. congruence.
Qed.

End ReorderMore.

(** X4.  A second [deleteBlock] of the same id finds nothing to delete:
    once a call has settled, the id is no longer stored, a repeated call
    settles at once with [true], leaves the records as they are and sends
    one delete request for the id. *)
Theorem deleteBlock_again (n m : nat) (k : string) (d d' : DataManager.t)
    (res : Completion bool) :
  DataManager.deleteBlock n k d = Some (res, d') →
  DataManager.findById k (DataManager.blocks d') = None
  ∧ ∃ d'',
      DataManager.deleteBlock (S m) k d' = Some (Normal true, d'')
      ∧ DataManager.blocks d'' = DataManager.blocks d'
      ∧ written d' d'' = [DataManager.Delete k].
Proof.
  intros Hrun.
  destruct (deleteBlock_post _ _ _ _ _ Hrun) as (log & -> & Hdel & _).
  destruct Hdel as (_ & _ & Hblocks & Hparents).
  assert (∀ b, b ∈ DataManager.blocks d' → id b ≠ k) as Hgone.
  { intros b Hb E. rewrite Hblocks in Hb. apply list_elem_of_filter in Hb as [Hout _].
    apply Hout. rewrite E, elem_of_app, list_elem_of_singleton. by right. }
  split.
  { apply findById_None. intros b Hb. by apply Hgone. }
  rewrite deleteBlock_S, filter_none.
  - eexists. split; [reflexivity|]. simpl. split.
    + by apply filter_all.
    + by apply written_app.
  - intros b Hb Hp. apply (Hparents b k Hb Hp).
    rewrite elem_of_app, list_elem_of_singleton. by right.
Qed.

(** X5.  [deleteBlock] of a block that lies on a cycle of parents never
    settles: with unique keys, whatever the depth allowed to the
    recursion, the call is still pending. *)
Theorem deleteBlock_cycle_pending (k : string) (d : DataManager.t) :
  uniqueKeys (DataManager.blocks d) →
  descendantOf (DataManager.blocks d) k k →
  ∀ n, DataManager.deleteBlock n k d = None.
Proof. intros Hu Hk n. by apply deleteBlock_cycle. Qed.

(** X6.  [reorderBlocks] on any list of ids, repeated or foreign ids
    included, settles and leaves the keys of the store as they were.  An
    id of the page that is listed several times ends with the index of its
    last occurrence as order.  Whatever the list, a stored record differs
    from what it was in [order] and [updatedAt] at most. *)
Theorem reorderBlocks_last_occurrence (host : Host) (p : string)
    (orderedIds : list string) (d : DataManager.t) :
  ∃ d',
    DataManager.reorderBlocks host p orderedIds d = Some (Normal tt, d')
    ∧ id <$> DataManager.blocks d' = id <$> DataManager.blocks d
    ∧ (∀ j k, orderedIds !! j = Some k →
         (∀ j', j < j' → orderedIds !! j' ≠ Some k) →
         inPage p (DataManager.blocks d) k →
         ∃ b', DataManager.findById k (DataManager.blocks d') = Some b'
               ∧ order b' = Z.of_nat j)
    ∧ (∀ k b', DataManager.findById k (DataManager.blocks d') = Some b' →
         ∃ b, DataManager.findById k (DataManager.blocks d) = Some b
              ∧ id b' = id b ∧ pageId b' = pageId b ∧ parentId b' = parentId b
              ∧ type b' = type b ∧ content b' = content b
              ∧ properties b' = properties b ∧ createdAt b' = createdAt b).
Proof.
  rewrite reorderBlocks_unfold. set (bs := DataManager.sortByOrder _).
  assert (∀ k, is_Some (DataManager.findById k bs) ↔ inPage p (DataManager.blocks d) k)
    as Hsel by (intros k; apply getBlocks_selects).
  destruct (reorder_loop host bs orderedIds 0 d)
    as (d' & J & Hrun & Hkeys & Hframe & Hset & _).
  { intros k (b & Hb & _ & Hk)%Hsel. apply findById_is_Some. eauto. }
  exists d'. split; [done|]. split; [done|]. split.
  - intros j k Hj Hlast Hk.
    destruct (Hset j k Hj Hlast) as (b & t & _ & Hb'); [by apply Hsel|].
    eexists. split; [exact Hb'|]. done.
  - intros k b' Hb'.
    destruct (decide (k ∈ orderedIds)) as [Hin|Hout].
    + destruct (DataManager.findById k bs) as [b0|] eqn:Hk.
      * destruct (last_occurrence _ _ Hin) as (j & Hj & Hlast).
        destruct (Hset j k Hj Hlast) as (b & t & Hb & Hnew); [by rewrite Hk|].
        rewrite Hb' in Hnew. injection Hnew as ->. exists b. by repeat split.
      * rewrite Hframe in Hb' by (right; rewrite Hk; by intros [? ?]).
        exists b'. by repeat split.
    + rewrite Hframe in Hb' by (by left). exists b'. by repeat split.
Qed.

(** X7.  Writing an order and reading it back: after [reorderBlocks] on
    the ids of the blocks of a page, each once, [getBlocks] returns the
    blocks of the page in the order of the list, with orders 0, 1, 2, ... *)
Theorem reorderBlocks_getBlocks (host : Host) (p : string)
    (orderedIds : list string) (d : DataManager.t) :
  uniqueKeys (DataManager.blocks d) →
  NoDup orderedIds →
  (∀ k, k ∈ orderedIds ↔ inPage p (DataManager.blocks d) k) →
  ∃ d' bs,
    DataManager.reorderBlocks host p orderedIds d = Some (Normal tt, d')
    ∧ DataManager.getBlocks p d' = Some (Normal bs, d')
    ∧ id <$> bs = orderedIds
    ∧ order <$> bs = Z.of_nat <$> seq 0 (length orderedIds).
Proof.
  intros Huniq Hnodup Hperm.
  destruct (reorder_listed host p orderedIds d Huniq Hnodup Hperm)
    as (d' & Hrun & Hkeys & Hlisted & Hall).
  destruct (getBlocks_listed p orderedIds d') as (bs & Hget & Hids & Hord); [|done..|].
  { unfold uniqueKeys. by rewrite Hkeys. }
  by exists d', bs.
Qed.

(** ** The block manager: loading, deleting and moving blocks *)

Section ManagerMore.
Variable host : Host.
Implicit Types (s : BlockManager.t) (b r : Block) (k : string) (d : DataManager.t).

Lemma setAll_lookup (bs : list Block) (m : gmap string Block) k :
  uniqueKeys bs →
  BlockManager.setAll bs m !! k
  = match DataManager.findById k bs with Some b => Some b | None => m !! k end.
Proof.
  unfold BlockManager.setAll. revert m.
  induction bs as [|b bs IH]; intros m Hu; [done|].
  unfold uniqueKeys in Hu. rewrite fmap_cons in Hu. apply NoDup_cons in Hu as [Hb Hu].
  simpl foldl. rewrite IH by done. rewrite findById_cons.
  destruct (DataManager.findById k bs) as [x|] eqn:Hx.
  - apply findById_Some in Hx as [Hx Hid]. rewrite decide_False; [done|].
    intros E. apply Hb. rewrite E, <-Hid. by apply list_elem_of_fmap_2.
  - case_decide as E.
    + rewrite <-E. by rewrite lookup_insert_eq.
    + by rewrite lookup_insert_ne.
Qed.

Lemma loadBlocks_unfold (p : string) s d :
  BlockManager.data s = Some d →
  BlockManager.loadBlocks p s =
    let bs := DataManager.sortByOrder
                (filter (λ b, DataManager.indexKey DataManager.pageIdIndex b = Some p)
                   (DataManager.blocks d)) in
    Some (Normal tt,
          BlockManager.mk (BlockManager.setAll bs ∅) (BlockManager.renderBlock <$> bs)
            (BlockManager.currentPage s) (Some d)).
Proof.
  intros Hd. unfold BlockManager.loadBlocks, bind, BlockManager.viaData.
  cbn [BlockManager.data BlockManager.setPage BlockManager.setBlocks]. rewrite Hd.
  reflexivity.
Qed.

Lemma uniqueKeys_getBlocks (p : string) (l : list Block) :
  uniqueKeys l →
  uniqueKeys (DataManager.sortByOrder
                (filter (λ b, DataManager.indexKey DataManager.pageIdIndex b = Some p) l)).
Proof. intros Hu. unfold uniqueKeys. rewrite sortByOrder_perm. by apply uniqueKeys_filter. Qed.

Lemma blockId_renderBlock (bs : list Block) :
  BlockManager.blockId <$> (BlockManager.renderBlock <$> bs) = id <$> bs.
Proof. by rewrite <-list_fmap_compose. Qed.

(** [reorderBlocks] when the page shows the stored blocks of the open
    page, each once. *)
Lemma reorderBlocks_stores_page s (p : string) d :
  BlockManager.currentPage s = Some p → p ≠ "" →
  BlockManager.data s = Some d →
  uniqueKeys (DataManager.blocks d) →
  NoDup (BlockManager.blockId <$> BlockManager.page s) →
  (∀ k, k ∈ BlockManager.blockId <$> BlockManager.page s
        ↔ inPage p (DataManager.blocks d) k) →
  ∃ d',
    BlockManager.reorderBlocks host s
    = Some (Normal tt, BlockManager.setData (Some d') s)
    ∧ uniqueKeys (DataManager.blocks d')
    ∧ (∀ i k, (BlockManager.blockId <$> BlockManager.page s) !! i = Some k →
         ∃ b', b' ∈ DataManager.blocks d' ∧ id b' = k ∧ pageId b' = p
               ∧ order b' = Z.of_nat i)
    ∧ (∀ b', b' ∈ DataManager.blocks d' → pageId b' = p →
         ∃ i, (BlockManager.blockId <$> BlockManager.page s) !! i = Some (id b')
              ∧ order b' = Z.of_nat i).
Proof.
  intros Hp Hne Hd Huniq Hnodup Hperm.
  destruct (reorder_listed host p _ d Huniq Hnodup Hperm)
    as (d' & Hrun & Hkeys & Hlisted & Hall).
  exists d'. split.
  - unfold BlockManager.reorderBlocks. rewrite Hp.
    destruct (String.eqb_spec p "") as [|_]; [done|].
    unfold bind. rewrite (viaData_Some _ _ d) by done. by rewrite Hrun.
  - split; [|done]. unfold uniqueKeys. by rewrite Hkeys.
Qed.

(** Both branches of the [drop] listener leave the dragged element at the
    index the target had. *)
Lemma place_moved (i j : nat) (p : list BlockManager.Element) x :
  i ≠ j → p !! i = Some x →
  (if decide (i < j) then BlockManager.placeAfter i j p
   else BlockManager.placeBefore i j p)
  = take j (delete i p) ++ x :: drop j (delete i p).
Proof.
  intros Hne Hx. unfold BlockManager.placeAfter, BlockManager.placeBefore. rewrite Hx.
  destruct (decide (i < j)); [|done]. cbv zeta.
  by replace (S (j - 1)) with j by lia.
Qed.

Lemma moved_facts {A} (i j : nat) (p : list A) (x : A) :
  p !! i = Some x → j < length p →
  let p' := take j (delete i p) ++ x :: drop j (delete i p) in
  p' !! j = Some x ∧ delete j p' = delete i p ∧ p' ≡ₚ p.
Proof.
  intros Hx Hj p'.
  assert (length (take j (delete i p)) = j) as Hlen.
  { apply length_take_le. rewrite length_delete by done. lia. }
  split; [by apply list_lookup_middle|]. split.
  - unfold p'. rewrite <-Hlen at 1. by rewrite delete_middle, take_drop.
  - unfold p'. rewrite <-Permutation_middle, take_drop.
    symmetry. by apply delete_Permutation.
Qed.

Lemma insertByKey_last b (l : list Block) :
  (∀ y, y ∈ l → String.ltb (id b) (id y) = false) →
  DataManager.insertByKey b l = l ++ [b].
Proof.
  induction l as [|x l IH]; intros Hl; [done|]. simpl.
  rewrite (Hl x) by left. f_equal. apply IH. intros ? ?. apply Hl. by right.
Qed.

(** A list in ascending order is determined by its blocks of each order,
    in their sequence. *)
Lemma sorted_classes_eq (l1 l2 : list Block) :
  StronglySorted (λ x y, (order x ≤ order y)%Z) l1 →
  StronglySorted (λ x y, (order x ≤ order y)%Z) l2 →
  (∀ z : Z, filter (λ b, order b = z) l1 = filter (λ b, order b = z) l2) →
  l1 = l2.
Proof.
  revert l2. induction l1 as [|a l1 IH]; intros [|c l2] H1 H2 Hz; [done|..].
  - specialize (Hz (order c)). by rewrite filter_cons_True in Hz.
  - specialize (Hz (order a)). by rewrite filter_cons_True in Hz.
  - apply StronglySorted_cons in H1 as [Ha H1].
    apply StronglySorted_cons in H2 as [Hc H2].
    rewrite Forall_forall in Ha. rewrite Forall_forall in Hc.
    assert (order c ≤ order a)%Z as Hca.
    { assert (a ∈ c :: l2) as [->|Hin]%elem_of_cons; [|lia|by apply Hc].
      eapply (list_elem_of_filter (λ b, order b = order a)).
      rewrite <-Hz, filter_cons_True by done. left. }
    assert (order a ≤ order c)%Z as Hac.
    { assert (c ∈ a :: l1) as [->|Hin]%elem_of_cons; [|lia|by apply Ha].
      eapply (list_elem_of_filter (λ b, order b = order c)).
      rewrite Hz, filter_cons_True by done. left. }
    assert (a = c) as ->.
    { specialize (Hz (order a)). rewrite !filter_cons_True in Hz by lia. congruence. }
    f_equal. apply IH; [done..|]. intros z. specialize (Hz z).
    rewrite !filter_cons in Hz. case_decide; congruence.
Qed.

End ManagerMore.

(** X8.  [loadBlocks] drops what the collection and the page held.
    Without a data layer both end empty.  With one, the store is read and
    not written; the page shows the renderings of the array [getBlocks]
    returns, in its order; and the collection holds, under its id, each
    stored block of the page and nothing else. *)
Theorem loadBlocks_collection (p : string) (s : BlockManager.t) :
  (BlockManager.data s = None →
   BlockManager.loadBlocks p s
   = Some (Normal tt, BlockManager.mk ∅ [] (BlockManager.currentPage s) None))
  ∧ (∀ d, BlockManager.data s = Some d → uniqueKeys (DataManager.blocks d) →
       ∃ bs s',
         DataManager.getBlocks p d = Some (Normal bs, d)
         ∧ BlockManager.loadBlocks p s = Some (Normal tt, s')
         ∧ BlockManager.data s' = Some d
         ∧ BlockManager.page s' = BlockManager.renderBlock <$> bs
         ∧ ∀ k b, BlockManager.blocks s' !! k = Some b
                  ↔ b ∈ DataManager.blocks d ∧ pageId b = p ∧ id b = k).
Proof.
  split.
  - intros Hd. destruct s as [m pg cp dt]. simpl in Hd. subst dt. reflexivity.
  - intros d Hd Hu. rewrite (loadBlocks_unfold p s d Hd). cbv zeta.
    set (bs := DataManager.sortByOrder _).
    exists bs, (BlockManager.mk (BlockManager.setAll bs ∅)
                  (BlockManager.renderBlock <$> bs) (BlockManager.currentPage s) (Some d)).
    split; [done|]. split; [done|]. split; [done|]. split; [done|].
    intros k b. cbn [BlockManager.blocks].
    pose proof (uniqueKeys_getBlocks p _ Hu) as Hubs. fold bs in Hubs.
    rewrite setAll_lookup by done.
    assert (∀ x, x ∈ bs ↔ x ∈ DataManager.blocks d ∧ pageId x = p) as Hbs.
    { intros x. unfold bs. rewrite sortByOrder_perm, list_elem_of_filter. simpl.
      split; [by intros [[= ?] ?] | by intros [? ->]]. }
    split.
    + destruct (DataManager.findById k bs) as [x|] eqn:Hx; [|by rewrite lookup_empty].
      intros [= ->]. apply findById_Some in Hx as [Hx Hid]. apply Hbs in Hx. tauto.
    + intros (Hb & Hp & <-).
      by rewrite (findById_unique _ _ Hubs (proj2 (Hbs b) (conj Hb Hp))).
Qed.

(** X9.  [deleteBlock] of the block manager takes one record out of the
    collection and, when the block is rendered, one element out of the
    page: the first one that carries its id, the page being one element
    shorter; when no element carries the id the page is as it was.  The
    store deletes the block with all its descendants: the record of a
    descendant is no longer stored, yet it stays in the collection and
    its element stays on the page. *)
Theorem deleteBlock_leaves_descendants (k : string) (s : BlockManager.t)
    (d : DataManager.t) :
  BlockManager.data s = Some d →
  well_founded (childOf (DataManager.blocks d)) →
  ∃ fuel s' d',
    (∀ n, fuel ≤ n → BlockManager.deleteBlock n k s = Some (Normal tt, s'))
    ∧ BlockManager.data s' = Some d'
    ∧ BlockManager.blocks s' = delete k (BlockManager.blocks s)
    ∧ DataManager.findById k (DataManager.blocks d') = None
    ∧ (∀ i e, BlockManager.querySelector k (BlockManager.page s) = Some (i, e) →
              BlockManager.page s' = delete i (BlockManager.page s)
              ∧ BlockManager.page s !! i = Some e
              ∧ BlockManager.blockId e = k
              ∧ S (length (BlockManager.page s')) = length (BlockManager.page s))
    ∧ (BlockManager.querySelector k (BlockManager.page s) = None →
       BlockManager.page s' = BlockManager.page s)
    ∧ (∀ e, e ∈ BlockManager.page s → BlockManager.blockId e ≠ k →
            e ∈ BlockManager.page s')
    ∧ (∀ x, descendantOf (DataManager.blocks d) x k →
            DataManager.findById x (DataManager.blocks d') = None
            ∧ BlockManager.blocks s' !! x = BlockManager.blocks s !! x).
Proof.
  intros Hd Hwf.
  destruct (deleteBlock_settles _ Hwf k d (reflexivity _)) as (fuel & [res d'] & Hrun).
  destruct (deleteBlock_post _ _ _ _ _ (Hrun fuel (le_n _))) as (log & -> & Hdel & _).
  pose proof Hdel as (_ & _ & Hblocks & _).
  assert (∀ x, x ∈ log ++ [k] → DataManager.findById x (DataManager.blocks d') = None)
    as Hgone.
  { intros x Hx. apply findById_None. intros b Hb E. rewrite Hblocks in Hb.
    apply list_elem_of_filter in Hb as [Hout _]. apply Hout. by rewrite E. }
  assert (k ∈ log ++ [k]) as Hk by (rewrite elem_of_app, list_elem_of_singleton; by right).
  eexists fuel, _, d'. split; [|split; [|split; [|split; [|split; [|split; [|split]]]]]].
  - intros n Hn. unfold BlockManager.deleteBlock, bind.
    rewrite (viaData_Some _ _ d) by done. rewrite (Hrun n Hn). reflexivity.
  - done.
  - done.
  - by apply Hgone.
  - intros i e Hq. cbn [BlockManager.page BlockManager.setPage BlockManager.setData
                        BlockManager.setBlocks].
    rewrite Hq. apply list_find_Some in Hq as (Hi & Hk0 & _).
    split; [done|]. split; [done|]. split; [done|].
    rewrite length_delete by (by eexists).
    apply lookup_lt_Some in Hi. lia.
  - intros Hq. cbn [BlockManager.page BlockManager.setPage BlockManager.setData
                    BlockManager.setBlocks]. by rewrite Hq.
  - intros e He Hne. cbn [BlockManager.page BlockManager.setPage BlockManager.setData
                          BlockManager.setBlocks].
    destruct (BlockManager.querySelector k (BlockManager.page s)) as [[i e0]|] eqn:Hq;
      [|done].
    apply list_find_Some in Hq as (Hi & Hk0 & _).
    apply list_elem_of_lookup_1 in He as [j Hj].
    assert (j ≠ i) as Hji by (intros ->; congruence).
    destruct (decide (j < i)).
    + apply (list_elem_of_lookup_2 _ j). by rewrite list_lookup_delete_lt.
    + apply (list_elem_of_lookup_2 _ (j - 1)). rewrite list_lookup_delete_ge by lia.
      by replace (S (j - 1)) with j by lia.
  - intros x Hx. split.
    + apply Hgone. by eapply deletedBy_closed.
    + cbn [BlockManager.blocks BlockManager.setPage BlockManager.setData
           BlockManager.setBlocks].
      apply lookup_delete_ne. intros ->. by apply wf_tc_irrefl in Hx.
Qed.

(** X10.  The order of the page outlives a reload.  When the page shows
    the stored blocks of the open page, each once, [reorderBlocks] leaves
    the collection and the page as they are (the orders held by the
    collection are not refreshed), and a [loadBlocks] after it shows the
    blocks in the same sequence, the block at index [i] with order [i]. *)
Theorem reorderBlocks_then_loadBlocks (host : Host) (s : BlockManager.t)
    (p : string) (d : DataManager.t) :
  BlockManager.currentPage s = Some p → p ≠ "" →
  BlockManager.data s = Some d →
  uniqueKeys (DataManager.blocks d) →
  NoDup (BlockManager.blockId <$> BlockManager.page s) →
  (∀ k, k ∈ BlockManager.blockId <$> BlockManager.page s
        ↔ inPage p (DataManager.blocks d) k) →
  ∃ s1 s2,
    BlockManager.reorderBlocks host s = Some (Normal tt, s1)
    ∧ BlockManager.blocks s1 = BlockManager.blocks s
    ∧ BlockManager.page s1 = BlockManager.page s
    ∧ BlockManager.loadBlocks p s1 = Some (Normal tt, s2)
    ∧ BlockManager.blockId <$> BlockManager.page s2
      = BlockManager.blockId <$> BlockManager.page s
    ∧ ∀ i e, BlockManager.page s2 !! i = Some e →
        ∃ b, BlockManager.blocks s2 !! BlockManager.blockId e = Some b
             ∧ order b = Z.of_nat i.
Proof.
  intros Hp Hne Hd Huniq Hnodup Hperm.
  destruct (reorderBlocks_stores_page host s p d Hp Hne Hd Huniq Hnodup Hperm)
    as (d' & Hrun & Huniq' & Hlisted & Hall).
  destruct (getBlocks_listed p _ d' Huniq' Hlisted Hall) as (bs & Hget & Hids & Hord).
  assert (DataManager.sortByOrder
            (filter (λ b, DataManager.indexKey DataManager.pageIdIndex b = Some p)
               (DataManager.blocks d')) = bs) as Hbs by (by injection Hget).
  clear Hget.
  eexists _, _. split; [exact Hrun|]. split; [done|]. split; [done|].
  split; [by apply (loadBlocks_unfold p _ d')|].
  cbv zeta. cbn [BlockManager.page BlockManager.blocks BlockManager.setData
                 BlockManager.data]. rewrite Hbs.
  split; [by rewrite blockId_renderBlock|].
  intros i e Hi. rewrite list_lookup_fmap in Hi.
  destruct (bs !! i) as [b|] eqn:Hb; [|done]. injection Hi as <-.
  exists b. split.
  - rewrite setAll_lookup by (unfold uniqueKeys; by rewrite Hids).
    change (BlockManager.blockId (BlockManager.renderBlock b)) with (id b).
    rewrite (findById_unique bs b); [done| |by eapply list_elem_of_lookup_2].
    unfold uniqueKeys. by rewrite Hids.
  - assert ((order <$> bs) !! i = Some (order b)) as Ho
      by (by rewrite list_lookup_fmap, Hb).
    rewrite Hord, list_lookup_fmap in Ho.
    apply lookup_lt_Some in Hb as Hlt.
    rewrite <-(length_fmap id), Hids in Hlt.
    rewrite lookup_seq_lt in Ho by done. by injection Ho as <-.
Qed.

(** X11.  Dropping a dragged block on another block moves its element to
    the index the target had, whichever way it is dragged; the other
    elements keep their sequence.  The collection is left as it is, and
    in the store every block of the page gets the index of its element as
    order. *)
Theorem drop_moves_block (host : Host) (i j : nat) (s : BlockManager.t)
    (p : string) (d : DataManager.t) (x : BlockManager.Element) :
  BlockManager.currentPage s = Some p → p ≠ "" →
  BlockManager.data s = Some d →
  uniqueKeys (DataManager.blocks d) →
  NoDup (BlockManager.blockId <$> BlockManager.page s) →
  (∀ k, k ∈ BlockManager.blockId <$> BlockManager.page s
        ↔ inPage p (DataManager.blocks d) k) →
  BlockManager.page s !! i = Some x →
  j < length (BlockManager.page s) →
  i ≠ j →
  ∃ s' d',
    BlockManager.drop host (Some i) j s = Some (Normal tt, s')
    ∧ BlockManager.page s' !! j = Some x
    ∧ delete j (BlockManager.page s') = delete i (BlockManager.page s)
    ∧ BlockManager.blocks s' = BlockManager.blocks s
    ∧ BlockManager.data s' = Some d'
    ∧ ∀ pos e, BlockManager.page s' !! pos = Some e →
        ∃ b, DataManager.findById (BlockManager.blockId e) (DataManager.blocks d') = Some b
             ∧ order b = Z.of_nat pos.
Proof.
  intros Hp Hne Hd Huniq Hnodup Hperm Hx Hj Hij.
  destruct (moved_facts i j (BlockManager.page s) x Hx Hj) as (Hat & Hrest & Hmoved).
  set (p' := take j (delete i (BlockManager.page s))
             ++ x :: drop j (delete i (BlockManager.page s))) in *.
  destruct (reorderBlocks_stores_page host (BlockManager.setPage p' s) p d)
    as (d' & Hrun & Huniq' & Hlisted & _); [done..| | |].
  { cbn [BlockManager.page BlockManager.setPage]. by rewrite Hmoved. }
  { intros k. cbn [BlockManager.page BlockManager.setPage]. by rewrite Hmoved. }
  eexists _, d'. split.
  { unfold BlockManager.drop. rewrite decide_True by done.
    rewrite (place_moved i j _ x Hij Hx). exact Hrun. }
  cbn [BlockManager.page BlockManager.blocks BlockManager.data BlockManager.setPage
       BlockManager.setData] in *.
  split; [done|]. split; [done|]. split; [done|]. split; [done|].
  intros pos e He.
  destruct (Hlisted pos (BlockManager.blockId e)) as (b & Hb & Hid & _ & Ho).
  { by rewrite list_lookup_fmap, He. }
  exists b. split; [|done]. rewrite <-Hid. by apply findById_unique.
Qed.

(** X12.  A block created in the middle of a page does not keep its
    place.  Let the page show the stored blocks of the open page in
    ascending order, all orders distinct, with the block after the one at
    index [i] having the next order, and let the new id sort after the
    stored keys.  [createBlock] after the block at [i] puts the new
    element right after it, at index [i + 1], with the order of the block
    that follows; no order is renumbered, and a [loadBlocks] shows the new
    block one place further down, at index [i + 2]. *)
Theorem createBlock_then_loadBlocks (host : Host) (ty : string) (c : option string)
    (options : gmap string PropVal) (i : nat) (s : BlockManager.t) (p : string)
    (d : DataManager.t) (bs : list Block) (r x : Block) :
  BlockManager.currentPage s = Some p → p ≠ "" →
  BlockManager.data s = Some d →
  DataManager.getBlocks p d = Some (Normal bs, d) →
  BlockManager.page s = BlockManager.renderBlock <$> bs →
  (∀ b, b ∈ bs → BlockManager.blocks s !! id b = Some b) →
  NoDup (order <$> bs) →
  bs !! i = Some r → id r ≠ "" →
  bs !! S i = Some x → order x = (order r + 1)%Z →
  DataManager.hasKey (generateId host (DataManager.tick d)) (DataManager.blocks d) = false →
  (∀ y, y ∈ DataManager.blocks d →
        String.ltb (generateId host (DataManager.tick d)) (id y) = false) →
  let newId := generateId host (DataManager.tick d) in
  ∃ s1 s2,
    (∃ el, BlockManager.createBlock host ty c (Some (BlockManager.ElementRef i)) options s
           = Some (Normal (Some el), s1))
    ∧ BlockManager.blockId <$> BlockManager.page s1
      = take (S i) (id <$> bs) ++ newId :: drop (S i) (id <$> bs)
    ∧ (∀ b, b ∈ bs → ∃ d1, BlockManager.data s1 = Some d1 ∧ b ∈ DataManager.blocks d1)
    ∧ BlockManager.loadBlocks p s1 = Some (Normal tt, s2)
    ∧ BlockManager.blockId <$> BlockManager.page s2
      = take (S (S i)) (id <$> bs) ++ newId :: drop (S (S i)) (id <$> bs).
Proof.
  intros Hp Hne Hd Hget Hpage Hmem Hnodup Hr Hrid Hx Hord Hfresh Hlast newId.
  injection Hget as Hget.
  assert (StronglySorted (λ a b, (order a ≤ order b)%Z) bs) as Hsorted.
  { rewrite <-Hget. apply Sorted_StronglySorted; [|apply sortByOrder_sorted].
    intros ? ? ? ? ?. lia. }
  assert (∀ b, b ∈ bs ↔ b ∈ DataManager.blocks d ∧ pageId b = p) as Hbs.
  { intros b. rewrite <-Hget, sortByOrder_perm, list_elem_of_filter. simpl.
    split; [by intros [[= ?] ?] | by intros [? ->]]. }
  unfold BlockManager.createBlock. rewrite Hp.
  destruct (String.eqb_spec p "") as [|_]; [done|].
  unfold bind. rewrite (viaData_Some _ _ d) by done.
  rewrite createBlock_fresh by done. cbv zeta.
  assert (BlockManager.createOrder s (Some (BlockManager.ElementRef i)) = order x) as Ho.
  { unfold BlockManager.createOrder. simpl. rewrite Hpage, list_lookup_fmap, Hr. simpl.
    destruct (String.eqb_spec (id r) "") as [|_]; [done|].
    rewrite (Hmem r) by (by eapply list_elem_of_lookup_2). by rewrite Hord. }
  cbn [DataManager.i_order DataManager.i_pageId DataManager.i_parentId Js.numOr0].
  rewrite Ho. set (nb := mkBlock _ _ _ _ _ _ _ _ _).
  rewrite (insertByKey_last nb) by done.
  eexists _, _. split; [eexists; reflexivity|].
  cbn [BlockManager.page BlockManager.setPage BlockManager.setBlocks BlockManager.setData
       BlockManager.data].
  split; [|split].
  - unfold BlockManager.insertElement. rewrite decide_True.
    + rewrite Hpage, fmap_app, fmap_cons, fmap_take, fmap_drop, blockId_renderBlock.
      done.
    + rewrite Hpage, length_fmap. by eapply lookup_lt_Some.
  - intros b Hb. eexists. split; [reflexivity|]. cbn [DataManager.blocks].
    apply elem_of_app. left. by apply Hbs.
  - split; [erewrite loadBlocks_unfold by reflexivity; reflexivity|].
    cbv zeta. cbn [BlockManager.page DataManager.blocks].
    rewrite blockId_renderBlock, filter_app.
    rewrite (filter_cons_True _ nb) by done. rewrite filter_nil.
    set (fl := filter _ (DataManager.blocks d)).
    assert (DataManager.sortByOrder (fl ++ [nb])
            = take (S (S i)) bs ++ nb :: drop (S (S i)) bs) as ->.
    2:{ by rewrite fmap_app, fmap_cons, fmap_take, fmap_drop. }
    pose proof (take_drop_middle _ _ _ Hx) as Hsplit.
    rewrite (take_S_r _ _ _ Hx).
    set (A := take (S i) bs) in *. set (B := drop (S (S i)) bs) in *.
    rewrite <-Hsplit in Hsorted, Hnodup.
    apply StronglySorted_app in Hsorted as (HAB & HA & HxB).
    apply StronglySorted_cons in HxB as [HxB HB].
    apply sorted_classes_eq.
    + apply Sorted_StronglySorted; [|apply sortByOrder_sorted].
      intros ? ? ? ? ?. lia.
    + rewrite <-app_assoc. apply StronglySorted_app_2; [|done|].
      * intros a y Ha [->|[->|Hy]%elem_of_cons]%elem_of_cons.
        -- apply HAB; [done | left].
        -- change (order nb) with (order x). apply HAB; [done | left].
        -- apply HAB; [done | by right].
      * simpl. apply StronglySorted_cons. split.
        -- constructor; [done|exact HxB].
        -- apply StronglySorted_cons. split; [exact HxB | done].
    + intros z. rewrite sortByOrder_class, filter_app.
      assert (filter (λ b, order b = z) fl = filter (λ b, order b = z) (A ++ x :: B)) as ->.
      { rewrite Hsplit, <-Hget. symmetry. apply sortByOrder_class. }
      rewrite <-(app_assoc A). simpl. rewrite !filter_app, !filter_cons, filter_nil.
      change (order nb) with (order x).
      destruct (decide (order x = z)) as [Hz|Hz]; [|by rewrite app_nil_r].
      assert (filter (λ b, order b = z) B = []) as ->.
      { apply filter_none. intros b Hb E.
        rewrite fmap_app, fmap_cons in Hnodup.
        apply NoDup_app in Hnodup as (_ & _ & Hnd). apply NoDup_cons in Hnd as [Hnd _].
        apply Hnd. rewrite Hz, <-E. by apply list_elem_of_fmap_2. }
      by rewrite <-app_assoc.
Qed.

(** ** The keyboard in a block and the block menu *)

(** X13.  Backspace in an empty block.  In the first block of the page
    the key is consumed and nothing else happens: the first block is not
    deleted.  In a later block the element and the record of the
    collection are removed at once, the focus goes to the end of the
    block before it, and once the call that was started has settled the
    record is gone from the store. *)
Theorem backspace_in_empty_block (host : Host) (e : Keyboard.Event)
    (m : BlockMenu.t) (s : BlockManager.t) (f : option (nat * option nat))
    (el : BlockManager.Element) (d : DataManager.t) :
  Keyboard.key e = Keyboard.Backspace →
  Keyboard.targetText e = "" →
  BlockManager.page s !! Keyboard.block e = Some el →
  is_Some (BlockManager.blocks s !! BlockManager.blockId el) →
  NoDup (BlockManager.blockId <$> BlockManager.page s) →
  BlockManager.data s = Some d →
  well_founded (childOf (DataManager.blocks d)) →
  let st := Keyboard.mk (BlockMenu.mkApp m s) f in
  (Keyboard.block e = 0 →
     ∀ fuel, Keyboard.handleKeydown host fuel e st = Keyboard.mkResult true false st None)
  ∧ (∀ j, Keyboard.block e = S j →
       ∃ fuel0 s' d', ∀ fuel, fuel0 ≤ fuel →
         let r := Keyboard.handleKeydown host fuel e st in
         Keyboard.defaultPrevented r = true
         ∧ Keyboard.threw r = false
         ∧ BlockManager.page (BlockMenu.manager (Keyboard.app (Keyboard.afterHandler r)))
           = delete (S j) (BlockManager.page s)
         ∧ BlockManager.blocks (BlockMenu.manager (Keyboard.app (Keyboard.afterHandler r)))
           = delete (BlockManager.blockId el) (BlockManager.blocks s)
         ∧ (∀ prev txt, BlockManager.page s !! j = Some prev →
              BlockManager.textContent prev = Some txt →
              Keyboard.focus (Keyboard.afterHandler r)
              = Some (j, if String.eqb txt "" then None else Some (String.length txt)))
         ∧ Keyboard.settle r
           = Some (Normal tt, Keyboard.mk (BlockMenu.mkApp m s')
                                (Keyboard.focus (Keyboard.afterHandler r)))
         ∧ BlockManager.page s' = delete (S j) (BlockManager.page s)
         ∧ BlockManager.data s' = Some d'
         ∧ DataManager.findById (BlockManager.blockId el) (DataManager.blocks d') = None).
Proof.
  intros Hkey Htext Hel [b Hb] Hnd Hd Hwf st.
  split.
  - intros H0 fuel. unfold Keyboard.handleKeydown. cbn [Keyboard.app BlockMenu.manager st].
    by rewrite Hel, Hb, Hkey, Htext, H0.
  - intros j Hj.
    destruct (deleteBlock_settles _ Hwf (BlockManager.blockId el) d (reflexivity _))
      as (fuel0 & [res d'] & Hrun).
    destruct (deleteBlock_post _ _ _ _ _ (Hrun fuel0 (le_n _))) as (log & -> & Hdel & _).
    pose proof Hdel as (_ & _ & Hblocks & _).
    rewrite Hj in Hel.
    pose proof (querySelector_own _ _ _ Hnd Hel) as Hq.
    exists fuel0,
      (BlockManager.setData (Some d')
         (BlockManager.deleteBlock_begin (BlockManager.blockId el) s)), d'.
    intros fuel Hfuel. unfold Keyboard.handleKeydown.
    cbn [Keyboard.app BlockMenu.manager st]. rewrite Hj, Hel, Hb, Hkey, Htext.
    change (String.eqb "" "") with true. cbv iota. rewrite Hq.
    cbn [fmap option_fmap option_map fst].
    rewrite decide_False by lia. rewrite (decide_False (P := S j < j)) by lia.
    cbn [Keyboard.defaultPrevented Keyboard.threw Keyboard.afterHandler Keyboard.app
         Keyboard.focus BlockMenu.manager].
    assert (BlockManager.page (BlockManager.deleteBlock_begin (BlockManager.blockId el) s)
            = delete (S j) (BlockManager.page s)) as Hpage'.
    { unfold BlockManager.deleteBlock_begin. by rewrite Hq. }
    split; [done|]. split; [done|]. split; [done|]. split; [done|]. split.
    { intros prev txt Hprev Htxt. unfold Keyboard.focusBlock.
      rewrite Hpage', list_lookup_delete_lt by lia. by rewrite Hprev, Htxt. }
    split.
    { unfold Keyboard.settle.
      cbn [Keyboard.later Keyboard.afterHandler Keyboard.app BlockMenu.manager].
      unfold bind. rewrite (viaData_Some _ _ d) by done. by rewrite (Hrun fuel Hfuel). }
    split; [done|]. split; [done|].
    apply findById_None. intros x Hx E. rewrite Hblocks in Hx.
    apply list_elem_of_filter in Hx as [Hout _]. apply Hout.
    rewrite E, elem_of_app, list_elem_of_singleton. by right.
Qed.

(** X14.  Enter at the end of a block (or in an empty block), without
    Shift.  The key is consumed and [createBlock] is started; the handler
    then throws, because it hands the pending call, not the element, to
    [focusBlock].  The call that was started still creates an empty
    paragraph, top-level, with the order of the block plus one, and puts
    its element right after the block; the focus stays where it was. *)
Theorem enter_creates_paragraph (host : Host) (fuel : nat) (e : Keyboard.Event)
    (m : BlockMenu.t) (s : BlockManager.t) (f : option (nat * option nat))
    (el : BlockManager.Element) (b : Block) (p : string) (d : DataManager.t) :
  Keyboard.key e = Keyboard.Enter →
  Keyboard.shiftKey e = false →
  Keyboard.focusOffset e = String.length (Keyboard.targetText e)
  ∨ Keyboard.targetText e = "" →
  BlockManager.page s !! Keyboard.block e = Some el →
  BlockManager.blockId el ≠ "" →
  BlockManager.blocks s !! BlockManager.blockId el = Some b →
  BlockManager.currentPage s = Some p → p ≠ "" →
  BlockManager.data s = Some d →
  DataManager.hasKey (generateId host (DataManager.tick d)) (DataManager.blocks d) = false →
  let st := Keyboard.mk (BlockMenu.mkApp m s) f in
  let r := Keyboard.handleKeydown host fuel e st in
  Keyboard.defaultPrevented r = true
  ∧ Keyboard.threw r = true
  ∧ Keyboard.afterHandler r = st
  ∧ ∃ nb s',
      Keyboard.settle r = Some (Normal tt, Keyboard.mk (BlockMenu.mkApp m s') f)
      ∧ BlockManager.page s'
        = take (S (Keyboard.block e)) (BlockManager.page s)
          ++ BlockManager.renderBlock nb :: drop (S (Keyboard.block e)) (BlockManager.page s)
      ∧ BlockManager.blocks s' = <[id nb := nb]> (BlockManager.blocks s)
      ∧ id nb = generateId host (DataManager.tick d)
      ∧ pageId nb = p ∧ parentId nb = None
      ∧ type nb = "paragraph" ∧ content nb = ""
      ∧ order nb = (order b + 1)%Z.
Proof.
  intros Hkey Hshift Hend Hel Hid Hb Hp Hne Hd Hfresh st r.
  assert (negb (Keyboard.shiftKey e)
          && (Nat.eqb (Keyboard.focusOffset e) (String.length (Keyboard.targetText e))
              || String.eqb (Keyboard.targetText e) "") = true) as Hcond.
  { rewrite Hshift. simpl. destruct Hend as [->| ->].
    - by rewrite Nat.eqb_refl.
    - by rewrite orb_true_r. }
  assert (r = Keyboard.mkResult true true st
                (Some (let* _ := BlockManager.createBlock host "paragraph" None
                                   (Some (BlockManager.ElementRef (Keyboard.block e))) ∅ in
                       ret tt))) as ->.
  { unfold r, Keyboard.handleKeydown. cbn [Keyboard.app BlockMenu.manager st].
    by rewrite Hel, Hb, Hkey, Hcond. }
  split; [done|]. split; [done|]. split; [done|].
  unfold Keyboard.settle.
  cbn [Keyboard.later Keyboard.afterHandler Keyboard.app BlockMenu.manager st].
  unfold bind at 1. unfold BlockManager.createBlock. rewrite Hp.
  destruct (String.eqb_spec p "") as [|_]; [done|].
  unfold bind. rewrite (viaData_Some _ _ d) by done.
  rewrite createBlock_fresh by done. cbv zeta.
  set (nb := mkBlock _ _ _ _ _ _ _ _ _).
  eexists nb, _. split; [reflexivity|].
  cbn [BlockManager.page BlockManager.blocks BlockManager.setPage BlockManager.setBlocks
       BlockManager.setData].
  split.
  { unfold BlockManager.insertElement. rewrite decide_True; [done|].
    by eapply lookup_lt_Some. }
  split; [done|]. split; [done|]. split; [done|]. split; [done|].
  split; [done|]. split; [done|].
  unfold nb. cbn [order DataManager.i_order Js.numOr0].
  unfold BlockManager.createOrder. simpl. rewrite Hel.
  destruct (String.eqb_spec (BlockManager.blockId el) "") as [|_]; [done|].
  by rewrite Hb.
Qed.

(** X15.  What the keys leave alone.  A key in an element that is not a
    block of the collection does nothing.  Shift+Enter, and Enter away
    from the end of a block that has text, do nothing.  The slash, the
    arrows and any other key never change the collection, the page or the
    store and start no call; only the slash changes the menu. *)
Theorem handleKeydown_frame (host : Host) (fuel : nat) (e : Keyboard.Event)
    (st : Keyboard.t) :
  let s := BlockMenu.manager (Keyboard.app st) in
  let r := Keyboard.handleKeydown host fuel e st in
  (BlockManager.page s !! Keyboard.block e = None → r = Keyboard.unhandled st)
  ∧ (∀ el, BlockManager.page s !! Keyboard.block e = Some el →
       BlockManager.blocks s !! BlockManager.blockId el = None →
       r = Keyboard.unhandled st)
  ∧ (Keyboard.key e = Keyboard.Enter →
     Keyboard.shiftKey e = true
     ∨ (Keyboard.focusOffset e ≠ String.length (Keyboard.targetText e)
        ∧ Keyboard.targetText e ≠ "") →
     r = Keyboard.unhandled st)
  ∧ (Keyboard.key e = Keyboard.Slash ∨ Keyboard.key e = Keyboard.ArrowUp
     ∨ Keyboard.key e = Keyboard.ArrowDown ∨ Keyboard.key e = Keyboard.Other →
     BlockMenu.manager (Keyboard.app (Keyboard.afterHandler r)) = s
     ∧ Keyboard.later r = None ∧ Keyboard.threw r = false)
  ∧ (Keyboard.key e ≠ Keyboard.Slash →
     BlockMenu.menu (Keyboard.app (Keyboard.afterHandler r))
     = BlockMenu.menu (Keyboard.app st)).
Proof.
  intros s r. unfold r, Keyboard.handleKeydown. fold s.
  split; [by intros ->|]. split; [by intros el -> ->|].
  destruct (BlockManager.page s !! Keyboard.block e) as [el|]; [|by repeat split].
  destruct (BlockManager.blocks s !! BlockManager.blockId el) as [b|]; [|by repeat split].
  split; [|split].
  - intros -> Hcase.
    assert (negb (Keyboard.shiftKey e)
            && (Nat.eqb (Keyboard.focusOffset e) (String.length (Keyboard.targetText e))
                || String.eqb (Keyboard.targetText e) "") = false) as ->; [|done].
    destruct Hcase as [->|[Hoff Htxt]]; [done|].
    apply andb_false_iff. right. apply orb_false_iff. split.
    + by apply Nat.eqb_neq.
    + by apply String.eqb_neq.
  - intros [->|[->|[->| ->]]].
    + by destruct (String.eqb (Keyboard.targetText e) "").
    + destruct (Nat.eqb (Keyboard.focusOffset e) 0); [|done].
      by destruct (Keyboard.block e).
    + by destruct (Nat.eqb (Keyboard.focusOffset e) _).
    + done.
  - intros Hkey. destruct (Keyboard.key e); try done.
    + by destruct (_ && _).
    + destruct (String.eqb (Keyboard.targetText e) ""); [|done].
      by destruct (Keyboard.block e).
    + destruct (Nat.eqb (Keyboard.focusOffset e) 0); [|done].
      by destruct (Keyboard.block e).
    + by destruct (Nat.eqb (Keyboard.focusOffset e) _).
Qed.

(** X16.  The slash in an empty block opens the menu on that block with
    the first item selected and changes nothing else: no call is started,
    and the listener of the menu, which the key reaches next, does nothing
    with it.  A click on an item of the menu then converts the block in
    place: its record and its element take the type of the item, no
    element is added, and the menu closes.  The outcome is the same
    whether or not the click listener of the document, which the click
    reaches while [selectType] is at its [await], hides the menu. *)
Theorem slash_then_click (host : Host) (fuel : nat) (e : Keyboard.Event)
    (m : BlockMenu.t) (s : BlockManager.t) (f : option (nat * option nat))
    (el : BlockManager.Element) (b : Block) (ty : string) :
  Keyboard.key e = Keyboard.Slash →
  Keyboard.targetText e = "" →
  BlockManager.page s !! Keyboard.block e = Some el →
  BlockManager.textContent el = Some "" →
  BlockManager.blockId el ≠ "" →
  BlockManager.blocks s !! BlockManager.blockId el = Some b →
  NoDup (BlockManager.blockId <$> BlockManager.page s) →
  (∀ d, BlockManager.data s = Some d →
        is_Some (DataManager.findById (BlockManager.blockId el) (DataManager.blocks d))) →
  let r := Keyboard.handleKeydown host fuel e (Keyboard.mk (BlockMenu.mkApp m s) f) in
  let a := Keyboard.app (Keyboard.afterHandler r) in
  Keyboard.defaultPrevented r = true
  ∧ Keyboard.threw r = false
  ∧ Keyboard.later r = None
  ∧ Keyboard.afterHandler r
    = Keyboard.mk (BlockMenu.mkApp (BlockMenu.mk true 0 (Some (Keyboard.block e))) s) f
  ∧ BlockMenu.keydown host BlockMenu.renderedItems BlockMenu.OtherKey a = Some (Normal tt, a)
  ∧ ∃ s',
      BlockMenu.itemClick host (Some ty) a
      = Some (Normal tt, BlockMenu.mkApp (BlockMenu.mk false 0 None) s')
      ∧ (∀ inside,
           (BlockMenu.selectType_begin host ty a).2
             (BlockMenu.click inside (BlockMenu.selectType_begin host ty a).1)
           = Some (Normal tt, BlockMenu.mkApp (BlockMenu.mk false 0 None) s'))
      ∧ BlockManager.blocks s'
        = <[BlockManager.blockId el := withType b ty]> (BlockManager.blocks s)
      ∧ BlockManager.page s'
        = <[Keyboard.block e := BlockManager.renderBlock (withType b ty)]>
            (BlockManager.page s)
      ∧ length (BlockManager.page s') = length (BlockManager.page s).
Proof.
  intros Hkey Htext Hel Hempty Hid Hb Hnd Hstored r a.
  assert (r = Keyboard.mkResult true false
                (Keyboard.mk (BlockMenu.mkApp (BlockMenu.mk true 0 (Some (Keyboard.block e))) s)
                   f) None) as Hr.
  { unfold r, Keyboard.handleKeydown. cbn [Keyboard.app BlockMenu.manager].
    by rewrite Hel, Hb, Hkey, Htext. }
  unfold a. rewrite Hr. cbn [Keyboard.defaultPrevented Keyboard.later Keyboard.threw
                              Keyboard.afterHandler Keyboard.app].
  split; [done|]. split; [done|]. split; [done|]. split; [done|]. split; [done|].
  set (m1 := BlockMenu.mk true 0 (Some (Keyboard.block e))).
  destruct (selectType_converts host ty m1 s (Keyboard.block e) el b)
    as (s' & Hrun & Hblocks & Hpage & _); try done; [by left|].
  exists s'. split; [exact Hrun|]. split; [|split; [done|split; [done|]]].
  - intros inside. rewrite selectType_begin_rest in Hrun.
    rewrite (selectType_begin_converts host ty m1 s (Keyboard.block e) el b) in Hrun |- *
      by done.
    cbn [fst snd] in Hrun |- *. unfold BlockMenu.click.
    cbn [BlockMenu.menu BlockMenu.manager BlockMenu.isOpen m1 andb].
    unfold bind, BlockMenu.onManager in Hrun |- *.
    cbn [BlockMenu.menu BlockMenu.manager] in Hrun.
    destruct inside; cbn [negb BlockMenu.menu BlockMenu.manager]; [exact Hrun|].
    destruct (BlockManager.convertBlock_resume _ _ _ _ _ _) as [[[[]|x] s0]|];
      [|done|done].
    by injection Hrun as <-.
  - by rewrite Hpage, length_insert.
Qed.

(** X25.  Enter in the empty block on which the menu is open.  The key
    reaches [handleKeydown] first, which starts [createBlock], and then
    the listener of the menu, which picks the selected item.  Once both
    calls have settled the block has the type of the item, in the
    collection, on the page and in the store, the menu is closed, and an
    empty paragraph has been added right after the block, with the order
    of the block plus one: the page is one element longer, where a pick
    by click adds none. *)
Theorem enter_in_menu_adds_paragraph (host : Host) (items : list string) (offset : nat)
    (m : BlockMenu.t) (s : BlockManager.t) (f : option (nat * option nat)) (i : nat)
    (el : BlockManager.Element) (b r : Block) (ty p : string) (d : DataManager.t) :
  BlockMenu.isOpen m = true →
  BlockMenu.targetBlock m = Some i →
  BlockMenu.item items (BlockMenu.selectedIndex m) = Some ty →
  BlockManager.page s !! i = Some el →
  BlockManager.textContent el = Some "" →
  BlockManager.blockId el ≠ "" →
  BlockManager.blocks s !! BlockManager.blockId el = Some b →
  NoDup (BlockManager.blockId <$> BlockManager.page s) →
  BlockManager.currentPage s = Some p → p ≠ "" →
  BlockManager.data s = Some d →
  DataManager.findById (BlockManager.blockId el) (DataManager.blocks d) = Some r →
  DataManager.hasKey (generateId host (DataManager.tick d)) (DataManager.blocks d) = false →
  ∃ nb s' d',
    Keyboard.enterInMenu host items false i "" offset (Keyboard.mk (BlockMenu.mkApp m s) f)
    = Some (Normal tt, BlockMenu.mkApp (BlockMenu.hide m) s')
    ∧ id nb = generateId host (DataManager.tick d)
    ∧ pageId nb = p ∧ parentId nb = None
    ∧ type nb = "paragraph" ∧ content nb = ""
    ∧ order nb = (order b + 1)%Z
    ∧ BlockManager.blocks s'
      = <[id nb := nb]>
          (<[BlockManager.blockId el := withType b ty]> (BlockManager.blocks s))
    ∧ BlockManager.page s'
      = take i (BlockManager.page s)
        ++ BlockManager.renderBlock (withType b ty) :: BlockManager.renderBlock nb
           :: drop (S i) (BlockManager.page s)
    ∧ length (BlockManager.page s') = S (length (BlockManager.page s))
    ∧ BlockManager.data s' = Some d'
    ∧ DataManager.findById (id nb) (DataManager.blocks d') = Some nb
    ∧ DataManager.findById (BlockManager.blockId el) (DataManager.blocks d')
      = Some (withUpdatedAt (withType r ty)
                (toISOString host (S (S (S (DataManager.tick d))))))
    ∧ written d d'
      = [DataManager.Add nb;
         DataManager.Put (withUpdatedAt (withType r ty)
                            (toISOString host (S (S (S (DataManager.tick d))))))].
Proof.
  intros Hopen Ht Hitem Hel Hempty Hid Hb Hnd Hp Hpne Hd Hr Hfresh.
  unfold Keyboard.enterInMenu.
  assert (Keyboard.handleKeydown host 0 (Keyboard.mkEvent Keyboard.Enter false i "" offset)
            (Keyboard.mk (BlockMenu.mkApp m s) f)
          = Keyboard.mkResult true true (Keyboard.mk (BlockMenu.mkApp m s) f)
              (Some (let* _ := BlockManager.createBlock host "paragraph" None
                                 (Some (BlockManager.ElementRef i)) ∅ in
                     ret tt))) as ->.
  { unfold Keyboard.handleKeydown.
    cbn [Keyboard.app BlockMenu.manager Keyboard.block Keyboard.key Keyboard.shiftKey
         Keyboard.targetText Keyboard.focusOffset].
    rewrite Hel, Hb. simpl. by rewrite orb_true_r. }
  cbn [Keyboard.later Keyboard.afterHandler Keyboard.app BlockMenu.manager].
  assert (BlockManager.createBlock_begin (Some (BlockManager.ElementRef i)) s
          = Some (p, (order b + 1)%Z)) as ->.
  { unfold BlockManager.createBlock_begin. rewrite Hp.
    destruct (String.eqb_spec p "") as [|_]; [done|].
    unfold BlockManager.createOrder. simpl. rewrite Hel.
    destruct (String.eqb_spec (BlockManager.blockId el) "") as [|_]; [done|].
    by rewrite Hb. }
  unfold BlockMenu.enter_begin. cbn [BlockMenu.menu]. rewrite Hopen, Hitem. cbn [negb].
  rewrite (selectType_begin_converts host ty m s i el b) by done.
  cbn [BlockMenu.manager BlockMenu.menu].
  unfold BlockManager.createBlock_resume. unfold bind at 1.
  rewrite (viaData_Some _ _ d) by done.
  rewrite createBlock_fresh by done. cbv zeta.
  set (nb := mkBlock _ _ _ _ _ _ _ _ _).
  set (d1 := DataManager.mk _ _ _).
  assert (BlockManager.blockId el ≠ id nb) as Hne.
  { intros E. apply not_true_iff_false in Hfresh. apply Hfresh, hasKey_is_Some.
    change (generateId host (DataManager.tick d)) with (id nb). rewrite <-E. by eexists. }
  assert (DataManager.findById (BlockManager.blockId el) (DataManager.blocks d1) = Some r)
    as Hr1.
  { unfold d1. cbn [DataManager.blocks]. rewrite findById_insertByKey by done.
    by rewrite decide_False. }
  unfold bind, BlockMenu.onManager, BlockManager.convertBlock_resume.
  cbn [BlockMenu.manager BlockMenu.menu]. unfold bind.
  rewrite (viaData_Some _ _ d1) by done.
  rewrite (updateBlock_found host _ _ _ _ Hr1). cbv zeta.
  eexists nb, _, _. split; [reflexivity|].
  cbn [BlockManager.page BlockManager.blocks BlockManager.setPage BlockManager.setBlocks
       BlockManager.setData BlockManager.data BlockMenu.manager].
  split; [done|]. split; [done|]. split; [done|]. split; [done|]. split; [done|].
  split; [done|]. split; [done|].
  assert (i < length (BlockManager.page s)) as Hlt by (by eapply lookup_lt_Some).
  assert (<[i := BlockManager.renderBlock (withType b ty)]>
            (BlockManager.insertElement (Some (BlockManager.ElementRef i))
               (BlockManager.renderBlock nb) (BlockManager.page s))
          = take i (BlockManager.page s)
            ++ BlockManager.renderBlock (withType b ty) :: BlockManager.renderBlock nb
               :: drop (S i) (BlockManager.page s)) as Hpage.
  { unfold BlockManager.insertElement. rewrite decide_True by done.
    rewrite (take_S_r _ _ el) by done. rewrite <-app_assoc.
    rewrite insert_app_r_alt by (rewrite length_take; lia).
    rewrite length_take, Nat.min_l by lia. by rewrite Nat.sub_diag. }
  split; [exact Hpage|]. split.
  { rewrite Hpage, length_app, length_take, Nat.min_l by lia. simpl.
    rewrite length_drop. lia. }
  split; [reflexivity|]. split; [|split].
  - cbn [DataManager.blocks]. rewrite findById_put, decide_False.
    + unfold d1. cbn [DataManager.blocks]. rewrite findById_insertByKey by done.
      by rewrite decide_True.
    + apply findById_Some in Hr as [_ Hr]. simpl. intros E. apply Hne.
      rewrite <-Hr. symmetry. exact E.
  - cbn [DataManager.blocks]. rewrite findById_put, decide_True; [done|].
    apply findById_Some in Hr as [_ Hr]. by simpl.
  - apply written_app. unfold d1. cbn [DataManager.journal]. by rewrite <-app_assoc.
Qed.

(** ** [Editor.checkInlineMarkdown]: the wrapping patterns *)

Section InlineMore.
Variable host : Host.
Implicit Types (s p r a b d : string) (c : ascii).

#[local] Arguments Editor.exec : simpl never.
#[local] Arguments Editor.substring : simpl never.
#[local] Arguments String.substring : simpl nomatch.

Lemma chars_append a b :
  list_ascii_of_string (a +:+ b) = list_ascii_of_string a ++ list_ascii_of_string b.
Proof. induction a as [|x a IH]; [done|]. rewrite append_String. simpl. by rewrite IH. Qed.

Lemma chars_length a : length (list_ascii_of_string a) = String.length a.
Proof. induction a as [|x a IH]; [done|]. simpl. by rewrite IH. Qed.

Lemma span_chars c s a b : Editor.span c s = (a, b) → c ∉ list_ascii_of_string a.
Proof.
  revert a b. induction s as [|x s IH]; intros a b E; simpl in E.
  - injection E as <- <-. apply not_elem_of_nil.
  - destruct (Ascii.eqb_spec x c) as [->|Hx]; [injection E as <- <-; apply not_elem_of_nil|].
    destruct (Editor.span c s) as [a' b'] eqn:Hs. injection E as <- <-. simpl.
    apply not_elem_of_cons. split; [done|]. by eapply IH.
Qed.

Lemma span_stop c body t :
  c ∉ list_ascii_of_string body →
  Editor.span c (body +:+ String c t) = (body, String c t).
Proof.
  induction body as [|x body IH]; intros Hfree.
  - rewrite append_Empty. simpl. by rewrite Ascii.eqb_refl.
  - rewrite append_String. simpl in *. apply not_elem_of_cons in Hfree as [Hx Hfree].
    destruct (Ascii.eqb_spec x c) as [->|_]; [done|]. by rewrite IH.
Qed.

Lemma stripPrefix_append d t : Editor.stripPrefix d (d +:+ t) = Some t.
Proof.
  induction d as [|x d IH]; [by rewrite append_Empty; destruct t|].
  rewrite append_String. simpl. by rewrite Ascii.eqb_refl.
Qed.

Lemma wrapHere_body d c s body :
  Editor.wrapHere d c s = Some body →
  body ≠ "" ∧ c ∉ list_ascii_of_string body.
Proof.
  unfold Editor.wrapHere. intros E.
  destruct (Editor.stripPrefix d s) as [r|]; [|done].
  destruct (Editor.span c r) as [a b] eqn:Hs.
  destruct (String.eqb_spec a "") as [|Ha]; [done|]. simpl in E.
  destruct (String.eqb b d); [|done]. injection E as <-.
  split; [done | by eapply span_chars].
Qed.

(** The pattern matches where the delimiters stand. *)
Lemma wrapHere_found d1 c body :
  body ≠ "" → c ∉ list_ascii_of_string body →
  Editor.wrapHere (String c d1) c (String c d1 +:+ body +:+ String c d1) = Some body.
Proof.
  intros Hne Hfree. unfold Editor.wrapHere.
  rewrite stripPrefix_append, span_stop by done.
  destruct (String.eqb_spec body "") as [|_]; [done|]. simpl.
  by rewrite Ascii.eqb_refl, String.eqb_refl.
Qed.

(** The pattern matches nowhere before: the group would hold the last
    character of the opening delimiter. *)
Lemma wrapHere_early d0 c pre t :
  pre ≠ "" →
  Editor.wrapHere (d0 +:+ String c "") c
    (pre +:+ (d0 +:+ String c "") +:+ t +:+ (d0 +:+ String c "")) = None.
Proof.
  intros Hpre.
  destruct (Editor.wrapHere _ c _) as [a0|] eqn:Hw; [|done]. exfalso.
  apply wrapHere_body in Hw as Hfree. destruct Hfree as [_ Hfree].
  apply wrapHere_whole in Hw. apply (f_equal list_ascii_of_string) in Hw.
  rewrite !chars_append in Hw. simpl in Hw.
  set (P := list_ascii_of_string pre) in *. set (D := list_ascii_of_string d0) in *.
  set (A := list_ascii_of_string a0) in *. set (T := list_ascii_of_string t) in *.
  assert (0 < length P) as HP.
  { unfold P. rewrite chars_length. destruct pre; [done | simpl; lia]. }
  apply Hfree. apply (list_elem_of_lookup_2 _ (length P - 1)).
  assert ((P ++ (D ++ [c]) ++ T ++ D ++ [c]) !! (length P + length D) = Some c) as Hc.
  { rewrite lookup_app_r by lia. rewrite lookup_app_l by (rewrite length_app; simpl; lia).
    rewrite lookup_app_r by lia. by replace (length P + length D - length P - length D)
      with 0 by lia. }
  rewrite Hw in Hc. rewrite lookup_app_r in Hc by (rewrite length_app; simpl; lia).
  rewrite length_app in Hc. simpl in Hc.
  replace (length P + length D - (length D + 1)) with (length P - 1) in Hc by lia.
  apply lookup_app_Some in Hc as [Hc|[Hge Hc]]; [done|]. exfalso.
  apply (f_equal length) in Hw. repeat (rewrite ?length_app in Hw; simpl in Hw). lia.
Qed.

Lemma exec_here (pat : Editor.Pattern) s g :
  Editor.here pat s = Some g → Editor.exec pat s = Some (s, g).
Proof. intros E. unfold Editor.exec. destruct s; by rewrite E. Qed.

Lemma exec_skip (pat : Editor.Pattern) (x : ascii) s :
  Editor.here pat (String x s) = None →
  Editor.exec pat (String x s) = Editor.exec pat s.
Proof. intros E. unfold Editor.exec at 1. fold Editor.exec. by rewrite E. Qed.

(** The leftmost match of a wrapping pattern in a text that ends with
    delimiter, group and delimiter. *)
Lemma exec_wrap_found d0 d1 c (w : string) pre body :
  String c d1 = d0 +:+ String c "" →
  body ≠ "" → c ∉ list_ascii_of_string body →
  Editor.exec (Editor.Wrap (String c d1) c w)
    (pre +:+ String c d1 +:+ body +:+ String c d1)
  = Some (String c d1 +:+ body +:+ String c d1, (body, "")).
Proof.
  intros Hd Hne Hfree. induction pre as [|x pre IH].
  - rewrite append_Empty. apply exec_here. simpl. by rewrite wrapHere_found.
  - rewrite append_String, exec_skip; [done|]. simpl.
    rewrite <-append_String, Hd. by rewrite wrapHere_early.
Qed.

(** A wrapping pattern does not match a text that ends with another
    character than its delimiter. *)
Lemma exec_other_end d0 (x y : ascii) c (w : string) s s0 :
  s = s0 +:+ String y "" → x ≠ y →
  Editor.exec (Editor.Wrap (d0 +:+ String x "") c w) s = None.
Proof.
  intros -> Hxy.
  destruct (Editor.exec _ _) as [m0|] eqn:E; [|done].
  apply exec_Wrap_ends in E as [pre' E]. by apply append_last_inj in E.
Qed.

(** The doubled delimiter does not match a text that ends with a single
    one after a group. *)
Lemma exec_doubled c (w : string) pre body :
  body ≠ "" → c ∉ list_ascii_of_string body →
  Editor.exec (Editor.Wrap (String c (String c "")) c w)
    (pre +:+ String c "" +:+ body +:+ String c "") = None.
Proof.
  intros Hne Hfree.
  destruct (Editor.exec _ _) as [[whole [g1 g2]]|] eqn:E; [|done]. exfalso.
  apply exec_suffix in E as [Hh [pre' E]]. simpl in Hh.
  destruct (Editor.wrapHere _ c whole) as [g|] eqn:Hw; [|done].
  apply wrapHere_whole in Hw as ->.
  apply (f_equal list_ascii_of_string) in E. rewrite !chars_append in E. simpl in E.
  destruct (list_ascii_of_string body) as [|y l _] eqn:Hl using rev_ind.
  { destruct body; [done | discriminate]. }
  assert (y ≠ c) as Hy.
  { intros ->. apply Hfree. apply elem_of_app. right. left. }
  assert ((list_ascii_of_string pre ++ c :: l) ++ [y; c]
          = (list_ascii_of_string pre' ++ c :: c :: list_ascii_of_string g) ++ [c; c])
    as E'.
  { revert E. rewrite <-!app_assoc. simpl. by rewrite <-?app_assoc. }
  apply app_inj_2 in E' as [_ [= ?]]; done.
Qed.

Lemma substring_skip_append a b :
  String.substring (String.length a) (String.length b) (a +:+ b) = b.
Proof.
  induction a as [|x a IH]; [rewrite append_Empty; apply substring_all|].
  rewrite append_String. simpl. exact IH.
Qed.

(** The first pattern that matches, when it is a wrapping one. *)
Lemma tryPatterns_wrap (ps1 ps2 : list Editor.Pattern) d c (w : string)
    (ed : Editor.t) (i : nat) pre whole rest g1 g2 :
  (∀ q, q ∈ ps1 → Editor.exec q (pre +:+ whole) = None) →
  Editor.exec (Editor.Wrap d c w) (pre +:+ whole) = Some (whole, (g1, g2)) →
  Editor.tryPatterns host (ps1 ++ Editor.Wrap d c w :: ps2) ed i
    (pre +:+ whole +:+ rest) (String.length (pre +:+ whole))
  = (true, Editor.mk (Editor.splice i pre (Editor.Wrapper w g1) rest
                        (Editor.childNodes ed))
             (Some (Editor.InParent (i + 2)))).
Proof.
  intros Hnone Hexec.
  assert (Editor.substring 0 (String.length (pre +:+ whole)) (pre +:+ whole +:+ rest)
          = pre +:+ whole) as Htb.
  { unfold Editor.substring. rewrite Nat.sub_0_r, <-append_assoc.
    apply substring_0_append. }
  induction ps1 as [|q ps1 IH].
  - simpl. rewrite Htb, Hexec. f_equal. f_equal. f_equal.
    + unfold Editor.substring. rewrite length_append, Nat.sub_0_r.
      replace (String.length pre + String.length whole - String.length whole)
        with (String.length pre) by lia.
      apply substring_0_append.
    + unfold Editor.substring. rewrite <-append_assoc, (length_append (pre +:+ whole)).
      replace (String.length (pre +:+ whole) + String.length rest
               - String.length (pre +:+ whole)) with (String.length rest) by lia.
      apply substring_skip_append.
  - simpl. rewrite Htb, (Hnone q) by left. apply IH. intros ? ?. apply Hnone. by right.
Qed.

End InlineMore.

(** X17.  [checkInlineMarkdown] does nothing, and does not consume the
    key, unless the text before the cursor ends with one of the closing
    characters of the patterns: a star, an underscore, a tilde, a backtick
    or a closing parenthesis. *)
Theorem checkInlineMarkdown_quiet (host : Host) (ed : Editor.t) :
  (∀ i cursorPos text pre c,
     Editor.selection ed = Some (Editor.InChild i cursorPos) →
     Editor.childNodes ed !! i = Some (Editor.Text text) →
     Editor.substring 0 cursorPos text = pre +:+ String c "" →
     c ≠ "*"%char ∧ c ≠ "_"%char ∧ c ≠ "~"%char ∧ c ≠ "`"%char ∧ c ≠ ")"%char) →
  Editor.checkInlineMarkdown host ed = (false, ed).
Proof.
  intros Hlast. unfold Editor.checkInlineMarkdown.
  destruct (Editor.selection ed) as [[i cursorPos|]|] eqn:Hsel; [|done..].
  destruct (Editor.childNodes ed !! i) as [[text| |]|] eqn:Hnode; [|done..].
  assert (∀ d0 (x : ascii) c w,
            x = "*"%char ∨ x = "_"%char ∨ x = "~"%char ∨ x = "`"%char →
            Editor.exec (Editor.Wrap (d0 +:+ String x "") c w)
              (Editor.substring 0 cursorPos text) = None) as Hwrap.
  { intros d0 x c w Hx.
    destruct (Editor.exec _ _) as [m0|] eqn:E; [|done]. exfalso.
    apply exec_Wrap_ends in E as [pre E].
    destruct (Hlast i cursorPos text pre x eq_refl Hnode E) as (? & ? & ? & ? & ?).
    by destruct Hx as [->|[->|[->| ->]]]. }
  assert (Editor.exec Editor.Link (Editor.substring 0 cursorPos text) = None) as Hlink.
  { destruct (Editor.exec _ _) as [m0|] eqn:E; [|done]. exfalso.
    apply exec_Link_ends in E as [pre E].
    destruct (Hlast i cursorPos text pre ")"%char eq_refl Hnode E) as (? & ? & ? & ? & ?).
    done. }
  unfold Editor.patterns, Editor.tryPatterns.
  rewrite (Hwrap "*" "*"%char), (Hwrap "_" "_"%char), (Hwrap "" "*"%char),
    (Hwrap "" "_"%char), (Hwrap "~" "~"%char), (Hwrap "" "`"%char), Hlink by tauto.
  done.
Qed.

(** X18.  The six wrapping patterns.  When the text before the cursor
    ends with a delimiter, a group and the delimiter again, the group not
    empty and free of the character of the delimiter, the key is consumed
    and the text node is split in three: the text before the opening
    delimiter, an element of the pattern's tag holding the group, and the
    text after the cursor; both delimiters are dropped, and the cursor
    stands right after the element. *)
Theorem checkInlineMarkdown_wraps (host : Host) (ed : Editor.t) (i : nat)
    (d : string) (c : ascii) (w pre body rest : string) :
  Editor.Wrap d c w ∈ Editor.patterns →
  Editor.selection ed
  = Some (Editor.InChild i (String.length (pre +:+ d +:+ body +:+ d))) →
  Editor.childNodes ed !! i = Some (Editor.Text (pre +:+ (d +:+ body +:+ d) +:+ rest)) →
  body ≠ "" →
  c ∉ list_ascii_of_string body →
  Editor.checkInlineMarkdown host ed
  = (true,
     Editor.mk
       (take i (Editor.childNodes ed)
        ++ [Editor.Text pre; Editor.Wrapper w body; Editor.Text rest]
        ++ drop (S i) (Editor.childNodes ed))
       (Some (Editor.InParent (i + 2)))).
Proof.
  intros Hin Hsel Hnode Hne Hfree.
  unfold Editor.checkInlineMarkdown. rewrite Hsel, Hnode.
  change (take i (Editor.childNodes ed) ++ _ ++ drop (S i) (Editor.childNodes ed))
    with (Editor.splice i pre (Editor.Wrapper w body) rest (Editor.childNodes ed)).
  assert (∀ d0 (x y : ascii) c' w' s0,
            pre +:+ d +:+ body +:+ d = s0 +:+ String y "" → x ≠ y →
            Editor.exec (Editor.Wrap (d0 +:+ String x "") c' w')
              (pre +:+ d +:+ body +:+ d) = None) as Hother.
  { intros d0 x y c' w' s0 E Hxy. by eapply exec_other_end. }
  unfold Editor.patterns in *.
  repeat (apply elem_of_cons in Hin as [Heq|Hin]); try (by apply elem_of_nil in Hin);
    try discriminate Heq; injection Heq as -> -> ->.
  - apply (tryPatterns_wrap host [] _ "**" "*" "strong" ed i pre _ rest body "").
    + by intros q ?%elem_of_nil.
    + by apply (exec_wrap_found "*" "*" "*").
  - apply (tryPatterns_wrap host [Editor.Wrap "**" "*" "strong"] _ "__" "_" "strong"
             ed i pre _ rest body "").
    + intros q ->%list_elem_of_singleton.
      apply (Hother "*" "*"%char "_"%char _ _ (pre +:+ "__" +:+ body +:+ "_")); [|done].
      by rewrite !append_assoc.
    + by apply (exec_wrap_found "_" "_" "_").
  - apply (tryPatterns_wrap host
             [Editor.Wrap "**" "*" "strong"; Editor.Wrap "__" "_" "strong"] _
             "*" "*" "em" ed i pre _ rest body "").
    + intros q [->|[->|[]%elem_of_nil]%elem_of_cons]%elem_of_cons.
      * by apply exec_doubled.
      * apply (Hother "_" "_"%char "*"%char _ _ (pre +:+ "*" +:+ body)); [|done].
        by rewrite !append_assoc.
    + by apply (exec_wrap_found "" "" "*").
  - apply (tryPatterns_wrap host
             [Editor.Wrap "**" "*" "strong"; Editor.Wrap "__" "_" "strong";
              Editor.Wrap "*" "*" "em"] _ "_" "_" "em" ed i pre _ rest body "").
    + intros q [->|[->|[->|[]%elem_of_nil]%elem_of_cons]%elem_of_cons]%elem_of_cons.
      * apply (Hother "*" "*"%char "_"%char _ _ (pre +:+ "_" +:+ body)); [|done].
        by rewrite !append_assoc.
      * by apply exec_doubled.
      * apply (Hother "" "*"%char "_"%char _ _ (pre +:+ "_" +:+ body)); [|done].
        by rewrite !append_assoc.
    + by apply (exec_wrap_found "" "" "_").
  - apply (tryPatterns_wrap host
             [Editor.Wrap "**" "*" "strong"; Editor.Wrap "__" "_" "strong";
              Editor.Wrap "*" "*" "em"; Editor.Wrap "_" "_" "em"] _
             "~~" "~" "s" ed i pre _ rest body "").
    + assert (pre +:+ "~~" +:+ body +:+ "~~"
              = (pre +:+ "~~" +:+ body +:+ "~") +:+ "~") as E
        by (by rewrite !append_assoc).
      intros q [->|[->|[->|[->|[]%elem_of_nil]%elem_of_cons]%elem_of_cons]%elem_of_cons]%elem_of_cons.
      * by apply (Hother "*" "*"%char "~"%char _ _ _ E).
      * by apply (Hother "_" "_"%char "~"%char _ _ _ E).
      * by apply (Hother "" "*"%char "~"%char _ _ _ E).
      * by apply (Hother "" "_"%char "~"%char _ _ _ E).
    + by apply (exec_wrap_found "~" "~" "~").
  - apply (tryPatterns_wrap host
             [Editor.Wrap "**" "*" "strong"; Editor.Wrap "__" "_" "strong";
              Editor.Wrap "*" "*" "em"; Editor.Wrap "_" "_" "em";
              Editor.Wrap "~~" "~" "s"] _ "`" "`" "code" ed i pre _ rest body "").
    + assert (pre +:+ "`" +:+ body +:+ "`" = (pre +:+ "`" +:+ body) +:+ "`") as E
        by (by rewrite !append_assoc).
      intros q [->|[->|[->|[->|[->|[]%elem_of_nil]%elem_of_cons]%elem_of_cons]%elem_of_cons]%elem_of_cons]%elem_of_cons.
      * by apply (Hother "*" "*"%char "`"%char _ _ _ E).
      * by apply (Hother "_" "_"%char "`"%char _ _ _ E).
      * by apply (Hother "" "*"%char "`"%char _ _ _ E).
      * by apply (Hother "" "_"%char "`"%char _ _ _ E).
      * by apply (Hother "~" "~"%char "`"%char _ _ _ E).
    + by apply (exec_wrap_found "" "" "`").
Qed.

(** ** [sanitizeUrl] on its own result *)

Section SanitizeMore.
Implicit Types (s t : string) (c : ascii).

#[local] Arguments Js.startsWith : simpl never.

Lemma trimEnd_idem s : Js.trimEnd (Js.trimEnd s) = Js.trimEnd s.
Proof.
  induction s as [|c s IH]; [done|]. simpl.
  destruct (Js.trimEnd s) as [|c' t] eqn:Ht.
  - destruct (Js.isWhiteSpace c) eqn:Hc; [done|]. simpl. by rewrite Hc.
  - simpl. simpl in IH. by rewrite IH.
Qed.

Lemma trimStart_head s :
  Js.trimStart s = "" ∨ ∃ c t, Js.trimStart s = String c t ∧ Js.isWhiteSpace c = false.
Proof.
  induction s as [|c s IH]; [by left|]. simpl.
  destruct (Js.isWhiteSpace c) eqn:Hc; [done|]. right. by exists c, s.
Qed.

Lemma trimEnd_head c t :
  Js.isWhiteSpace c = false → ∃ t', Js.trimEnd (String c t) = String c t'.
Proof.
  intros Hc. simpl. destruct (Js.trimEnd t); [|by eexists].
  rewrite Hc. by eexists.
Qed.

Lemma trim_idem s : Js.trim (Js.trim s) = Js.trim s.
Proof.
  unfold Js.trim. destruct (trimStart_head s) as [->|(c & t & -> & Hc)]; [done|].
  destruct (trimEnd_head c t Hc) as [t' Ht']. rewrite Ht' at 1. simpl Js.trimStart.
  rewrite Hc, <-Ht'. apply trimEnd_idem.
Qed.

End SanitizeMore.

(** X19.  [sanitizeUrl] is idempotent, in the block manager and in the
    editor: applied to its own answer it returns that answer, and the
    answer has no white space at either end. *)
Theorem sanitizeUrl_idempotent (host : Host) (url : Js.value) (allowDataUri : bool) :
  BlockManager.sanitizeUrl host
    (Js.Str (BlockManager.sanitizeUrl host url allowDataUri)) allowDataUri
  = BlockManager.sanitizeUrl host url allowDataUri
  ∧ Editor.sanitizeUrl host (Js.Str (Editor.sanitizeUrl host url))
    = Editor.sanitizeUrl host url
  ∧ Js.trim (BlockManager.sanitizeUrl host url allowDataUri)
    = BlockManager.sanitizeUrl host url allowDataUri
  ∧ Js.trim (Editor.sanitizeUrl host url) = Editor.sanitizeUrl host url.
Proof.
  assert (∀ a s,
            BlockManager.sanitizeUrl host (Js.Str s) a = ""
            ∨ (BlockManager.sanitizeUrl host (Js.Str s) a = Js.trim s
               ∧ BlockManager.sanitizeUrl host (Js.Str (Js.trim s)) a = Js.trim s))
    as Hblock.
  { intros a s. unfold BlockManager.sanitizeUrl, Js.falsy.
    destruct (String.eqb_spec s "") as [|_]; [by left|].
    destruct (String.eqb_spec (Js.trim s) "") as [E|_].
    { rewrite E. left.
      destruct (a && _); [done|]. destruct (URL_protocol host ""); [|done].
      by destruct (_ || _). }
    rewrite trim_idem.
    destruct (a && Js.startsWith (Js.trim s) "data:image/"); [by right|].
    destruct (URL_protocol host (Js.trim s)) as [pr|]; [|by left].
    destruct (String.eqb pr "http:" || String.eqb pr "https:"); [by right | by left]. }
  assert (∀ s,
            Editor.sanitizeUrl host (Js.Str s) = ""
            ∨ (Editor.sanitizeUrl host (Js.Str s) = Js.trim s
               ∧ Editor.sanitizeUrl host (Js.Str (Js.trim s)) = Js.trim s))
    as Heditor.
  { intros s. unfold Editor.sanitizeUrl, Js.falsy.
    destruct (String.eqb_spec s "") as [|_]; [by left|].
    destruct (String.eqb_spec (Js.trim s) "") as [E|_].
    { rewrite E. left. destruct (URL_protocol host ""); [|done]. by destruct (_ || _). }
    rewrite trim_idem.
    destruct (URL_protocol host (Js.trim s)) as [pr|]; [|by left].
    destruct (String.eqb pr "http:" || String.eqb pr "https:"); [by right | by left]. }
  destruct url as [| | | |s|]; try done.
  destruct (Hblock allowDataUri s) as [Eb|[Eb Eb']],
    (Heditor s) as [Ee|[Ee Ee']]; rewrite ?Eb, ?Ee, ?Eb', ?Ee', ?trim_idem; done.
Qed.

(** ** AppState: recent pages, favorites and their persistence *)

Section AppStateFacts.
Variable json : AppState.Json.
Implicit Types (a : AppState.t) (l : list string) (k pageId : string).

Lemma removeFirst_perm {A} `{EqDecision A} (x : A) (l : list A) :
  x ∈ l → l ≡ₚ x :: AppState.removeFirst x l.
Proof.
  induction l as [|y l IH]; [by intros ?%elem_of_nil|].
  intros Hx. simpl. case_decide as E; [by rewrite E|].
  apply elem_of_cons in Hx as [->|Hx]; [done|].
  by rewrite Permutation_swap, <-IH.
Qed.

Lemma removeFirst_other {A} `{EqDecision A} (x y : A) (l : list A) :
  y ≠ x → y ∈ AppState.removeFirst x l ↔ y ∈ l.
Proof.
  intros Hy. induction l as [|z l IH]; [done|]. simpl.
  case_decide as E.
  - rewrite elem_of_cons. subst z. split; [by right|]. by intros [?|?].
  - by rewrite !elem_of_cons, IH.
Qed.

Lemma removeFirst_snoc {A} `{EqDecision A} (x : A) (l : list A) :
  x ∉ l → AppState.removeFirst x (l ++ [x]) = l.
Proof.
  induction l as [|y l IH]; intros Hx; simpl.
  - by rewrite decide_True.
  - apply not_elem_of_cons in Hx as [Hxy Hx].
    rewrite decide_False by done. by rewrite IH.
Qed.

(** What the constructor takes as recent pages and as favorites. *)
Lemma new_recentPages (st : AppState.Storage) :
  AppState.state (AppState.new json st) !! "recentPages"
  = Some (AppState.VArr (AppState.safeParseJSON json "planner-recent" [] st)).
Proof. reflexivity. Qed.

Lemma new_favorites (st : AppState.Storage) :
  AppState.state (AppState.new json st) !! "favorites"
  = Some (AppState.VArr (AppState.safeParseJSON json "planner-favorites" [] st)).
Proof. reflexivity. Qed.

Lemma set_persisted (key : string) (value : AppState.Val) a :
  key ∈ AppState.persisted →
  AppState.denied (AppState.storage a) = false →
  AppState.set json key value a
  = Some (Normal tt,
          AppState.mk (<[key := value]> (AppState.state a)) (AppState.listeners a)
            (AppState.calls a
             ++ ((λ cb, (cb, value, default AppState.VUndefined (AppState.state a !! key)))
                   <$> default [] (AppState.listeners a !! key)))
            (AppState.mkStorage
               (<[String.append "planner-" (AppState.kebab key) := AppState.stored json value]>
                  (AppState.items (AppState.storage a))) false)).
Proof.
  intros Hkey Hd. unfold AppState.set. by rewrite bool_decide_eq_true_2, Hd.
Qed.

End AppStateFacts.

(** X20.  [addRecentPage] puts the page first in the recent pages, once:
    the new list starts with the page, holds it nowhere else, has at most
    ten entries, holds no id that was not there, keeps a list without
    repetition free of repetition, and drops no id as long as fewer than
    ten were held.  The listeners of [recentPages] are called with the new
    and the old list, and the list is stored under
    [planner-recent-pages]. *)
Theorem addRecentPage_first (json : AppState.Json) (pageId : string)
    (a : AppState.t) (l : list string) :
  AppState.state a !! "recentPages" = Some (AppState.VArr l) →
  AppState.denied (AppState.storage a) = false →
  ∃ l' a',
    AppState.addRecentPage json pageId a = Some (Normal tt, a')
    ∧ AppState.state a' = <["recentPages" := AppState.VArr l']> (AppState.state a)
    ∧ l' !! 0 = Some pageId
    ∧ length l' ≤ 10
    ∧ filter (λ k, k = pageId) l' = [pageId]
    ∧ (∀ k, k ∈ l' → k = pageId ∨ k ∈ l)
    ∧ (NoDup l → NoDup l')
    ∧ (length l < 10 → ∀ k, k ∈ l → k ∈ l')
    ∧ AppState.calls a'
      = AppState.calls a
        ++ ((λ cb, (cb, AppState.VArr l', AppState.VArr l))
              <$> default [] (AppState.listeners a !! "recentPages"))
    ∧ AppState.items (AppState.storage a')
      = <["planner-recent-pages" := AppState.stringify json l']>
          (AppState.items (AppState.storage a)).
Proof.
  intros Hl Hd. unfold AppState.addRecentPage. rewrite Hl. cbv zeta.
  rewrite set_persisted by (done || (right; left)).
  set (f := filter (λ k, k ≠ pageId) l).
  exists (pageId :: take 9 f). eexists. split; [reflexivity|].
  cbn [AppState.state AppState.calls AppState.storage AppState.items].
  assert (∀ k, k ∈ take 9 f → k ≠ pageId ∧ k ∈ l) as Hf.
  { intros k Hk. apply (subseteq_take 9 f) in Hk.
    by apply list_elem_of_filter in Hk. }
  split; [done|]. split; [done|]. split.
  { simpl. rewrite length_take. lia. }
  split.
  { rewrite filter_cons_True by done. f_equal. apply filter_none.
    intros k Hk. by apply Hf. }
  split.
  { intros k [->|Hk]%elem_of_cons; [by left|]. right. by apply Hf. }
  split.
  { intros Hnd. apply NoDup_cons. split.
    - intros Hin. by apply Hf in Hin as [? _].
    - apply (sublist_NoDup _ f); [by apply NoDup_filter | apply sublist_take]. }
  split.
  { intros Hlen k Hk. destruct (decide (k = pageId)) as [->|Hne]; [left|].
    right. rewrite take_ge.
    - by apply list_elem_of_filter.
    - pose proof (length_filter (λ k, k ≠ pageId) l). fold f in H. lia. }
  split; [by rewrite Hl|done].
Qed.

(** X21.  What is written is not what is read: [set] stores the recent
    pages under [planner-recent-pages], and the constructor reads them
    from [planner-recent].  No call of [set], whatever the key and the
    value, changes the item [planner-recent], so an AppState made
    afterwards starts with the recent pages a fresh one had before.  The
    favorites do come back: after [set] of an array as [favorites], a new
    AppState starts with that array, when the host's JSON reads back what
    it writes. *)
Theorem set_persistence (json : AppState.Json) (key : string) (value : AppState.Val)
    (a a' : AppState.t) (res : Completion unit) :
  AppState.set json key value a = Some (res, a') →
  AppState.items (AppState.storage a') !! "planner-recent"
  = AppState.items (AppState.storage a) !! "planner-recent"
  ∧ AppState.state (AppState.new json (AppState.storage a')) !! "recentPages"
    = AppState.state (AppState.new json (AppState.storage a)) !! "recentPages"
  ∧ (∀ l, key = "favorites" → value = AppState.VArr l → res = Normal tt →
          AppState.parseArray json (AppState.stringify json l) = Some l →
          AppState.stringify json l ≠ "" →
          AppState.state (AppState.new json (AppState.storage a')) !! "favorites"
          = Some (AppState.VArr l)).
Proof.
  intros Hset. unfold AppState.set in Hset.
  destruct (bool_decide (key ∈ AppState.persisted)) eqn:Hkey.
  2:{ injection Hset as <- <-. split; [done|]. split; [done|].
      intros l -> _ _ _ _. apply bool_decide_eq_false_1 in Hkey.
      exfalso. apply Hkey. right. right. left. }
  apply bool_decide_eq_true_1 in Hkey.
  destruct (AppState.denied (AppState.storage a)) eqn:Hd.
  { injection Hset as <- <-. split; [done|]. split; [done|]. by intros l _ _ [=]. }
  injection Hset as <- <-.
  cbn [AppState.storage AppState.items].
  assert (String.append "planner-" (AppState.kebab key) ≠ "planner-recent") as Hne.
  { unfold AppState.persisted in Hkey.
    repeat (apply elem_of_cons in Hkey as [->|Hkey]); try done.
    by apply elem_of_nil in Hkey. }
  split; [by rewrite lookup_insert_ne|]. split.
  - rewrite !new_recentPages. unfold AppState.safeParseJSON.
    cbn [AppState.denied AppState.items]. rewrite Hd. by rewrite lookup_insert_ne.
  - intros l -> -> _ Hparse Hstr. rewrite new_favorites. unfold AppState.safeParseJSON.
    cbn [AppState.denied AppState.items].
    change (String.append "planner-" (AppState.kebab "favorites"))
      with "planner-favorites".
    rewrite lookup_insert_eq. cbn [AppState.stored].
    destruct (String.eqb_spec (AppState.stringify json l) "") as [|_]; [done|].
    by rewrite Hparse.
Qed.

(** X22.  [toggleFavorite] on an array of favorites: a page that is not
    in it is added at the end; for a page that is in it, its first
    occurrence is removed.  The other pages stay.  On a list without
    repetition the page is a favorite afterwards exactly when it was not
    before.  The array is stored under [planner-favorites]. *)
Theorem toggleFavorite_flips (json : AppState.Json) (pageId : string)
    (a : AppState.t) (l : list string) :
  AppState.state a !! "favorites" = Some (AppState.VArr l) →
  AppState.denied (AppState.storage a) = false →
  ∃ l' a',
    AppState.toggleFavorite json pageId a = Some (Normal tt, a')
    ∧ AppState.state a' = <["favorites" := AppState.VArr l']> (AppState.state a)
    ∧ (∀ k, k ≠ pageId → k ∈ l' ↔ k ∈ l)
    ∧ (pageId ∉ l → l' = l ++ [pageId])
    ∧ (pageId ∈ l → l ≡ₚ pageId :: l')
    ∧ (NoDup l → NoDup l' ∧ (pageId ∈ l' ↔ pageId ∉ l))
    ∧ AppState.items (AppState.storage a')
      = <["planner-favorites" := AppState.stringify json l']>
          (AppState.items (AppState.storage a)).
Proof.
  intros Hl Hd. unfold AppState.toggleFavorite. rewrite Hl. cbn [AppState.spreadValue].
  rewrite set_persisted by (done || (right; right; left)).
  eexists _, _. split; [reflexivity|].
  cbn [AppState.state AppState.storage AppState.items].
  split; [done|].
  destruct (decide (pageId ∈ l)) as [Hin|Hout].
  - rewrite bool_decide_eq_true_2 by done.
    pose proof (removeFirst_perm pageId l Hin) as Hperm.
    split; [intros k Hk; by apply removeFirst_other|].
    split; [done|]. split; [done|]. split; [|done].
    intros Hnd. rewrite Hperm in Hnd. apply NoDup_cons in Hnd as [Hnot Hnd]. tauto.
  - rewrite bool_decide_eq_false_2 by done.
    split.
    { intros k Hk. rewrite elem_of_app, list_elem_of_singleton. tauto. }
    split; [done|]. split; [done|]. split; [|done].
    intros Hnd. split.
    + apply NoDup_app. split; [done|]. split; [|apply NoDup_singleton].
      by intros x Hx ->%list_elem_of_singleton.
    + rewrite elem_of_app, list_elem_of_singleton. tauto.
Qed.

(** X23.  Listeners are called in the order of their subscription, with
    the new and the old value, and the function [subscribe] returns takes
    the callback out again: for a callback that was not subscribed yet,
    subscribing and unsubscribing leaves the callbacks of the key as they
    were, and a [set] in between calls the earlier callbacks first and the
    new one last, the state holding the value even when storing it fails. *)
Theorem subscribe_set_unsubscribe (json : AppState.Json) (key : string)
    (callback : nat) (value : AppState.Val) (a : AppState.t) :
  callback ∉ default [] (AppState.listeners a !! key) →
  let a1 := AppState.subscribe key callback a in
  default [] (AppState.listeners (AppState.unsubscribe key callback a1) !! key)
  = default [] (AppState.listeners a !! key)
  ∧ ∃ res a2,
      AppState.set json key value a1 = Some (res, a2)
      ∧ AppState.state a2 = <[key := value]> (AppState.state a)
      ∧ AppState.calls a2
        = AppState.calls a
          ++ ((λ cb, (cb, value, default AppState.VUndefined (AppState.state a !! key)))
                <$> default [] (AppState.listeners a !! key))
          ++ [(callback, value, default AppState.VUndefined (AppState.state a !! key))]
      ∧ AppState.listeners a2 = AppState.listeners a1.
Proof.
  intros Hnew a1. split.
  - unfold AppState.unsubscribe, a1, AppState.subscribe.
    cbn [AppState.listeners]. rewrite lookup_insert_eq.
    cbn [AppState.listeners]. rewrite lookup_insert_eq. simpl.
    by apply removeFirst_snoc.
  - unfold AppState.set, a1, AppState.subscribe.
    cbn [AppState.listeners AppState.state AppState.calls AppState.storage].
    rewrite lookup_insert_eq. simpl default. rewrite fmap_app. simpl fmap.
    destruct (bool_decide _); [destruct (AppState.denied _)|];
      eexists _, _; (split; [reflexivity|]); by rewrite <-?app_assoc.
Qed.

(** ** [Utils.slugify] *)

Section Slug.
Implicit Types (s : string) (c : ascii) (b : bool).

Lemma toLowerCase_slug c :
  Utils.isWord (Utils.toLowerCase c) || Js.isWhiteSpace (Utils.toLowerCase c)
  || Ascii.eqb (Utils.toLowerCase c) "-" = true →
  slugChar (Utils.toLowerCase c) || Js.isWhiteSpace (Utils.toLowerCase c) = true.
Proof. destruct c as [[] [] [] [] [] [] [] []]; vm_compute; done. Qed.

Lemma slugChar_fixed c :
  slugChar c = true →
  Utils.toLowerCase c = c ∧ Js.isWhiteSpace c = false
  ∧ Utils.isWord c || Js.isWhiteSpace c || Ascii.eqb c "-" = true.
Proof. destruct c as [[] [] [] [] [] [] [] []]; vm_compute; done. Qed.

Lemma allChars_kept s :
  allChars (λ c, slugChar c || Js.isWhiteSpace c)
    (Utils.keepChars (λ c, Utils.isWord c || Js.isWhiteSpace c || Ascii.eqb c "-")
       (Utils.mapChars Utils.toLowerCase s)) = true.
Proof.
  induction s as [|c s IH]; [done|]. simpl.
  destruct (Utils.isWord _ || _ || _) eqn:E; [|done]. simpl.
  by rewrite toLowerCase_slug, IH.
Qed.

Lemma allChars_spaces b s :
  allChars (λ c, slugChar c || Js.isWhiteSpace c) s = true →
  allChars slugChar (Utils.runsToHyphen Js.isWhiteSpace b s) = true.
Proof.
  revert b. induction s as [|c s IH]; intros b; [done|]. simpl.
  intros [Hc Hs]%andb_true_iff.
  destruct (Js.isWhiteSpace c) eqn:E.
  - destruct b; simpl; by apply IH.
  - rewrite orb_false_r in Hc. simpl. rewrite Hc. by apply IH.
Qed.

Lemma allChars_hyphens b s :
  allChars slugChar s = true →
  allChars slugChar (Utils.runsToHyphen (λ c, Ascii.eqb c "-") b s) = true.
Proof.
  revert b. induction s as [|c s IH]; intros b; [done|]. simpl.
  intros [Hc Hs]%andb_true_iff.
  destruct (Ascii.eqb c "-") eqn:E.
  - destruct b; simpl; by apply IH.
  - simpl. rewrite Hc. by apply IH.
Qed.

Lemma noDoubleHyphen_runs b s :
  noDoubleHyphen b (Utils.runsToHyphen (λ c, Ascii.eqb c "-") b s) = true.
Proof.
  revert b. induction s as [|c s IH]; intros b; [done|]. simpl.
  destruct (Ascii.eqb c "-") eqn:E.
  - destruct b; [apply IH|]. simpl. apply IH.
  - simpl. rewrite E. apply IH.
Qed.

Lemma noDoubleHyphen_weaken s : noDoubleHyphen true s = true → noDoubleHyphen false s = true.
Proof. destruct s as [|c s]; [done|]. simpl. by destruct (Ascii.eqb c "-"). Qed.

Lemma trim_slug s : allChars slugChar s = true → Js.trim s = s.
Proof.
  intros Hs. unfold Js.trim.
  assert (Js.trimStart s = s) as ->.
  { destruct s as [|c s]; [done|]. simpl in *. apply andb_true_iff in Hs as [Hc _].
    by destruct (slugChar_fixed c Hc) as (_ & -> & _). }
  induction s as [|c s IH]; [done|]. simpl in *.
  apply andb_true_iff in Hs as [Hc Hs].
  destruct (slugChar_fixed c Hc) as (_ & Hw & _).
  rewrite IH by done. destruct s; [by rewrite Hw | done].
Qed.

Lemma mapChars_slug s :
  allChars slugChar s = true → Utils.mapChars Utils.toLowerCase s = s.
Proof.
  induction s as [|c s IH]; [done|]. simpl. intros [Hc Hs]%andb_true_iff.
  destruct (slugChar_fixed c Hc) as (-> & _ & _). by rewrite IH.
Qed.

Lemma keepChars_slug s :
  allChars slugChar s = true →
  Utils.keepChars (λ c, Utils.isWord c || Js.isWhiteSpace c || Ascii.eqb c "-") s = s.
Proof.
  induction s as [|c s IH]; [done|]. simpl. intros [Hc Hs]%andb_true_iff.
  destruct (slugChar_fixed c Hc) as (_ & _ & ->). by rewrite IH.
Qed.

Lemma spaces_slug s :
  allChars slugChar s = true → Utils.runsToHyphen Js.isWhiteSpace false s = s.
Proof.
  induction s as [|c s IH]; [done|]. simpl. intros [Hc Hs]%andb_true_iff.
  destruct (slugChar_fixed c Hc) as (_ & -> & _). by rewrite IH.
Qed.

Lemma hyphens_slug b s :
  noDoubleHyphen b s = true → Utils.runsToHyphen (λ c, Ascii.eqb c "-") b s = s.
Proof.
  revert b. induction s as [|c s IH]; intros b; [done|]. simpl.
  destruct (Ascii.eqb c "-") eqn:E.
  - intros [Hb Hs]%andb_true_iff. destruct b; [done|].
    apply Ascii.eqb_eq in E as ->. by rewrite IH.
  - intros Hs. by rewrite IH.
Qed.

Lemma noDoubleHyphen_split b (pre post : string) :
  noDoubleHyphen b (pre +:+ "--" +:+ post) = false.
Proof.
  revert b. induction pre as [|c pre IH]; intros b.
  - rewrite append_Empty. simpl. by rewrite andb_false_r.
  - rewrite append_String. simpl. rewrite !IH. by destruct (Ascii.eqb c "-"); rewrite ?andb_false_r.
Qed.

End Slug.

(** X24.  [slugify] answers with a string of the characters a-z, 0-9,
    underscore and hyphen, in which no two hyphens stand next to each
    other.  It is idempotent.  Its last step, [trim], never removes
    anything: white space at either end of the text has become a hyphen
    before, so a text that starts or ends with white space gives a slug
    that starts or ends with a hyphen. *)
Theorem slugify_shape (text : string) :
  allChars slugChar (Utils.slugify text) = true
  ∧ (∀ pre post, Utils.slugify text ≠ pre +:+ "--" +:+ post)
  ∧ Utils.slugify (Utils.slugify text) = Utils.slugify text
  ∧ Utils.slugify text
    = Utils.runsToHyphen (λ c, Ascii.eqb c "-") false
        (Utils.runsToHyphen Js.isWhiteSpace false
           (Utils.keepChars (λ c, Utils.isWord c || Js.isWhiteSpace c || Ascii.eqb c "-")
              (Utils.mapChars Utils.toLowerCase text)))
  ∧ (∀ c rest, text = String c rest → Js.isWhiteSpace c = true →
       ∃ r, Utils.slugify text = String "-" r).
Proof.
  set (r := Utils.runsToHyphen (λ c, Ascii.eqb c "-") false
              (Utils.runsToHyphen Js.isWhiteSpace false
                 (Utils.keepChars
                    (λ c, Utils.isWord c || Js.isWhiteSpace c || Ascii.eqb c "-")
                    (Utils.mapChars Utils.toLowerCase text)))).
  assert (allChars slugChar r = true) as Hchars
    by (apply allChars_hyphens, allChars_spaces, allChars_kept).
  assert (noDoubleHyphen false r = true) as Hno by apply noDoubleHyphen_runs.
  assert (Utils.slugify text = r) as Hslug
    by (unfold Utils.slugify; fold r; by apply trim_slug).
  rewrite !Hslug.
  split; [done|]. split.
  { intros pre post E. by rewrite E, noDoubleHyphen_split in Hno. }
  split.
  { unfold Utils.slugify.
    by rewrite mapChars_slug, keepChars_slug, spaces_slug, hyphens_slug, trim_slug. }
  split; [done|].
  intros c rest Htext Hc. unfold r. rewrite Htext. simpl.
  assert (Js.isWhiteSpace (Utils.toLowerCase c) = true) as Hc'.
  { revert Hc. destruct c as [[] [] [] [] [] [] [] []]; vm_compute; done. }
  rewrite Hc', orb_true_r. simpl. rewrite Hc'. simpl. by eexists.
Qed.

(** ** The further properties at the sample data *)

Section SampleMore.

Lemma Sample_top_level_wf (l : list Block) :
  Forall (λ b, parentId b = None) l → well_founded (childOf l).
Proof.
  intros Hl x. constructor. intros y (b & Hb & _ & Hp).
  rewrite Forall_forall in Hl. by rewrite (Hl b Hb) in Hp.
Qed.

Lemma Sample_editing_page (k : string) :
  k ∈ BlockManager.blockId <$> BlockManager.page Sample.editing
  ↔ inPage "page" (DataManager.blocks Sample.flat) k.
Proof.
  rewrite <-Sample_flat_page. simpl.
  rewrite !elem_of_cons, !elem_of_nil. tauto.
Qed.

End SampleMore.

Lemma deleteBlock_again_witness :
  ∃ d' d'',
    DataManager.deleteBlock 3 "a" Sample.tree = Some (Normal true, d')
    ∧ DataManager.deleteBlock 1 "a" d' = Some (Normal true, d'')
    ∧ DataManager.blocks d'' = DataManager.blocks d'.
Proof.
  destruct (DataManager.deleteBlock 3 "a" Sample.tree) as [[res d']|] eqn:Hrun;
    [|vm_compute in Hrun; discriminate].
  destruct (deleteBlock_again 3 0 "a" Sample.tree d' res Hrun)
    as [_ (d'' & Hagain & Hblocks & _)].
  exists d', d''. split; [|split; [exact Hagain | exact Hblocks]].
  vm_compute in Hrun. injection Hrun as <- <-. reflexivity.
Defined.

Lemma deleteBlock_cycle_pending_witness :
  DataManager.deleteBlock 7 "a" Sample.cyclic = None.
Proof.
  apply (deleteBlock_cycle_pending "a" Sample.cyclic).
  - unfold uniqueKeys. apply (bool_decide_unpack _). by vm_compute.
  - apply tc_once. exists (Sample.block "a" (Some "a") "toggle" "A" 0).
    split; [left | done].
Defined.

Lemma reorderBlocks_getBlocks_witness :
  ∃ d' bs,
    DataManager.reorderBlocks Sample.host "page" ["c"; "a"; "b"] Sample.flat
      = Some (Normal tt, d')
    ∧ DataManager.getBlocks "page" d' = Some (Normal bs, d')
    ∧ id <$> bs = ["c"; "a"; "b"]
    ∧ order <$> bs = [0; 1; 2]%Z.
Proof.
  destruct (reorderBlocks_getBlocks Sample.host "page" ["c"; "a"; "b"] Sample.flat
              Sample_flat_unique) as (d' & bs & Hrun & Hget & Hids & Hord).
  - apply (bool_decide_unpack _). by vm_compute.
  - apply Sample_flat_page.
  - exists d', bs. split; [exact Hrun|]. split; [exact Hget|].
    split; [exact Hids | exact Hord].
Defined.

Lemma deleteBlock_leaves_descendants_witness :
  ∃ fuel s' d',
    BlockManager.deleteBlock fuel "a" Sample.nested = Some (Normal tt, s')
    ∧ BlockManager.data s' = Some d'
    ∧ DataManager.findById "b" (DataManager.blocks d') = None
    ∧ BlockManager.blocks s' !! "b" = Some (Sample.block "b" (Some "a") "paragraph" "B" 1)
    ∧ BlockManager.page s'
      = [ BlockManager.mkElement "b" "paragraph" (Some "B");
          BlockManager.mkElement "c" "paragraph" (Some "C");
          BlockManager.mkElement "d" "paragraph" (Some "D") ].
Proof.
  destruct (deleteBlock_leaves_descendants "a" Sample.nested Sample.tree eq_refl
              Sample_tree_wf) as (fuel & s' & d' & Hrun & Hd & _ & _ & Hpage & _ & _ & Hdesc).
  destruct (Hdesc "b") as [Hgone Hkept].
  { apply Sample_tree_descendants. left. }
  destruct (Hpage 0 (BlockManager.mkElement "a" "toggle" (Some "A")) eq_refl)
    as (Hpage' & _).
  exists fuel, s', d'. split; [by apply Hrun|]. split; [exact Hd|].
  split; [exact Hgone|]. split.
  - rewrite Hkept. vm_compute. reflexivity.
  - exact Hpage'.
Defined.

Lemma reorderBlocks_then_loadBlocks_witness :
  ∃ s1 s2,
    BlockManager.reorderBlocks Sample.host Sample.editing = Some (Normal tt, s1)
    ∧ BlockManager.loadBlocks "page" s1 = Some (Normal tt, s2)
    ∧ BlockManager.blockId <$> BlockManager.page s2 = ["a"; "b"; "c"].
Proof.
  destruct (reorderBlocks_then_loadBlocks Sample.host Sample.editing "page" Sample.flat)
    as (s1 & s2 & Hrun & _ & _ & Hload & Hids & _).
  - reflexivity.
  - discriminate.
  - reflexivity.
  - exact Sample_flat_unique.
  - apply (bool_decide_unpack _). by vm_compute.
  - exact Sample_editing_page.
  - exists s1, s2. split; [exact Hrun|]. split; [exact Hload | exact Hids].
Defined.

Lemma drop_moves_block_witness :
  ∃ s' d' b,
    BlockManager.drop Sample.host (Some 0) 2 Sample.editing = Some (Normal tt, s')
    ∧ BlockManager.page s' !! 2 = Some (BlockManager.mkElement "a" "paragraph" (Some "A"))
    ∧ BlockManager.data s' = Some d'
    ∧ DataManager.findById "a" (DataManager.blocks d') = Some b
    ∧ order b = 2%Z.
Proof.
  destruct (drop_moves_block Sample.host 0 2 Sample.editing "page" Sample.flat
              (BlockManager.mkElement "a" "paragraph" (Some "A")))
    as (s' & d' & Hrun & Hat & _ & _ & Hd & Horder).
  - reflexivity.
  - discriminate.
  - reflexivity.
  - exact Sample_flat_unique.
  - apply (bool_decide_unpack _). by vm_compute.
  - exact Sample_editing_page.
  - reflexivity.
  - simpl. lia.
  - lia.
  - destruct (Horder 2 _ Hat) as (b & Hb & Ho).
    exists s', d', b. split; [exact Hrun|]. split; [exact Hat|].
    split; [exact Hd|]. split; [exact Hb | exact Ho].
Defined.

Lemma createBlock_then_loadBlocks_witness :
  ∃ s1 s2,
    (∃ el, BlockManager.createBlock Sample.host "paragraph" None
             (Some (BlockManager.ElementRef 0)) ∅ Sample.editing
           = Some (Normal (Some el), s1))
    ∧ BlockManager.blockId <$> BlockManager.page s1 = ["a"; "lx3k-"; "b"; "c"]
    ∧ BlockManager.loadBlocks "page" s1 = Some (Normal tt, s2)
    ∧ BlockManager.blockId <$> BlockManager.page s2 = ["a"; "b"; "lx3k-"; "c"].
Proof.
  destruct (createBlock_then_loadBlocks Sample.host "paragraph" None ∅ 0 Sample.editing
              "page" Sample.flat (DataManager.blocks Sample.flat)
              (Sample.block "a" None "paragraph" "A" 0)
              (Sample.block "b" None "paragraph" "B" 1))
    as (s1 & s2 & Hcreate & Hshown & _ & Hload & Hreloaded).
  - reflexivity.
  - discriminate.
  - reflexivity.
  - reflexivity.
  - reflexivity.
  - intros b Hb. simpl in Hb.
    repeat (apply elem_of_cons in Hb as [->|Hb]); try (vm_compute; reflexivity).
    by apply not_elem_of_nil in Hb.
  - apply (bool_decide_unpack _). by vm_compute.
  - reflexivity.
  - discriminate.
  - reflexivity.
  - reflexivity.
  - reflexivity.
  - intros y Hy. simpl in Hy.
    repeat (apply elem_of_cons in Hy as [->|Hy]); try reflexivity.
    by apply not_elem_of_nil in Hy.
  - exists s1, s2. split; [exact Hcreate|]. split; [exact Hshown|].
    split; [exact Hload | exact Hreloaded].
Defined.

Lemma backspace_in_empty_block_witness :
  ∃ fuel s' d',
    Keyboard.settle
      (Keyboard.handleKeydown Sample.host fuel
         (Keyboard.mkEvent Keyboard.Backspace false 1 "" 0)
         (Keyboard.mk (BlockMenu.mkApp (BlockMenu.mk false 0 None) Sample.withEmpty) None))
    = Some (Normal tt,
            Keyboard.mk (BlockMenu.mkApp (BlockMenu.mk false 0 None) s') (Some (0, Some 1)))
    ∧ BlockManager.page s' = [BlockManager.mkElement "a" "paragraph" (Some "A")]
    ∧ BlockManager.data s' = Some d'
    ∧ DataManager.findById "b" (DataManager.blocks d') = None.
Proof.
  destruct (backspace_in_empty_block Sample.host
              (Keyboard.mkEvent Keyboard.Backspace false 1 "" 0)
              (BlockMenu.mk false 0 None) Sample.withEmpty None
              (BlockManager.mkElement "b" "paragraph" (Some ""))
              (DataManager.mk [ Sample.block "a" None "paragraph" "A" 0;
                                Sample.block "b" None "paragraph" "" 1 ] [] 0))
    as [_ Hlater].
  - reflexivity.
  - reflexivity.
  - reflexivity.
  - eexists. vm_compute. reflexivity.
  - apply (bool_decide_unpack _). by vm_compute.
  - reflexivity.
  - apply Sample_top_level_wf. by repeat constructor.
  - destruct (Hlater 0 eq_refl) as (fuel & s' & d' & Hrun).
    destruct (Hrun fuel (le_n _)) as (_ & _ & _ & _ & Hfocus & Hsettle & Hpage & Hd & Hgone).
    exists fuel, s', d'. split.
    + rewrite Hsettle.
      by rewrite (Hfocus (BlockManager.mkElement "a" "paragraph" (Some "A")) "A"
                    eq_refl eq_refl).
    + split; [exact Hpage|]. split; [exact Hd | exact Hgone].
Defined.

Lemma enter_creates_paragraph_witness :
  ∃ nb s',
    Keyboard.threw
      (Keyboard.handleKeydown Sample.host 0
         (Keyboard.mkEvent Keyboard.Enter false 0 "A" 1)
         (Keyboard.mk (BlockMenu.mkApp (BlockMenu.mk false 0 None) Sample.editing) None))
    = true
    ∧ Keyboard.settle
        (Keyboard.handleKeydown Sample.host 0
           (Keyboard.mkEvent Keyboard.Enter false 0 "A" 1)
           (Keyboard.mk (BlockMenu.mkApp (BlockMenu.mk false 0 None) Sample.editing) None))
      = Some (Normal tt,
              Keyboard.mk (BlockMenu.mkApp (BlockMenu.mk false 0 None) s') None)
    ∧ BlockManager.blockId <$> BlockManager.page s' = ["a"; id nb; "b"; "c"]
    ∧ order nb = 1%Z.
Proof.
  destruct (enter_creates_paragraph Sample.host 0
              (Keyboard.mkEvent Keyboard.Enter false 0 "A" 1)
              (BlockMenu.mk false 0 None) Sample.editing None
              (BlockManager.mkElement "a" "paragraph" (Some "A"))
              (Sample.block "a" None "paragraph" "A" 0) "page" Sample.flat)
    as (_ & Hthrew & _ & nb & s' & Hsettle & Hpage & _ & _ & _ & _ & _ & _ & Horder).
  - reflexivity.
  - reflexivity.
  - left. reflexivity.
  - reflexivity.
  - discriminate.
  - vm_compute. reflexivity.
  - reflexivity.
  - discriminate.
  - reflexivity.
  - reflexivity.
  - exists nb, s'. split; [exact Hthrew|]. split; [exact Hsettle|].
    split; [by rewrite Hpage | exact Horder].
Defined.

Lemma slash_then_click_witness :
  ∃ s',
    BlockMenu.itemClick Sample.host (Some "todo")
      (Keyboard.app
         (Keyboard.afterHandler
            (Keyboard.handleKeydown Sample.host 0
               (Keyboard.mkEvent Keyboard.Slash false 1 "" 0)
               (Keyboard.mk (BlockMenu.mkApp (BlockMenu.mk false 0 None) Sample.withEmpty)
                  None))))
    = Some (Normal tt, BlockMenu.mkApp (BlockMenu.mk false 0 None) s')
    ∧ BlockManager.page s'
      = [BlockManager.mkElement "a" "paragraph" (Some "A");
         BlockManager.mkElement "b" "todo" (Some "")].
Proof.
  destruct (slash_then_click Sample.host 0
              (Keyboard.mkEvent Keyboard.Slash false 1 "" 0)
              (BlockMenu.mk false 0 None) Sample.withEmpty None
              (BlockManager.mkElement "b" "paragraph" (Some ""))
              (Sample.block "b" None "paragraph" "" 1) "todo")
    as (_ & _ & _ & _ & _ & s' & Hrun & _ & _ & Hpage & _).
  - reflexivity.
  - reflexivity.
  - reflexivity.
  - reflexivity.
  - discriminate.
  - vm_compute. reflexivity.
  - apply (bool_decide_unpack _). by vm_compute.
  - intros d [= <-]. eexists. vm_compute. reflexivity.
  - exists s'. split; [exact Hrun | exact Hpage].
Defined.

Lemma enter_in_menu_adds_paragraph_witness :
  ∃ s',
    Keyboard.enterInMenu Sample.host BlockMenu.renderedItems false 1 "" 0
      (Keyboard.mk (BlockMenu.mkApp (BlockMenu.mk true 6 (Some 1)) Sample.withEmpty) None)
    = Some (Normal tt, BlockMenu.mkApp (BlockMenu.mk false 6 None) s')
    ∧ BlockManager.page s'
      = [BlockManager.mkElement "a" "paragraph" (Some "A");
         BlockManager.mkElement "b" "todo" (Some "");
         BlockManager.mkElement "lx3k-" "paragraph" (Some "")].
Proof.
  destruct (enter_in_menu_adds_paragraph Sample.host BlockMenu.renderedItems 0
              (BlockMenu.mk true 6 (Some 1)) Sample.withEmpty None 1
              (BlockManager.mkElement "b" "paragraph" (Some ""))
              (Sample.block "b" None "paragraph" "" 1)
              (Sample.block "b" None "paragraph" "" 1) "todo" "page"
              (DataManager.mk [ Sample.block "a" None "paragraph" "A" 0;
                                Sample.block "b" None "paragraph" "" 1 ] [] 0))
    as (nb & s' & d' & Hrun & Hnid & _ & _ & Hnty & Hnc & _ & _ & Hpage & _).
  - reflexivity.
  - reflexivity.
  - reflexivity.
  - reflexivity.
  - reflexivity.
  - discriminate.
  - vm_compute. reflexivity.
  - apply (bool_decide_unpack _). by vm_compute.
  - reflexivity.
  - discriminate.
  - reflexivity.
  - vm_compute. reflexivity.
  - vm_compute. reflexivity.
  - exists s'. split; [exact Hrun|]. rewrite Hpage.
    unfold BlockManager.renderBlock at 2. rewrite Hnid, Hnty, Hnc. reflexivity.
Defined.

Lemma checkInlineMarkdown_quiet_witness :
  Editor.checkInlineMarkdown Sample.host
    (Editor.mk [Editor.Text "hello"] (Some (Editor.InChild 0 5)))
  = (false, Editor.mk [Editor.Text "hello"] (Some (Editor.InChild 0 5))).
Proof.
  apply (checkInlineMarkdown_quiet Sample.host).
  intros i cursorPos text pre c [= <- <-] [= <-] E.
  change (Editor.substring 0 5 "hello") with ("hell" +:+ "o") in E.
  apply append_last_inj in E as <-. by repeat split.
Defined.

Lemma checkInlineMarkdown_wraps_witness :
  Editor.checkInlineMarkdown Sample.host
    (Editor.mk [Editor.Text "a **b** c"] (Some (Editor.InChild 0 7)))
  = (true,
     Editor.mk [Editor.Text "a "; Editor.Wrapper "strong" "b"; Editor.Text " c"]
       (Some (Editor.InParent 2))).
Proof.
  apply (checkInlineMarkdown_wraps Sample.host
           (Editor.mk [Editor.Text "a **b** c"] (Some (Editor.InChild 0 7)))
           0 "**" "*" "strong" "a " "b" " c").
  - left.
  - reflexivity.
  - reflexivity.
  - discriminate.
  - simpl. intros [[=]|[]%elem_of_nil]%elem_of_cons.
Defined.

Lemma addRecentPage_first_witness :
  ∃ l' a',
    AppState.addRecentPage Sample.json "p1" Sample.session = Some (Normal tt, a')
    ∧ AppState.state a' !! "recentPages" = Some (AppState.VArr l')
    ∧ l' !! 0 = Some "p1"
    ∧ filter (λ k, k = "p1") l' = ["p1"].
Proof.
  destruct (addRecentPage_first Sample.json "p1" Sample.session ["p2"; "p1"])
    as (l' & a' & Hrun & Hstate & Hhead & _ & Honce & _); [reflexivity | reflexivity |].
  exists l', a'. split; [exact Hrun|]. split; [|split; [exact Hhead | exact Honce]].
  rewrite Hstate. apply lookup_insert_eq.
Defined.

Lemma set_persistence_witness :
  ∃ a',
    AppState.set Sample.json "recentPages" (AppState.VArr ["p3"]) Sample.session
    = Some (Normal tt, a')
    ∧ AppState.items (AppState.storage a') !! "planner-recent-pages" = Some "[p3;]"
    ∧ AppState.state (AppState.new Sample.json (AppState.storage a')) !! "recentPages"
      = Some (AppState.VArr []).
Proof.
  assert (∃ a', AppState.set Sample.json "recentPages" (AppState.VArr ["p3"])
                  Sample.session = Some (Normal tt, a')
                ∧ AppState.items (AppState.storage a') !! "planner-recent-pages"
                  = Some "[p3;]") as (a' & Hrun & Hitem).
  { eexists. split; [reflexivity|]. vm_compute. reflexivity. }
  destruct (set_persistence Sample.json "recentPages" (AppState.VArr ["p3"])
              Sample.session a' (Normal tt) Hrun) as (_ & Hsame & _).
  exists a'. split; [exact Hrun|]. split; [exact Hitem|].
  rewrite Hsame. reflexivity.
Defined.

Lemma toggleFavorite_flips_witness :
  ∃ l' a',
    AppState.toggleFavorite Sample.json "p1" Sample.session = Some (Normal tt, a')
    ∧ AppState.state a' !! "favorites" = Some (AppState.VArr l')
    ∧ "p1" ∉ l'.
Proof.
  destruct (toggleFavorite_flips Sample.json "p1" Sample.session ["p1"])
    as (l' & a' & Hrun & Hstate & _ & _ & _ & Hflip & _); [reflexivity | reflexivity |].
  exists l', a'. split; [exact Hrun|]. split.
  - rewrite Hstate. apply lookup_insert_eq.
  - destruct Hflip as [_ Hflip]; [apply NoDup_singleton|].
    intros Hin. apply Hflip in Hin. apply Hin. left.
Defined.

Lemma subscribe_set_unsubscribe_witness :
  default [] (AppState.listeners
                (AppState.unsubscribe "recentPages" 9
                   (AppState.subscribe "recentPages" 9 Sample.session))
              !! "recentPages")
  = [7].
Proof.
  destruct (subscribe_set_unsubscribe Sample.json "recentPages" 9 (AppState.VArr [])
              Sample.session) as [Hback _].
  - change (default [] (AppState.listeners Sample.session !! "recentPages")) with [7].
    intros [[=]|[]%elem_of_nil]%elem_of_cons.
  - exact Hback.
Defined.
